(** * ai-studio: hardware-adaptive planner and llama.cpp process supervisor

    A shallow embedding of [src/main/managers/hardware.ts] (the hardware
    profiler and the sizing function [calculateOptimalSettings]) and of
    [src/main/managers/llama-server.ts] (the [ElectronLlamaServerManager]),
    followed by the properties the specification states about them and by
    further properties of the same code and of its callers.

    Conventions.
    - A JavaScript number that the code only ever uses as an integer is a [Z].
      The one genuinely fractional computation, [totalMemoryGB * 0.6], is
      carried out in IEEE-754 binary64 with [SpecFloat].
    - A JavaScript string is a [string] (a sequence of bytes); the character
      classes [\s] and [\d] are modelled on their ASCII members.
    - A [Map<string, T>] is a [gmap string T].
    - A [try]/[catch] is modelled on a completion type with a [Throw] case. *)

From Stdlib Require Import ZArith Lia Bool Ascii String DecimalString DecimalPos.
From Stdlib Require Import Floats.SpecFloat.
From stdpp Require Import base option list gmap strings.

Local Open Scope string_scope.
Local Open Scope list_scope.
Local Open Scope Z_scope.

(* ===================================================================== *)
(** * JavaScript runtime pieces used by the two managers                   *)
(* ===================================================================== *)

(** ** Numbers: binary64 multiplication and [Math.floor] *)

Module JsNumber.

Definition prec : Z := 53.
Definition emax : Z := 1024.

(** The double nearest to an integer (exact below 2^53). *)
Definition of_Z (n : Z) : spec_float := binary_normalize prec emax n 0 false.

(** The literal [0.6]: the double 5404319552844595 * 2^-53. *)
Definition lit_0_6 : spec_float := S754_finite false 5404319552844595 (-53).

(** [x * y] on doubles, round to nearest even. *)
Definition mul (x y : spec_float) : spec_float := SFmul prec emax x y.

(** [Math.floor] of a finite double, as an integer.  NaN and the
    infinities have no integer value; they are mapped to [0] and are not
    produced by the finite products taken here. *)
Definition Math_floor (x : spec_float) : Z :=
  match x with
  | S754_finite s m e =>
      let v := if s then Z.neg m else Z.pos m in
      if 0 <=? e then v * 2 ^ e else v / 2 ^ (- e)
  | _ => 0
  end.

(** [Math.round(bytes / 1024 ** 3)] for a byte count as [os.totalmem()]
    reports it: dividing by a power of two is exact in binary64 and
    [Math.round] rounds halves upwards. *)
Definition round_GiB (bytes : Z) : Z := (bytes + 2 ^ 29) / 2 ^ 30.

End JsNumber.

(** ** Strings: [trim], [parseInt(_, 10)], [split('\n')], [Number.toString] *)

Module JsString.

Definition is_space (c : ascii) : bool :=
  let n := nat_of_ascii c in
  ((9 <=? n)%nat && (n <=? 13)%nat) || (n =? 32)%nat.

Definition is_digit (c : ascii) : bool :=
  let n := nat_of_ascii c in (48 <=? n)%nat && (n <=? 57)%nat.

Fixpoint trimStart (s : string) : string :=
  match s with
  | String c s' => if is_space c then trimStart s' else s
  | EmptyString => EmptyString
  end.

Fixpoint rev_string (acc s : string) : string :=
  match s with
  | String c s' => rev_string (String c acc) s'
  | EmptyString => acc
  end.

Definition trimEnd (s : string) : string :=
  rev_string "" (trimStart (rev_string "" s)).

Definition trim (s : string) : string := trimEnd (trimStart s).

(** The longest prefix of decimal digits and what follows it. *)
Fixpoint span_digits (s : string) : string * string :=
  match s with
  | String c s' =>
      if is_digit c then
        let '(d, r) := span_digits s' in (String c d, r)
      else ("", s)
  | EmptyString => ("", "")
  end.

Fixpoint digits_value (acc : Z) (s : string) : Z :=
  match s with
  | String c s' => digits_value (10 * acc + (Z.of_nat (nat_of_ascii c) - 48)) s'
  | EmptyString => acc
  end.

(** [parseInt(s, 10)]; [None] stands for [NaN]. *)
Definition parseInt (s : string) : option Z :=
  let s1 := trimStart s in
  let '(neg, s2) :=
    match s1 with
    | String "-" r => (true, r)
    | String "+" r => (false, r)
    | _ => (false, s1)
    end in
  let '(d, _) := span_digits s2 in
  match d with
  | EmptyString => None
  | _ => Some (if neg then - digits_value 0 d else digits_value 0 d)
  end.

(** [n || 0] on the result of [parseInt]: [NaN] and [0] are falsy. *)
Definition or_zero (n : option Z) : Z := default 0 n.

(** [s.split('\n')]: always at least one piece; the piece after the last
    line feed is the (possibly empty) unterminated tail. *)
Fixpoint split_lines (s : string) : list string :=
  match s with
  | EmptyString => [""]
  | String c s' =>
      if Ascii.eqb c "010" then "" :: split_lines s'
      else match split_lines s' with
           | l :: ls => String c l :: ls
           | [] => [String c ""]
           end
  end.

(** [n.toString()] of an integer. *)
Definition Number_toString (n : Z) : string :=
  match n with
  | Z0 => "0"
  | Zpos p => NilEmpty.string_of_uint (Pos.to_uint p)
  | Zneg p => String "-" (NilEmpty.string_of_uint (Pos.to_uint p))
  end.

(** [s] without the prefix [p], when it has it. *)
Fixpoint strip_prefix (p s : string) : option string :=
  match p, s with
  | EmptyString, _ => Some s
  | String a p', String b s' => if Ascii.eqb a b then strip_prefix p' s' else None
  | String _ _, EmptyString => None
  end.

(** Truthiness of a string: only the empty string is falsy. *)
Definition truthy (s : string) : bool :=
  match s with EmptyString => false | _ => true end.

End JsString.

(** ** Completions: a value, or a thrown exception *)

Inductive Completion (A : Type) : Type :=
| Normal (a : A)
| Throw (e : string).
Arguments Normal {A} a.
Arguments Throw {A} e.

Definition bindC {A B} (c : Completion A) (k : A -> Completion B) : Completion B :=
  match c with
  | Normal a => k a
  | Throw e => Throw e
  end.

(** [try { body } catch { }] around a body that leaves [otherwise] when it
    throws. *)
Definition try_or {A} (body : Completion A) (otherwise : A) : A :=
  match body with
  | Normal a => a
  | Throw _ => otherwise
  end.

(** [try { body } catch { handler }] *)
Definition try_catch {A} (body : Completion A) (handler : Completion A) : Completion A :=
  match body with
  | Normal a => Normal a
  | Throw _ => handler
  end.

Notation "x <- c ;;; k" := (bindC c (fun x => k))
  (at level 100, c at next level, right associativity).

(* ===================================================================== *)
(** * hardware.ts                                                          *)
(* ===================================================================== *)

Module Hardware.
Import JsString.

(** [HardwareProfile['recommended']] *)
Record Recommended := {
  gpuLayers : Z;
  cpuThreads : Z;
  contextSize : Z;
  maxModelSizeGB : Z;
  batchSize : Z
}.

(** [AppleSiliconGeneration] and [AppleSiliconVariant] are unions of string
    literals; at run time they are strings (the generation is whatever the
    brand string carries, e.g. an "M5"), so they are kept as strings. *)
Record HardwareProfile := {
  cpuModel : string;
  cpuCores : Z;
  performanceCores : Z;
  efficiencyCores : Z;
  isAppleSilicon : bool;
  generation : string;
  variant : string;
  gpuCores : Z;
  neuralEngineCores : Z;
  totalMemoryGB : Z;
  availableMemoryGB : Z;
  unifiedMemory : bool;
  recommended : Recommended
}.

(** What the profiler reads from [os] and [child_process].  The [os]
    accessors return values; [execSync] either returns the command's
    output or throws. *)
Record CpuInfo := { model : string }.

Record Host := {
  platform : string;
  arch : string;
  cpus : list CpuInfo;
  totalmem : Z;
  freemem : Z;
  execSync : string -> Completion string
}.

Definition GPU_CORES (generation variant : string) : option Z :=
  let row (b p m u : Z) :=
    if (variant =? "base")%string then Some b
    else if (variant =? "Pro")%string then Some p
    else if (variant =? "Max")%string then Some m
    else if (variant =? "Ultra")%string then Some u
    else None in
  if (generation =? "M1")%string then row 8 16 32 64
  else if (generation =? "M2")%string then row 10 19 38 76
  else if (generation =? "M3")%string then row 10 18 40 80
  else if (generation =? "M4")%string then row 10 20 40 80
  else None.

Definition NEURAL_CORES (generation : string) : option Z :=
  if (generation =? "M1")%string || (generation =? "M2")%string
     || (generation =? "M3")%string || (generation =? "M4")%string
  then Some 16 else None.

(** [(Pro|Max|Ultra)] at the head of [s]. *)
Definition variant_here (s : string) : option string :=
  if String.prefix "Pro" s then Some "Pro"
  else if String.prefix "Max" s then Some "Max"
  else if String.prefix "Ultra" s then Some "Ultra"
  else None.

(** [/Apple (M\d+)(?:\s+(Pro|Max|Ultra))?/] anchored at the head of [s]:
    the two capture groups, the second absent when the optional part did
    not match. *)
Definition brand_here (s : string) : option (string * option string) :=
  match strip_prefix "Apple M" s with
  | None => None
  | Some r =>
      let '(d, rest) := span_digits r in
      match d with
      | EmptyString => None
      | _ =>
          let v :=
            match rest with
            | String c rest' =>
                if is_space c then variant_here (trimStart rest') else None
            | EmptyString => None
            end in
          Some (String "M" d, v)
      end
  end.

(** [cpuBrand.match(/Apple (M\d+)(?:\s+(Pro|Max|Ultra))?/)]: the leftmost
    position where the pattern matches. *)
Fixpoint brand_match (s : string) : option (string * option string) :=
  match brand_here s with
  | Some r => Some r
  | None =>
      match s with
      | String _ s' => brand_match s'
      | EmptyString => None
      end
  end.

Record SiliconInfo := {
  si_generation : string;
  si_variant : string;
  si_gpuCores : Z;
  si_neuralEngineCores : Z
}.

Definition unknown_silicon : SiliconInfo :=
  {| si_generation := "unknown"; si_variant := "unknown";
     si_gpuCores := 0; si_neuralEngineCores := 0 |}.

Definition getAppleSiliconInfo (h : Host) : Completion SiliconInfo :=
  if negb (platform h =? "darwin")%string || negb (arch h =? "arm64")%string
  then Normal unknown_silicon
  else
    try_catch
      (out <- execSync h "sysctl -n machdep.cpu.brand_string" ;;;
       let cpuBrand := trim out in
       match brand_match cpuBrand with
       | None => Normal unknown_silicon
       | Some (g, v) =>
           let generation := g in
           let variant := default "base" v in
           Normal {| si_generation := generation;
                     si_variant := variant;
                     si_gpuCores := default 0 (GPU_CORES generation variant);
                     si_neuralEngineCores := default 0 (NEURAL_CORES generation) |}
       end)
      (Normal unknown_silicon).

Definition cpus_length (h : Host) : Z := Z.of_nat (length (cpus h)).

Definition getPerformanceAndEfficiencyCores (h : Host) : Completion (Z * Z) :=
  if negb (platform h =? "darwin")%string
  then Normal (cpus_length h, 0)
  else
    try_catch
      (p <- execSync h "sysctl -n hw.perflevel0.physicalcpu" ;;;
       let perfCores := parseInt (trim p) in
       e <- execSync h "sysctl -n hw.perflevel1.physicalcpu" ;;;
       let effCores := parseInt (trim e) in
       Normal (or_zero perfCores, or_zero effCores))
      (Normal (cpus_length h / 2, cpus_length h / 2)).

Definition calculateOptimalSettings
    (totalMemoryGB _gpuCores performanceCores : Z)
    (generation variant : string) : Recommended :=
  let isHighEnd := (variant =? "Max")%string || (variant =? "Ultra")%string in
  let isM4Generation := (generation =? "M4")%string in
  let gpuLayers :=
    if totalMemoryGB >=? 128 then 99
    else if totalMemoryGB >=? 96 then 80
    else if totalMemoryGB >=? 64 then 60
    else if totalMemoryGB >=? 32 then 40
    else if totalMemoryGB >=? 16 then 20
    else 4 in
  let cpuThreads := Z.max 4 (performanceCores - 2) in
  let contextSize :=
    if totalMemoryGB >=? 128 then 131072
    else if totalMemoryGB >=? 96 then 65536
    else if totalMemoryGB >=? 64 then 32768
    else if totalMemoryGB >=? 32 then 16384
    else if totalMemoryGB >=? 16 then 8192
    else 4096 in
  let maxModelSizeGB :=
    JsNumber.Math_floor (JsNumber.mul (JsNumber.of_Z totalMemoryGB) JsNumber.lit_0_6) in
  let batchSize :=
    if isHighEnd && isM4Generation then 2048
    else if isHighEnd then 1024
    else 512 in
  {| gpuLayers := gpuLayers;
     cpuThreads := cpuThreads;
     contextSize := contextSize;
     maxModelSizeGB := maxModelSizeGB;
     batchSize := batchSize |}.

Definition detectHardware (h : Host) : Completion HardwareProfile :=
  let totalMemoryBytes := totalmem h in
  let freeMemoryBytes := freemem h in
  let totalMemoryGB := JsNumber.round_GiB totalMemoryBytes in
  let availableMemoryGB := JsNumber.round_GiB freeMemoryBytes in
  let cpuList := cpus h in
  let cpuModel :=
    match cpuList with
    | c :: _ => if truthy (model c) then model c else "Unknown"
    | [] => "Unknown"
    end in
  let cpuCores := Z.of_nat (length cpuList) in
  let isAppleSilicon := (platform h =? "darwin")%string && (arch h =? "arm64")%string in
  info <- getAppleSiliconInfo h ;;;
  cores <- getPerformanceAndEfficiencyCores h ;;;
  let recommended :=
    calculateOptimalSettings totalMemoryGB (si_gpuCores info) (fst cores)
                             (si_generation info) (si_variant info) in
  Normal {| cpuModel := cpuModel;
            cpuCores := cpuCores;
            performanceCores := fst cores;
            efficiencyCores := snd cores;
            isAppleSilicon := isAppleSilicon;
            generation := si_generation info;
            variant := si_variant info;
            gpuCores := si_gpuCores info;
            neuralEngineCores := si_neuralEngineCores info;
            totalMemoryGB := totalMemoryGB;
            availableMemoryGB := availableMemoryGB;
            unifiedMemory := isAppleSilicon;
            recommended := recommended |}.

(** [class HardwareManager]: the state is the cached profile, [None] for
    [null]. *)
Definition getProfile (h : Host) (cache : option HardwareProfile)
  : Completion (HardwareProfile * option HardwareProfile) :=
  match cache with
  | Some p => Normal (p, Some p)
  | None => p <- detectHardware h ;;; Normal (p, Some p)
  end.

Definition refresh (h : Host) (cache : option HardwareProfile)
  : Completion (HardwareProfile * option HardwareProfile) :=
  p <- detectHardware h ;;; Normal (p, Some p).

End Hardware.

(* ===================================================================== *)
(** * JSON.parse and the values it produces                                *)
(* ===================================================================== *)

Module Json.

(** A value produced by [JSON.parse].  A number is kept as its source text:
    nothing below reads a number's value.  An object keeps its members in
    source order, duplicates included. *)
#[local] Set Warnings "-register-all".
Inductive JsValue : Type :=
| JNull
| JBool (b : bool)
| JNumber (text : string)
| JString (s : string)
| JArray (items : list JsValue)
| JObject (members : list (string * JsValue)).
#[local] Set Warnings "+register-all".

Definition is_ws (c : ascii) : bool :=
  match nat_of_ascii c with
  | 9%nat | 10%nat | 13%nat | 32%nat => true
  | _ => false
  end.

Fixpoint skip_ws (s : string) : string :=
  match s with
  | String c s' => if is_ws c then skip_ws s' else s
  | EmptyString => EmptyString
  end.

Definition hex_value (c : ascii) : option nat :=
  let n := nat_of_ascii c in
  if (48 <=? n)%nat && (n <=? 57)%nat then Some (n - 48)%nat
  else if (65 <=? n)%nat && (n <=? 70)%nat then Some (n - 55)%nat
  else if (97 <=? n)%nat && (n <=? 102)%nat then Some (n - 87)%nat
  else None.

(** The UTF-8 bytes of a UTF-16 code unit given by a [\uXXXX] escape. *)
Definition utf8_of_unit (n : nat) : string :=
  if (n <? 128)%nat then String (ascii_of_nat n) ""
  else if (n <? 2048)%nat then
    String (ascii_of_nat (192 + n / 64)) (String (ascii_of_nat (128 + n mod 64)) "")
  else
    String (ascii_of_nat (224 + n / 4096))
      (String (ascii_of_nat (128 + (n / 64) mod 64))
         (String (ascii_of_nat (128 + n mod 64)) "")).

(** The characters of a string literal after its opening quote: the decoded
    text and what follows the closing quote. *)
Fixpoint read_string (s : string) : option (string * string) :=
  match s with
  | EmptyString => None
  | String c r =>
      if (c =? "034")%char then Some ("", r)
      else if (c =? "\")%char then
        match r with
        | String e r' =>
            let simple (x : ascii) :=
              match read_string r' with
              | Some (t, k) => Some (String x t, k)
              | None => None
              end in
            if (e =? "034")%char then simple e
            else if (e =? "\")%char then simple e
            else if (e =? "/")%char then simple e
            else if (e =? "b")%char then simple "008"%char
            else if (e =? "f")%char then simple "012"%char
            else if (e =? "n")%char then simple "010"%char
            else if (e =? "r")%char then simple "013"%char
            else if (e =? "t")%char then simple "009"%char
            else if (e =? "u")%char then
              match r' with
              | String h1 (String h2 (String h3 (String h4 r''))) =>
                  match hex_value h1, hex_value h2, hex_value h3, hex_value h4 with
                  | Some a, Some b, Some c', Some d =>
                      match read_string r'' with
                      | Some (t, k) =>
                          Some (utf8_of_unit (((a * 16 + b) * 16 + c') * 16 + d) +:+ t, k)
                      | None => None
                      end
                  | _, _, _, _ => None
                  end
              | _ => None
              end
            else None
        | EmptyString => None
        end
      else if (nat_of_ascii c <? 32)%nat then None
      else
        match read_string r with
        | Some (t, k) => Some (String c t, k)
        | None => None
        end
  end.

(** A number token at the head of [s]: its text and what follows. *)
Definition read_number (s : string) : option (string * string) :=
  let '(sign, s1) :=
    match s with
    | String "-" r => ("-", r)
    | _ => ("", s)
    end in
  let '(int, s2) := JsString.span_digits s1 in
  match int with
  | EmptyString => None
  | String "0" (String _ _) => None
  | _ =>
      let frac :=
        match s2 with
        | String "." r =>
            let '(d, r') := JsString.span_digits r in
            match d with
            | EmptyString => None
            | _ => Some ("." +:+ d, r')
            end
        | _ => Some ("", s2)
        end in
      match frac with
      | None => None
      | Some (f, s3) =>
          let expo :=
            match s3 with
            | String c r =>
                if (c =? "e")%char || (c =? "E")%char then
                  let '(sg, r1) :=
                    match r with
                    | String "+" r0 => ("+", r0)
                    | String "-" r0 => ("-", r0)
                    | _ => ("", r)
                    end in
                  let '(d, r2) := JsString.span_digits r1 in
                  match d with
                  | EmptyString => None
                  | _ => Some (String c (sg +:+ d), r2)
                  end
                else Some ("", s3)
            | EmptyString => Some ("", s3)
            end in
          match expo with
          | None => None
          | Some (x, s4) => Some (sign +:+ int +:+ f +:+ x, s4)
          end
      end
  end.

(** One JSON value at the head of [s] (after white space), and the rest.
    [fuel] bounds the number of values and separators read. *)
Fixpoint read_value (fuel : nat) (s : string) {struct fuel}
  : option (JsValue * string) :=
  match fuel with
  | O => None
  | S fuel' =>
      match skip_ws s with
      | String c r =>
          if (c =? "n")%char then
            option_map (fun k => (JNull, k)) (JsString.strip_prefix "ull" r)
          else if (c =? "t")%char then
            option_map (fun k => (JBool true, k)) (JsString.strip_prefix "rue" r)
          else if (c =? "f")%char then
            option_map (fun k => (JBool false, k)) (JsString.strip_prefix "alse" r)
          else if (c =? "034")%char then
            option_map (fun '(t, k) => (JString t, k)) (read_string r)
          else if (c =? "[")%char then
            match skip_ws r with
            | String "]" k => Some (JArray [], k)
            | _ => read_items fuel' r []
            end
          else if (c =? "{")%char then
            match skip_ws r with
            | String "}" k => Some (JObject [], k)
            | _ => read_members fuel' r []
            end
          else
            option_map (fun '(t, k) => (JNumber t, k)) (read_number (String c r))
      | EmptyString => None
      end
  end
with read_items (fuel : nat) (s : string) (acc : list JsValue) {struct fuel}
  : option (JsValue * string) :=
  match fuel with
  | O => None
  | S fuel' =>
      match read_value fuel' s with
      | Some (v, r) =>
          match skip_ws r with
          | String "," k => read_items fuel' k (v :: acc)
          | String "]" k => Some (JArray (rev (v :: acc)), k)
          | _ => None
          end
      | None => None
      end
  end
with read_members (fuel : nat) (s : string) (acc : list (string * JsValue)) {struct fuel}
  : option (JsValue * string) :=
  match fuel with
  | O => None
  | S fuel' =>
      match skip_ws s with
      | String "034"%char r =>
          match read_string r with
          | Some (key, r1) =>
              match skip_ws r1 with
              | String ":" r2 =>
                  match read_value fuel' r2 with
                  | Some (v, r3) =>
                      match skip_ws r3 with
                      | String "," k => read_members fuel' k ((key, v) :: acc)
                      | String "}" k => Some (JObject (rev ((key, v) :: acc)), k)
                      | _ => None
                      end
                  | None => None
                  end
              | _ => None
              end
          | None => None
          end
      | _ => None
      end
  end.

(** [JSON.parse(text)]: the value, or a thrown [SyntaxError]. *)
Definition JSON_parse (text : string) : Completion JsValue :=
  match read_value (2 * String.length text + 2) text with
  | Some (v, r) =>
      match skip_ws r with
      | EmptyString => Normal v
      | _ => Throw "SyntaxError"
      end
  | None => Throw "SyntaxError"
  end.

(** The own property [key] of an object: the last member with that key
    wins. *)
Fixpoint member (key : string) (members : list (string * JsValue)) : option JsValue :=
  match members with
  | [] => None
  | (k, v) :: rest =>
      match member key rest with
      | Some w => Some w
      | None => if (k =? key)%string then Some v else None
      end
  end.

(** [v[key]] for a parsed [v] and a key that no prototype defines; [None]
    is [undefined].  Reading a property of [null] throws; primitives and
    arrays have no such property. *)
Definition get_property (key : string) (v : JsValue) : Completion (option JsValue) :=
  match v with
  | JNull => Throw "TypeError"
  | JObject members => Normal (member key members)
  | _ => Normal None
  end.

End Json.

(* ===================================================================== *)
(** * llama-server.ts                                                      *)
(* ===================================================================== *)

Module LlamaServer.
Import JsString Json.

Record LaunchOptions := {
  id : string;
  modelPath : string;
  multimodal : option bool;
  mmprojPath : option string;
  port : option string;
  contextSize : option Z;
  gpuLayers : option Z;
  threads : option Z;
  batchSize : option Z
}.

(** The error a launch is rejected with: what [execFile] reports when the
    process ends, or an exception thrown inside the [async] body. *)
Inductive LaunchError :=
| ProcessExit (code : option Z) (signal : option string)
| Exception (e : string).

Inductive Settlement :=
| Pending
| Fulfilled
| Rejected (err : LaunchError).

(** A promise object: one created by [new Promise], settled by its own
    [resolve]/[reject]; or the promise an [async] function hands to its
    caller, which is resolved with the promise the body returned and
    settles as that one does. *)
Inductive Promise :=
| Settles (s : Settlement)
| Follows (inner : nat).

(** A [ChildProcess] object together with what the closures registered on
    it have captured: the session id, the options, and the promise whose
    [resolve]/[reject] they call. *)
Record ChildProcess := {
  spawnargs : list string;
  for_id : string;
  for_options : LaunchOptions;
  settles : nat;
  readiness_handler : bool;   (* [handler] is subscribed to stdout 'data' *)
  kill_signals : list string; (* signals delivered by [kill] *)
  exited : bool
}.

(** The manager's three maps, the objects they refer to (child processes
    and promises, addressed by their position), and the cache of the
    [hardwareManager] singleton. *)
Record World := {
  launchOptions : gmap string LaunchOptions;
  processes : gmap string nat;
  loading : gmap string nat;
  children : list ChildProcess;
  promises : list Promise;
  hardwareProfile : option Hardware.HardwareProfile
}.

Definition init : World :=
  {| launchOptions := ∅; processes := ∅; loading := ∅;
     children := []; promises := []; hardwareProfile := None |}.

Definition with_launchOptions (f : gmap string LaunchOptions -> gmap string LaunchOptions)
    (w : World) : World :=
  {| launchOptions := f (launchOptions w); processes := processes w;
     loading := loading w; children := children w; promises := promises w;
     hardwareProfile := hardwareProfile w |}.

Definition with_processes (f : gmap string nat -> gmap string nat) (w : World) : World :=
  {| launchOptions := launchOptions w; processes := f (processes w);
     loading := loading w; children := children w; promises := promises w;
     hardwareProfile := hardwareProfile w |}.

Definition with_loading (f : gmap string nat -> gmap string nat) (w : World) : World :=
  {| launchOptions := launchOptions w; processes := processes w;
     loading := f (loading w); children := children w; promises := promises w;
     hardwareProfile := hardwareProfile w |}.

Definition with_children (f : list ChildProcess -> list ChildProcess) (w : World) : World :=
  {| launchOptions := launchOptions w; processes := processes w;
     loading := loading w; children := f (children w); promises := promises w;
     hardwareProfile := hardwareProfile w |}.

Definition with_promises (f : list Promise -> list Promise) (w : World) : World :=
  {| launchOptions := launchOptions w; processes := processes w;
     loading := loading w; children := children w; promises := f (promises w);
     hardwareProfile := hardwareProfile w |}.

(** [resolve()] / [reject(err)]: only a pending promise changes. *)
Definition settle (p : nat) (s : Settlement) (ps : list Promise) : list Promise :=
  match ps !! p with
  | Some (Settles Pending) => <[p := Settles s]> ps
  | _ => ps
  end.

(** What a holder of promise [p] observes. *)
Definition outcome (w : World) (p : nat) : option Settlement :=
  match promises w !! p with
  | Some (Settles s) => Some s
  | Some (Follows q) =>
      match promises w !! q with
      | Some (Settles s) => Some s
      | _ => None
      end
  | None => None
  end.

(** An [async] function returning the promise [p]: the caller receives a
    new promise resolved with [p]. *)
Definition async_return (w : World) (p : nat) : World * nat :=
  (with_promises (fun ps => ps ++ [Follows p]) w, length (promises w)).

(** An [async] function whose body throws: the caller receives a new,
    rejected promise. *)
Definition async_throw (w : World) (e : string) : World * nat :=
  (with_promises (fun ps => ps ++ [Settles (Rejected (Exception e))]) w,
   length (promises w)).

(** The [args] array of [launchServer], the hardware defaults standing in
    for the overrides that are [undefined]. *)
Definition launch_args (options : LaunchOptions) (r : Hardware.Recommended) : list string :=
  let effectiveContextSize := default (Hardware.contextSize r) (contextSize options) in
  let effectiveGpuLayers := default (Hardware.gpuLayers r) (gpuLayers options) in
  let effectiveThreads := default (Hardware.cpuThreads r) (threads options) in
  let effectiveBatchSize := default (Hardware.batchSize r) (batchSize options) in
  [ "-m"; modelPath options;
    "-c"; Number_toString effectiveContextSize;
    "-ngl"; Number_toString effectiveGpuLayers;
    "-t"; Number_toString effectiveThreads;
    "-b"; Number_toString effectiveBatchSize ]
  ++ match mmprojPath options with
     | Some m => if default false (multimodal options) && truthy m
                 then ["--mmproj"; m] else []
     | None => []
     end
  ++ match port options with
     | Some p => if truthy p then ["--port"; p] else []
     | None => []
     end.

Definition sentinel : string := "HTTP server listening".

(** [x == 'HTTP server listening'] for a value [x] that came out of
    [JSON.parse].  A string compares by content.  A number or a boolean is
    compared with the number the literal converts to, which is NaN.  An
    object converts to "[object Object]".  An array converts to its items
    joined by commas: the literal has no comma, so only a one-item array
    can equal it, and only when that item is the string or, again, such an
    array. *)
Fixpoint loosely_equals_sentinel (x : JsValue) : bool :=
  match x with
  | JString s => (s =? sentinel)%string
  | JArray [item] => loosely_equals_sentinel item
  | _ => false
  end.

(** [message.message == 'HTTP server listening'], [undefined] included. *)
Definition message_is_sentinel (m : option JsValue) : bool :=
  match m with
  | Some x => loosely_equals_sentinel x
  | None => false
  end.

Definition mark_unsubscribed (c : ChildProcess) : ChildProcess :=
  {| spawnargs := spawnargs c; for_id := for_id c; for_options := for_options c;
     settles := settles c; readiness_handler := false;
     kill_signals := kill_signals c; exited := exited c |}.

Definition mark_exited (c : ChildProcess) : ChildProcess :=
  {| spawnargs := spawnargs c; for_id := for_id c; for_options := for_options c;
     settles := settles c; readiness_handler := readiness_handler c;
     kill_signals := kill_signals c; exited := true |}.

Definition mark_signalled (signal : string) (c : ChildProcess) : ChildProcess :=
  {| spawnargs := spawnargs c; for_id := for_id c; for_options := for_options c;
     settles := settles c; readiness_handler := readiness_handler c;
     kill_signals := kill_signals c ++ [signal]; exited := exited c |}.

(** The three statements under [if (message.message == ...)], run for the
    child process [h]: unsubscribe [handler], retain the options, resolve. *)
Definition on_ready (h : nat) (w : World) : World :=
  match children w !! h with
  | Some c =>
      with_promises (settle (settles c) Fulfilled)
        (with_launchOptions (fun m => <[for_id c := for_options c]> m)
           (with_children (fun cs => <[h := mark_unsubscribed c]> cs) w))
  | None => w
  end.

(** The callback of [message.forEach] in [handler]. *)
Definition handle_line (h : nat) (w : World) (line : string) : World :=
  if (String.length line =? 0)%nat then w
  else
    try_or
      (message <- JSON_parse line ;;;
       m <- get_property "message" message ;;;
       Normal (if message_is_sentinel m then on_ready h w else w))
      w.

(** [handler(data)] *)
Definition handler (h : nat) (data : string) (w : World) : World :=
  fold_left (handle_line h) (split_lines data) w.

(** A 'data' event on the stdout of child [h].  The second listener, the
    one [handleProcess] registers, only writes to the console. *)
Definition on_stdout_data (h : nat) (data : string) (w : World) : World :=
  match children w !! h with
  | Some c => if readiness_handler c then handler h data w else w
  | None => w
  end.

(** [process.kill(signal)]: true when the signal was delivered, false when
    the process is gone. *)
Definition kill (h : nat) (signal : string) (w : World) : bool * World :=
  match children w !! h with
  | Some c =>
      if exited c then (false, w)
      else (true, with_children (fun cs => <[h := mark_signalled signal c]> cs) w)
  | None => (false, w)
  end.

(** The error argument [execFile] passes to its callback when the process
    has ended: [null] exactly for exit code 0 without a signal. *)
Definition execFile_error (code : option Z) (signal : option string) : option LaunchError :=
  match code, signal with
  | Some 0, None => None
  | _, _ => Some (ProcessExit code signal)
  end.

(** The callback given to [execFile] in [launchServer]. *)
Definition execFile_callback (h : nat) (err : option LaunchError) (w : World) : World :=
  match err, children w !! h with
  | Some e, Some c => with_promises (settle (settles c) (Rejected e)) w
  | _, _ => w
  end.

Section WithHost.
Variable host : Hardware.Host.

Definition launchServer (w : World) (options : LaunchOptions) : World * nat :=
  let id := id options in
  match loading w !! id with
  | Some p => async_return w p
  | None =>
      match Hardware.getProfile host (hardwareProfile w) with
      | Throw e => async_throw w e
      | Normal (hwProfile, cache) =>
          let args := launch_args options (Hardware.recommended hwProfile) in
          let promise := length (promises w) in
          let process := length (children w) in
          let child :=
            {| spawnargs := args; for_id := id; for_options := options;
               settles := promise; readiness_handler := true;
               kill_signals := []; exited := false |} in
          async_return
            {| launchOptions := launchOptions w;
               processes := <[id := process]> (processes w);
               loading := <[id := promise]> (loading w);
               children := children w ++ [child];
               promises := promises w ++ [Settles Pending];
               hardwareProfile := cache |}
            promise
      end
  end.

(** The 'close' listener registered by [handleProcess]. *)
Definition close_listener (h : nat) (code : option Z) (signal : option string)
    (w : World) : World :=
  match children w !! h with
  | Some c =>
      let id := for_id c in
      let w1 := with_loading (delete id) (with_processes (delete id) w) in
      if decide (signal = Some "SIGSEGV") then
        match launchOptions w1 !! id with
        | Some options => fst (launchServer w1 options)
        | None => w1
        end
      else w1
  | None => w
  end.

(** The child [h] has ended and emits 'close': [execFile]'s own listener
    runs the callback first, then the listener of [handleProcess]. *)
Definition on_close (h : nat) (code : option Z) (signal : option string)
    (w : World) : World :=
  close_listener h code signal
    (execFile_callback h (execFile_error code signal)
       (with_children (fun cs => match cs !! h with
                                 | Some c => <[h := mark_exited c]> cs
                                 | None => cs
                                 end) w)).

Definition cleanupProcess (w : World) (id : string) : World :=
  match processes w !! id with
  | Some process =>
      let '(killed, w1) := kill process "SIGTERM" w in
      let w2 := if killed then w1 else snd (kill process "SIGKILL" w1) in
      with_loading (delete id) (with_processes (delete id) w2)
  | None => w
  end.

Definition close (w : World) : World :=
  let w1 := foldr (fun entry acc => snd (kill (snd entry) "SIGTERM" acc)) w
                  (map_to_list (processes w)) in
  with_loading (fun _ => ∅) (with_processes (fun _ => ∅) w1).

(** What the event loop delivers to the manager. *)
Inductive Event :=
| StdoutData (h : nat) (data : string)
| Close (h : nat) (code : option Z) (signal : option string).

Definition step (w : World) (ev : Event) : World :=
  match ev with
  | StdoutData h data => on_stdout_data h data w
  | Close h code signal => on_close h code signal w
  end.

Definition run (w : World) (evs : list Event) : World := fold_left step evs w.

End WithHost.

(** ** The query surface: the requests handed to [fetch] *)

Record Request := {
  url : string;
  method : string;
  headers : list (string * string);
  body : option JsValue
}.

Definition getModelParameters_request (w : World) : Request :=
  {| url := "http://127.0.0.1:8080/model.json"; method := "GET";
     headers := []; body := None |}.

(** [{ contextSize: data.n_ctx, modelPath: data.model }] *)
Definition getModelParameters_result (data : JsValue)
  : Completion (option JsValue * option JsValue) :=
  n_ctx <- get_property "n_ctx" data ;;;
  model <- get_property "model" data ;;;
  Normal (n_ctx, model).

Definition encode_request (w : World) (content : string) : Request :=
  {| url := "http://127.0.0.1:8080/tokenize"; method := "POST";
     headers := [("Content-Type", "application/json")];
     body := Some (JObject [("content", JString content)]) |}.

(** [data.tokens] *)
Definition encode_result (data : JsValue) : Completion (option JsValue) :=
  get_property "tokens" data.

End LlamaServer.

(* ===================================================================== *)
(** * Vocabulary of the statements                                         *)
(* ===================================================================== *)

(** Total memories, in GB, below this bound are those for which the
    binary64 product [totalMemoryGB * 0.6] is shown to floor exactly.  The
    byte count of [os.totalmem()] is a 64-bit unsigned integer, so every
    profile the profiler builds is far below it. *)
Definition memory_bound : Z := 2 ^ 50.

(** The mantissa of the double [0.6], as an integer. *)
Definition mant_0_6 : Z := 5404319552844595.

(** [shr_k k m r s]: what [k] one-bit right shifts make of the mantissa [m]
    with round bit [r] and sticky bit [s]. *)
Definition shr_k (k : Z) (m : Z) (r s : bool) : shr_record :=
  {| shr_m := m / 2 ^ k;
     shr_r := Z.testbit m (k - 1);
     shr_s := r || s || negb (m mod 2 ^ (k - 1) =? 0) |}.

(** The value the planner's chain of memory thresholds selects. *)
Definition tier_value (mem v128 v96 v64 v32 v16 v0 : Z) : Z :=
  if mem >=? 128 then v128
  else if mem >=? 96 then v96
  else if mem >=? 64 then v64
  else if mem >=? 32 then v32
  else if mem >=? 16 then v16
  else v0.

(** The variant is one of the two top ones. *)
Definition top_variant (variant : string) : Prop := variant = "Max" \/ variant = "Ultra".

Module Readiness.
Import JsString Json LlamaServer.

(** A piece of a chunk that [handler] takes for the readiness record: not
    empty, parses, and its [message] loosely equals the sentinel. *)
Definition line_is_sentinel (line : string) : bool :=
  negb (String.length line =? 0)%nat
  && try_or
       (message <- JSON_parse line ;;;
        m <- get_property "message" message ;;;
        Normal (message_is_sentinel m))
       false.

(** Some piece of this one chunk is the readiness record. *)
Definition chunk_announces_ready (data : string) : bool :=
  existsb line_is_sentinel (split_lines data).

(** The stdout events of child [h] carrying the given chunks, in order. *)
Definition stdout_events (h : nat) (chunks : list string) : list Event :=
  map (StdoutData h) chunks.

(** Following the specification's words: the complete, newline-terminated
    lines of the whole stream, whatever the chunking. *)
Definition spec_complete_lines (chunks : list string) : list string :=
  removelast (split_lines (fold_right String.append EmptyString chunks)).

(** Following the specification's words: a complete line that is the
    readiness record has arrived. *)
Definition spec_sentinel_arrived (chunks : list string) : bool :=
  existsb line_is_sentinel (spec_complete_lines chunks).

End Readiness.

(** The probe threw. *)
Definition throws (c : Completion string) : Prop := exists e, c = Throw e.

(** Options are filed under their own id, in the map of retained options
    and in what the closures of each child process have captured. *)
Definition consistent (w : LlamaServer.World) : Prop :=
  map_Forall (fun i o => LlamaServer.id o = i) (LlamaServer.launchOptions w) /\
  Forall (fun c => LlamaServer.id (LlamaServer.for_options c) = LlamaServer.for_id c)
         (LlamaServer.children w).

(** The same options with another port. *)
Definition with_port (p : option string) (o : LlamaServer.LaunchOptions)
  : LlamaServer.LaunchOptions :=
  {| LlamaServer.id := LlamaServer.id o;
     LlamaServer.modelPath := LlamaServer.modelPath o;
     LlamaServer.multimodal := LlamaServer.multimodal o;
     LlamaServer.mmprojPath := LlamaServer.mmprojPath o;
     LlamaServer.port := p;
     LlamaServer.contextSize := LlamaServer.contextSize o;
     LlamaServer.gpuLayers := LlamaServer.gpuLayers o;
     LlamaServer.threads := LlamaServer.threads o;
     LlamaServer.batchSize := LlamaServer.batchSize o |}.

(** The worlds the manager can be in: it starts empty, and then its public
    methods are called and the event loop delivers process events. *)
Inductive reachable (host : Hardware.Host) : LlamaServer.World -> Prop :=
| reachable_init : reachable host LlamaServer.init
| reachable_launch w options :
    reachable host w -> reachable host (fst (LlamaServer.launchServer host w options))
| reachable_event w ev :
    reachable host w -> reachable host (LlamaServer.step host w ev)
| reachable_cleanup w id :
    reachable host w -> reachable host (LlamaServer.cleanupProcess w id)
| reachable_close w :
    reachable host w -> reachable host (LlamaServer.close w).

(** ** Hosts, options and output used in the worked examples *)

Module Examples.
Import LlamaServer.

Definition quote : string := String "034"%char EmptyString.
Definition newline : string := String "010"%char EmptyString.

(** The line [{"message":"HTTP server listening"}]. *)
Definition sentinel_line : string :=
  "{" +:+ quote +:+ "message" +:+ quote +:+ ":"
      +:+ quote +:+ "HTTP server listening" +:+ quote +:+ "}".

(** The same line cut in two after [HTTP server]. *)
Definition sentinel_head : string :=
  "{" +:+ quote +:+ "message" +:+ quote +:+ ":" +:+ quote +:+ "HTTP server".
Definition sentinel_tail : string :=
  " listening" +:+ quote +:+ "}" +:+ newline.

(** An eight-core Linux machine with 32 GB; no [sysctl]. *)
Definition linux_host : Hardware.Host :=
  {| Hardware.platform := "linux"; Hardware.arch := "x64";
     Hardware.cpus := repeat {| Hardware.model := "Xeon" |} 8;
     Hardware.totalmem := 34359738368; Hardware.freemem := 17179869184;
     Hardware.execSync := fun _ => Throw "ENOENT" |}.

(** An Apple Silicon machine on which every [sysctl] query fails. *)
Definition mac_without_sysctl : Hardware.Host :=
  {| Hardware.platform := "darwin"; Hardware.arch := "arm64";
     Hardware.cpus := repeat {| Hardware.model := "Apple M4 Max" |} 16;
     Hardware.totalmem := 137438953472; Hardware.freemem := 68719476736;
     Hardware.execSync := fun _ => Throw "ENOENT" |}.

Definition session_options : LaunchOptions :=
  {| id := "chat"; modelPath := "/models/llama.gguf"; multimodal := None;
     mmprojPath := None; port := Some "9090"; contextSize := None;
     gpuLayers := None; threads := None; batchSize := None |}.

(** The world after [launchServer(session_options)] on the Linux host, and
    the promise the caller holds: child 0, executor promise 0. *)
Definition launched : World * nat := launchServer linux_host init session_options.

(** ... and after the engine has printed the readiness record. *)
Definition ready : World :=
  run linux_host (fst launched) [StdoutData 0 (sentinel_line +:+ newline)].

End Examples.

(** ** A session of use, and the elementary changes it is made of *)

(** A call of a public method of the manager, or an event the event loop
    delivers to it.  Where the operation may end in [launchServer], the
    action carries the machine as the probes would find it at that
    moment. *)
Inductive Action :=
| Launch (host : Hardware.Host) (options : LlamaServer.LaunchOptions)
| Deliver (host : Hardware.Host) (ev : LlamaServer.Event)
| Cleanup (id : string)
| CloseAll.

Definition perform (w : LlamaServer.World) (a : Action) : LlamaServer.World :=
  match a with
  | Launch host options => fst (LlamaServer.launchServer host w options)
  | Deliver host ev => LlamaServer.step host w ev
  | Cleanup id => LlamaServer.cleanupProcess w id
  | CloseAll => LlamaServer.close w
  end.

Definition perform_all (w : LlamaServer.World) (l : list Action) : LlamaServer.World :=
  fold_left perform l w.

(** Two [ChildProcess] records of the same process: what the closures
    captured is the same, and a handler once unsubscribed stays so. *)
Definition same_process (c c' : LlamaServer.ChildProcess) : Prop :=
  LlamaServer.spawnargs c' = LlamaServer.spawnargs c /\
  LlamaServer.for_id c' = LlamaServer.for_id c /\
  LlamaServer.for_options c' = LlamaServer.for_options c /\
  LlamaServer.settles c' = LlamaServer.settles c /\
  (LlamaServer.readiness_handler c = false -> LlamaServer.readiness_handler c' = false).

(** The elementary changes every operation of the manager is composed of:
    an [async] call hands out a follower of an in-flight promise; a
    process is started for an id without in-flight record, configured
    from the cached hardware profile (or from a first detection); a
    promise is settled; a child record is updated in place; the options of
    an unsubscribed child are retained; an id is dropped from both maps;
    both maps are cleared. *)
Inductive mutation : LlamaServer.World -> LlamaServer.World -> Prop :=
| mut_follow w i p :
    LlamaServer.loading w !! i = Some p ->
    mutation w (fst (LlamaServer.async_return w p))
| mut_spawn w o hw :
    LlamaServer.loading w !! LlamaServer.id o = None ->
    (forall hw0, LlamaServer.hardwareProfile w = Some hw0 -> hw = hw0) ->
    mutation w
      {| LlamaServer.launchOptions := LlamaServer.launchOptions w;
         LlamaServer.processes :=
           <[LlamaServer.id o := length (LlamaServer.children w)]> (LlamaServer.processes w);
         LlamaServer.loading :=
           <[LlamaServer.id o := length (LlamaServer.promises w)]> (LlamaServer.loading w);
         LlamaServer.children := LlamaServer.children w ++
           [{| LlamaServer.spawnargs :=
                 LlamaServer.launch_args o (Hardware.recommended hw);
               LlamaServer.for_id := LlamaServer.id o;
               LlamaServer.for_options := o;
               LlamaServer.settles := length (LlamaServer.promises w);
               LlamaServer.readiness_handler := true;
               LlamaServer.kill_signals := [];
               LlamaServer.exited := false |}];
         LlamaServer.promises :=
           LlamaServer.promises w ++ [LlamaServer.Settles LlamaServer.Pending];
         LlamaServer.hardwareProfile := Some hw |}
| mut_settle w p s :
    mutation w (LlamaServer.with_promises (LlamaServer.settle p s) w)
| mut_mark w h c c' :
    LlamaServer.children w !! h = Some c -> same_process c c' ->
    mutation w (LlamaServer.with_children (fun cs => <[h := c']> cs) w)
| mut_retain w h c :
    LlamaServer.children w !! h = Some c -> LlamaServer.readiness_handler c = false ->
    mutation w
      (LlamaServer.with_launchOptions
         (fun m => <[LlamaServer.for_id c := LlamaServer.for_options c]> m) w)
| mut_forget w i :
    mutation w
      (LlamaServer.with_loading (delete i) (LlamaServer.with_processes (delete i) w))
| mut_clear w :
    mutation w
      (LlamaServer.with_loading (fun _ => ∅) (LlamaServer.with_processes (fun _ => ∅) w)).

(** A chain of elementary changes. *)
Inductive evolves : LlamaServer.World -> LlamaServer.World -> Prop :=
| evolves_refl w : evolves w w
| evolves_step w1 w2 w3 : evolves w1 w2 -> mutation w2 w3 -> evolves w1 w3.

(** The bookkeeping invariant of the manager: every handle and promise it
    holds refers to an object that exists; a process is registered exactly
    for the ids with an in-flight record, and that record is the promise
    the registered process settles; each child settles a promise of its
    own; options are retained only for a child that announced readiness;
    and every child was configured from the cached hardware profile. *)
Record well_formed (w : LlamaServer.World) : Prop := {
  wf_process : forall i h, LlamaServer.processes w !! i = Some h ->
    exists c, LlamaServer.children w !! h = Some c /\ LlamaServer.for_id c = i /\
              LlamaServer.loading w !! i = Some (LlamaServer.settles c);
  wf_loading : forall i p, LlamaServer.loading w !! i = Some p ->
    exists s, LlamaServer.promises w !! p = Some (LlamaServer.Settles s);
  wf_follows : forall q p, LlamaServer.promises w !! q = Some (LlamaServer.Follows p) ->
    exists s, LlamaServer.promises w !! p = Some (LlamaServer.Settles s);
  wf_child : forall h c, LlamaServer.children w !! h = Some c ->
    exists s, LlamaServer.promises w !! LlamaServer.settles c = Some (LlamaServer.Settles s);
  wf_domains : forall i,
    LlamaServer.processes w !! i = None <-> LlamaServer.loading w !! i = None;
  wf_distinct : forall h1 h2 c1 c2,
    LlamaServer.children w !! h1 = Some c1 -> LlamaServer.children w !! h2 = Some c2 ->
    LlamaServer.settles c1 = LlamaServer.settles c2 -> h1 = h2;
  wf_retained : forall i o, LlamaServer.launchOptions w !! i = Some o ->
    exists h c, LlamaServer.children w !! h = Some c /\ LlamaServer.for_id c = i /\
                LlamaServer.for_options c = o /\ LlamaServer.readiness_handler c = false;
  wf_profile : forall h c, LlamaServer.children w !! h = Some c ->
    exists hw, LlamaServer.hardwareProfile w = Some hw /\
               LlamaServer.spawnargs c
               = LlamaServer.launch_args (LlamaServer.for_options c) (Hardware.recommended hw)
}.

(** The child process an event comes from. *)
Definition event_process (ev : LlamaServer.Event) : nat :=
  match ev with
  | LlamaServer.StdoutData h _ => h
  | LlamaServer.Close h _ _ => h
  end.

(** What [kill('SIGTERM')] leaves of a child record: the signal is
    delivered unless the process has exited. *)
Definition terminated (c : LlamaServer.ChildProcess) : LlamaServer.ChildProcess :=
  if LlamaServer.exited c then c else LlamaServer.mark_signalled "SIGTERM" c.

(** The process registered under [id] ends with a segmentation fault: its
    'close' event, with no exit code and the signal SIGSEGV. *)
Definition crash (host : Hardware.Host) (id : string) (w : LlamaServer.World)
  : LlamaServer.World :=
  match LlamaServer.processes w !! id with
  | Some h => LlamaServer.on_close host h None (Some "SIGSEGV") w
  | None => w
  end.

(** A stdout chunk that ends at a line boundary. *)
Definition line_aligned (chunk : string) : Prop :=
  exists body, chunk = body +:+ Examples.newline.

(** ** Probe output *)

(** Every character of [s] satisfies [p]. *)
Fixpoint all_chars (p : ascii -> bool) (s : string) : bool :=
  match s with
  | String c s' => p c && all_chars p s'
  | EmptyString => true
  end.

(** What [sysctl -n machdep.cpu.brand_string] prints, without the final
    line feed, on a chip of the given generation and variant: for example
    [brand_string 4 (Some "Max")] is "Apple M4 Max". *)
Definition brand_string (generation : positive) (variant : option string) : string :=
  "Apple M" +:+ JsString.Number_toString (Zpos generation)
            +:+ match variant with
                | Some v => " " +:+ v
                | None => ""
                end.

(** ** The helpers at the head of llama-server.ts *)

Module Defaults.

(** The state of the [hardwareManager] singleton: its cached profile. *)
Definition Cache : Type := option Hardware.HardwareProfile.

(** [getOptimalContextSize()] and its three siblings: each asks
    [hardwareManager.getProfile()], which may run the detection and fill
    the cache, and reads one recommended value. *)
Definition getOptimalContextSize (host : Hardware.Host) (cache : Cache)
  : Completion (Z * Cache) :=
  r <- Hardware.getProfile host cache ;;;
  Normal (Hardware.contextSize (Hardware.recommended (fst r)), snd r).

Definition getOptimalGpuLayers (host : Hardware.Host) (cache : Cache)
  : Completion (Z * Cache) :=
  r <- Hardware.getProfile host cache ;;;
  Normal (Hardware.gpuLayers (Hardware.recommended (fst r)), snd r).

Definition getOptimalThreads (host : Hardware.Host) (cache : Cache)
  : Completion (Z * Cache) :=
  r <- Hardware.getProfile host cache ;;;
  Normal (Hardware.cpuThreads (Hardware.recommended (fst r)), snd r).

Definition getOptimalBatchSize (host : Hardware.Host) (cache : Cache)
  : Completion (Z * Cache) :=
  r <- Hardware.getProfile host cache ;;;
  Normal (Hardware.batchSize (Hardware.recommended (fst r)), snd r).

(** [x ?? f()]: [f] is called only when [x] is [undefined]. *)
Definition nullish (x : option Z) (f : Cache -> Completion (Z * Cache)) (cache : Cache)
  : Completion (Z * Cache) :=
  match x with
  | Some v => Normal (v, cache)
  | None => f cache
  end.

(** The four effective values of [launchServer] and the profile it logs. *)
Record Effective := {
  effectiveContextSize : Z;
  effectiveGpuLayers : Z;
  effectiveThreads : Z;
  effectiveBatchSize : Z;
  hwProfile : Hardware.HardwareProfile
}.

(** The five statements of [launchServer] that compute them, in order.
    The machine is probed at most once by each; [h1] to [h5] are the
    machine as each statement would find it. *)
Definition effective_settings (h1 h2 h3 h4 h5 : Hardware.Host)
    (options : LlamaServer.LaunchOptions) (cache : Cache)
  : Completion (Effective * Cache) :=
  c <- nullish (LlamaServer.contextSize options) (getOptimalContextSize h1) cache ;;;
  g <- nullish (LlamaServer.gpuLayers options) (getOptimalGpuLayers h2) (snd c) ;;;
  t <- nullish (LlamaServer.threads options) (getOptimalThreads h3) (snd g) ;;;
  b <- nullish (LlamaServer.batchSize options) (getOptimalBatchSize h4) (snd t) ;;;
  p <- Hardware.getProfile h5 (snd b) ;;;
  Normal ({| effectiveContextSize := fst c;
             effectiveGpuLayers := fst g;
             effectiveThreads := fst t;
             effectiveBatchSize := fst b;
             hwProfile := fst p |}, snd p).

End Defaults.

(** ** hardware.ts: what [HardwareManager] answers about a model *)

Module HardwareManager.
Import Hardware.

(** [x / y] on doubles, round to nearest even. *)
Definition div (x y : spec_float) : spec_float :=
  SFdiv JsNumber.prec JsNumber.emax x y.

(** [x <= y] on doubles; false when a side is NaN. *)
Definition leb (x y : spec_float) : bool := SFleb x y.

(** [canRunModel(modelSizeBytes)].  The size is a double; the limit
    [maxModelSizeGB] is the integer-valued double [Math.floor] returned. *)
Definition canRunModel (h : Host) (cache : option HardwareProfile)
    (modelSizeBytes : spec_float) : Completion (bool * option HardwareProfile) :=
  r <- getProfile h cache ;;;
  let profile := fst r in
  let modelSizeGB := div modelSizeBytes (JsNumber.of_Z (1024 ^ 3)) in
  Normal (leb modelSizeGB (JsNumber.of_Z (maxModelSizeGB (recommended profile))),
          snd r).

(** The literals [1], [0.625] and [0.5]. *)
Definition lit_1 : spec_float := S754_finite false (2 ^ 52) (-52).
Definition lit_0_625 : spec_float := S754_finite false (5 * 2 ^ 50) (-53).
Definition lit_0_5 : spec_float := S754_finite false (2 ^ 52) (-53).

(** [getRecommendedQuantization(modelParametersB)] *)
Definition getRecommendedQuantization (h : Host) (cache : option HardwareProfile)
    (modelParametersB : spec_float) : Completion (string * option HardwareProfile) :=
  r <- getProfile h cache ;;;
  let profile := fst r in
  let availableGB := JsNumber.of_Z (maxModelSizeGB (recommended profile)) in
  let q8Size := JsNumber.mul modelParametersB lit_1 in
  let q5Size := JsNumber.mul modelParametersB lit_0_625 in
  let q4Size := JsNumber.mul modelParametersB lit_0_5 in
  Normal (if leb q8Size availableGB then "Q8_0"
          else if leb q5Size availableGB then "Q5_K_M"
          else if leb q4Size availableGB then "Q4_K_M"
          else "Q4_K_S",
          snd r).

End HardwareManager.

(** ** The handler of 'system:getHardwareInfo' *)

Module Ipc.
Import Hardware.

(** The object the handler returns. *)
Record HardwareInfo := {
  info_totalMemoryGB : Z;
  info_availableMemoryGB : Z;
  info_cpuModel : string;
  info_cpuCores : Z;
  info_isAppleSilicon : bool;
  info_generation : string;
  info_variant : string;
  info_gpuCores : Z
}.

Definition getHardwareInfo (h : Host) (cache : option HardwareProfile)
  : Completion (HardwareInfo * option HardwareProfile) :=
  r <- getProfile h cache ;;;
  let profile := fst r in
  Normal ({| info_totalMemoryGB := totalMemoryGB profile;
             info_availableMemoryGB := availableMemoryGB profile;
             info_cpuModel := cpuModel profile;
             info_cpuCores := cpuCores profile;
             info_isAppleSilicon := isAppleSilicon profile;
             info_generation := generation profile;
             info_variant := variant profile;
             info_gpuCores := gpuCores profile |},
          snd r).

End Ipc.

(** ** More hosts and sessions for the worked examples *)

Module Scenarios.
Import LlamaServer Examples.

(** A second session, with every default overridden. *)
Definition embedding_options : LaunchOptions :=
  {| id := "embed"; modelPath := "/models/nomic.gguf"; multimodal := Some true;
     mmprojPath := Some "/models/proj.gguf"; port := None; contextSize := Some 2048;
     gpuLayers := Some 0; threads := Some 2; batchSize := Some 256 |}.

(** The chat session launched, then the embedding session: children 0
    and 1. *)
Definition two_sessions : World :=
  fst (launchServer linux_host (fst launched) embedding_options).

(** An M4 Max with 12 performance and 4 efficiency cores and 64 GB. *)
Definition mac_studio : Hardware.Host :=
  {| Hardware.platform := "darwin"; Hardware.arch := "arm64";
     Hardware.cpus := repeat {| Hardware.model := "Apple M4 Max" |} 16;
     Hardware.totalmem := 68719476736; Hardware.freemem := 34359738368;
     Hardware.execSync := fun command =>
       if (command =? "sysctl -n machdep.cpu.brand_string")%string
       then Normal ("Apple M4 Max" +:+ newline)
       else if (command =? "sysctl -n hw.perflevel0.physicalcpu")%string
       then Normal ("12" +:+ newline)
       else if (command =? "sysctl -n hw.perflevel1.physicalcpu")%string
       then Normal ("4" +:+ newline)
       else Throw "ENOENT" |}.

End Scenarios.

(** Membership in a list that is written out. *)
Ltac in_list := repeat first [apply list_elem_of_here | apply list_elem_of_further].

(* ===================================================================== *)
(** * Properties of the configuration planner                              *)
(* ===================================================================== *)

Section Binary64.

(** The product [n * 0.6] is rounded to 53 bits before [Math.floor] sees it.
    The lemmas below follow [SpecFloat]'s multiplication through its shift
    and its rounding, and show that below [memory_bound] the rounding never
    moves the product across an integer in the wrong direction. *)

(** The number of binary digits of a positive number. *)
Lemma digits2_pos_spec (p : positive) :
  2 ^ (Zpos (digits2_pos p) - 1) <= Zpos p < 2 ^ Zpos (digits2_pos p).
Proof.
  induction p as [p IH | p IH |]; cbn [digits2_pos].
  - rewrite Pos2Z.inj_succ.
    replace (Z.succ (Zpos (digits2_pos p)) - 1) with (Z.succ (Zpos (digits2_pos p) - 1)) by lia.
    rewrite !Z.pow_succ_r by lia. lia.
  - rewrite Pos2Z.inj_succ.
    replace (Z.succ (Zpos (digits2_pos p)) - 1) with (Z.succ (Zpos (digits2_pos p) - 1)) by lia.
    rewrite !Z.pow_succ_r by lia. lia.
  - cbn. lia.
Qed.

Lemma digits2_pos_unique (p : positive) (d : Z) :
  2 ^ (d - 1) <= Zpos p < 2 ^ d -> Zpos (digits2_pos p) = d.
Proof.
  intros [Hl Hu]. pose proof (digits2_pos_spec p) as [Sl Su].
  assert (0 < d).
  { destruct (Z_lt_le_dec 0 d) as [? | Hd]; auto.
    assert (2 ^ d <= 1).
    { destruct (Z.eq_dec d 0) as [-> | ?]; [cbn; lia |].
      rewrite Z.pow_neg_r by lia. lia. }
    lia. }
  destruct (Z_lt_le_dec (Zpos (digits2_pos p)) d) as [L | L].
  - assert (2 ^ Zpos (digits2_pos p) <= 2 ^ (d - 1)) by (apply Z.pow_le_mono_r; lia). lia.
  - destruct (Z_lt_le_dec d (Zpos (digits2_pos p))) as [G | G]; [| lia].
    assert (2 ^ d <= 2 ^ (Zpos (digits2_pos p) - 1)) by (apply Z.pow_le_mono_r; lia). lia.
Qed.

(** One right shift: halve, remember the bit shifted out, accumulate the
    sticky bit. *)
Lemma shr_1_spec m r s :
  0 <= m ->
  shr_1 {| shr_m := m; shr_r := r; shr_s := s |} = shr_k 1 m r s.
Proof.
  intros Hm. unfold shr_k. cbn [Z.sub Z.pow Z.pow_pos Pos.iter Z.mul Pos.mul Z.opp Z.add Z.pos_sub].
  change (2 ^ 0) with 1. rewrite Z.mod_1_r. cbn [Z.eqb negb]. rewrite orb_false_r.
  rewrite <- Z.div2_div, Z.bit0_odd.
  destruct m as [| [p | p |] | p]; try lia; reflexivity.
Qed.

Lemma testbit_as_mod m i :
  0 <= m -> 1 <= i ->
  m mod 2 ^ i = m mod 2 ^ (i - 1) + 2 ^ (i - 1) * Z.b2z (Z.testbit m (i - 1)).
Proof.
  intros Hm Hi.
  replace (2 ^ i) with (2 ^ (i - 1) * 2).
  2:{ rewrite Z.mul_comm, <- (Z.pow_succ_r 2 (i - 1)) by lia. f_equal. lia. }
  rewrite Z.rem_mul_r by (try apply Z.pow_nonzero; lia).
  f_equal. f_equal.
  rewrite Z.testbit_odd, Z.shiftr_div_pow2 by lia.
  rewrite Zmod_odd. destruct (Z.odd _); reflexivity.
Qed.

Lemma sticky_compose m i j :
  0 <= m -> 1 <= i -> 1 <= j ->
  (m mod 2 ^ (i + j - 1) =? 0)
  = negb (Z.testbit m (i - 1)) && (m mod 2 ^ (i - 1) =? 0)
    && ((m / 2 ^ i) mod 2 ^ (j - 1) =? 0).
Proof.
  intros Hm Hi Hj.
  replace (2 ^ (i + j - 1)) with (2 ^ i * 2 ^ (j - 1))
    by (rewrite <- Z.pow_add_r by lia; f_equal; lia).
  assert (Pi : 0 < 2 ^ i) by (apply Z.pow_pos_nonneg; lia).
  assert (Pi1 : 0 < 2 ^ (i - 1)) by (apply Z.pow_pos_nonneg; lia).
  assert (Pj : 0 < 2 ^ (j - 1)) by (apply Z.pow_pos_nonneg; lia).
  rewrite Z.rem_mul_r by lia.
  rewrite (testbit_as_mod m i) by lia.
  pose proof (Z.mod_pos_bound m (2 ^ (i - 1)) Pi1) as A.
  pose proof (Z.mod_pos_bound (m / 2 ^ i) (2 ^ (j - 1)) Pj) as C.
  set (a := m mod 2 ^ (i - 1)) in *.
  set (c := (m / 2 ^ i) mod 2 ^ (j - 1)) in *.
  destruct (Z.testbit m (i - 1)); cbn [Z.b2z negb andb].
  - apply Z.eqb_neq. nia.
  - destruct (Z.eqb_spec a 0) as [-> | Ha]; cbn [andb].
    + destruct (Z.eqb_spec c 0) as [-> | Hc].
      * apply Z.eqb_eq. lia.
      * apply Z.eqb_neq. nia.
    + apply Z.eqb_neq. nia.
Qed.

Lemma shr_k_compose i j m r s :
  0 <= m -> 1 <= i -> 1 <= j ->
  shr_k j (m / 2 ^ i) (Z.testbit m (i - 1)) (r || s || negb (m mod 2 ^ (i - 1) =? 0))
  = shr_k (i + j) m r s.
Proof.
  intros Hm Hi Hj. unfold shr_k. f_equal.
  - rewrite Z.pow_add_r by lia. rewrite Z.div_div by (try apply Z.pow_pos_nonneg; lia).
    reflexivity.
  - rewrite Z.div_pow2_bits by lia. f_equal. lia.
  - rewrite (sticky_compose m i j) by lia.
    destruct (Z.testbit m (i - 1)), r, s,
      (m mod 2 ^ (i - 1) =? 0), ((m / 2 ^ i) mod 2 ^ (j - 1) =? 0); reflexivity.
Qed.

(** [p] right shifts in a row. *)
Lemma iter_shr_1 (p : positive) : forall m r s,
  0 <= m ->
  SpecFloat.iter_pos shr_1 p {| shr_m := m; shr_r := r; shr_s := s |} = shr_k (Zpos p) m r s.
Proof.
  assert (P : forall k m, 0 <= m -> 0 <= m / 2 ^ k).
  { intros k m Hm. destruct (Z_lt_le_dec k 0).
    - rewrite Z.pow_neg_r by lia. rewrite Z.div_0_r. lia.
    - apply Z.div_pos; [lia | apply Z.pow_pos_nonneg; lia]. }
  induction p as [p IH | p IH |]; intros m r s Hm; cbn [SpecFloat.iter_pos].
  - rewrite shr_1_spec by lia. unfold shr_k at 1.
    rewrite IH by auto. rewrite (shr_k_compose 1 (Zpos p)) by lia.
    unfold shr_k at 1. rewrite IH by auto.
    rewrite (shr_k_compose (1 + Zpos p) (Zpos p)) by lia.
    f_equal. lia.
  - rewrite IH by auto. unfold shr_k at 1. rewrite IH by auto.
    rewrite (shr_k_compose (Zpos p) (Zpos p)) by lia. f_equal. lia.
  - apply shr_1_spec; lia.
Qed.

Lemma fexp_eq e : fexp 53 1024 e = Z.max (e - 53) (-1074).
Proof. reflexivity. Qed.

(** Rounding a mantissa of [53 + sh] digits: the quotient by [2 ^ sh] or its
    successor, the successor whenever the remainder exceeds one half; the
    result is that integer scaled by the new exponent. *)
Lemma round_product (mx : positive) (ex : Z) (sh : positive) :
  Zpos (digits2_pos mx) = 53 + Zpos sh ->
  -1074 <= ex + Zpos sh -> ex + Zpos sh + 1 <= 971 ->
  exists m2 m e,
    binary_round_aux 53 1024 false (Zpos mx) ex loc_Exact = S754_finite false m e
    /\ (m2 = Zpos mx / 2 ^ Zpos sh \/ m2 = Zpos mx / 2 ^ Zpos sh + 1)
    /\ (2 ^ (Zpos sh - 1) < Zpos mx mod 2 ^ Zpos sh -> m2 = Zpos mx / 2 ^ Zpos sh + 1)
    /\ ex + Zpos sh <= e
    /\ Zpos m * 2 ^ (e - (ex + Zpos sh)) = m2.
Proof.
  intros Hd Hlo Hhi.
  pose proof (digits2_pos_spec mx) as [Dl Du]. rewrite Hd in Dl, Du.
  assert (P : 0 < 2 ^ Zpos sh) by (apply Z.pow_pos_nonneg; lia).
  set (m1 := Zpos mx / 2 ^ Zpos sh).
  assert (M1 : 2 ^ 52 <= m1 < 2 ^ 53).
  { subst m1. split.
    - apply Z.div_le_lower_bound; [lia |].
      rewrite <- Z.pow_add_r by lia. replace (Zpos sh + 52) with (53 + Zpos sh - 1) by lia. lia.
    - apply Z.div_lt_upper_bound; [lia |].
      rewrite <- Z.pow_add_r by lia. replace (Zpos sh + 53) with (53 + Zpos sh) by lia. lia. }
  assert (E1 : shr_fexp 53 1024 (Zpos mx) ex loc_Exact
               = (shr_k (Zpos sh) (Zpos mx) false false, ex + Zpos sh)).
  { unfold shr_fexp. change (Zdigits2 (Zpos mx)) with (Zpos (digits2_pos mx)).
    rewrite Hd, fexp_eq.
    replace (Z.max (53 + Zpos sh + ex - 53) (-1074) - ex) with (Zpos sh) by lia.
    cbn [shr shr_record_of_loc]. rewrite iter_shr_1 by lia. reflexivity. }
  unfold binary_round_aux. rewrite E1. clear E1.
  unfold shr_k. fold m1. cbn [orb shr_m].
  assert (Ph : 0 < 2 ^ (Zpos sh - 1)) by (apply Z.pow_pos_nonneg; lia).
  pose proof (Z.mod_pos_bound (Zpos mx) _ Ph) as B.
  pose proof (testbit_as_mod (Zpos mx) (Zpos sh) ltac:(lia) ltac:(lia)) as T.
  remember (Z.testbit (Zpos mx) (Zpos sh - 1)) as r eqn:Er.
  remember (negb (Zpos mx mod 2 ^ (Zpos sh - 1) =? 0)) as s eqn:Es.
  remember (round_nearest_even m1
              (loc_of_shr_record {| shr_m := m1; shr_r := r; shr_s := s |})) as m2 eqn:Em2.
  assert (R1 : m2 = m1 \/ m2 = m1 + 1).
  { subst m2. destruct r, s; cbn; auto. destruct (Z.even m1); auto. }
  assert (R2 : 2 ^ (Zpos sh - 1) < Zpos mx mod 2 ^ Zpos sh -> m2 = m1 + 1).
  { intros Hh. rewrite T in Hh.
    destruct r; cbn [Z.b2z] in Hh; [| lia].
    destruct (Z.eqb_spec (Zpos mx mod 2 ^ (Zpos sh - 1)) 0) as [E | E].
    - rewrite E in Hh. lia.
    - subst s m2. reflexivity. }
  clear Er Es Em2 T B.
  exists m2.
  assert (M2 : 2 ^ 52 <= m2 <= 2 ^ 53) by lia.
  destruct (Z_lt_le_dec m2 (2 ^ 53)) as [Lt | Ge].
  - destruct m2 as [| pm | pm] eqn:Em; try lia.
    exists pm, (ex + Zpos sh).
    unfold shr_fexp. cbn [Zdigits2 shr_record_of_loc].
    rewrite (digits2_pos_unique pm 53) by (change (53 - 1) with 52; lia).
    rewrite fexp_eq.
    replace (Z.max (53 + (ex + Zpos sh) - 53) (-1074) - (ex + Zpos sh)) with 0 by lia.
    cbn [shr shr_m].
    replace (ex + Zpos sh <=? 1024 - 53) with true by (symmetry; apply Z.leb_le; lia).
    split; [reflexivity |]. split; [exact R1 |]. split; [exact R2 |].
    split; [lia |]. rewrite Z.sub_diag. cbn. lia.
  - assert (E : m2 = 2 ^ 53) by lia.
    exists (2 ^ 52)%positive, (ex + Zpos sh + 1).
    rewrite E. unfold shr_fexp.
    change (Zdigits2 (2 ^ 53)) with 54. rewrite fexp_eq.
    replace (Z.max (54 + (ex + Zpos sh) - 53) (-1074) - (ex + Zpos sh)) with 1 by lia.
    cbn [shr shr_record_of_loc SpecFloat.iter_pos].
    change (shr_1 {| shr_m := 2 ^ 53; shr_r := false; shr_s := false |})
      with {| shr_m := 2 ^ 52; shr_r := false; shr_s := false |}.
    cbn [shr_m]. change (2 ^ 52) with (Zpos (2 ^ 52)).
    replace (ex + Zpos sh + 1 <=? 1024 - 53) with true by (symmetry; apply Z.leb_le; lia).
    split; [reflexivity |]. rewrite <- E. split; [exact R1 |]. split; [exact R2 |].
    split; [lia |]. replace (ex + Zpos sh + 1 - (ex + Zpos sh)) with 1 by lia.
    rewrite E. reflexivity.
Qed.

(** The arithmetic core.  With [a] the 53-bit mantissa of [n], [S] the
    amount shifted out and [Q] the number of representable steps per unit
    ([S * Q * n = 2 ^ 53 * a]), the rounded mantissa [m2] of [a * mant_0_6]
    has integer part [3 n / 5].  Since [5 * mant_0_6 = 3 * 2 ^ 53 - 1], the
    exact product is [3 n / 5] minus a tiny amount: when 5 divides [n] the
    rounding brings it back up to the integer, otherwise it stays at least
    one fifth away from the next integer while a step is at most one
    eighth. *)
Lemma core_arith (n a Q S Hf m2 : Z) :
  0 < n -> n <= a -> a < 2 ^ 53 -> 5 <= Q -> 2 ^ 51 <= Hf -> S = 2 * Hf ->
  S * Q * n = 2 ^ 53 * a ->
  (m2 = a * mant_0_6 / S \/ m2 = a * mant_0_6 / S + 1) ->
  (Hf < (a * mant_0_6) mod S -> m2 = a * mant_0_6 / S + 1) ->
  m2 / Q = 3 * n / 5.
Proof.
  intros Hn Hna Ha HQ HHf HS HW R1 R2.
  assert (S0 : 0 < S) by lia.
  remember (3 * n / 5) as k eqn:Ek. remember ((3 * n) mod 5) as t eqn:Et.
  assert (Hk : 3 * n = 5 * k + t) by (subst k t; apply Z.div_mod; lia).
  assert (Ht : 0 <= t < 5) by (subst t; apply Z.mod_pos_bound; lia).
  clear Ek Et.
  assert (HM : 5 * mant_0_6 = 3 * 2 ^ 53 - 1) by reflexivity.
  remember (S * Q) as W eqn:EW.
  assert (HWa : 2 ^ 53 <= W).
  { apply (Z.mul_le_mono_pos_r _ _ n); [lia |]. rewrite HW.
    apply Z.mul_le_mono_nonneg_l; lia. }
  remember (a * mant_0_6) as mx eqn:Emx.
  assert (E : 5 * mx = 3 * n * W - a).
  { apply (Z.mul_cancel_r _ _ n); [lia |].
    replace (5 * mx * n) with (a * n * (5 * mant_0_6)) by (subst mx; ring).
    rewrite HM. replace ((3 * n * W - a) * n) with (3 * n * (W * n) - a * n) by ring.
    rewrite HW. ring. }
  rewrite Hk in E.
  assert (EkW : (5 * k + t) * W = 5 * (k * W) + t * W) by ring.
  rewrite EkW in E. clear EkW.
  assert (EkQS : k * W = k * Q * S) by (subst W; ring).
  remember (k * W) as kW. remember (k * Q) as kQ.
  pose proof (Z.div_mod mx S ltac:(lia)) as DM.
  pose proof (Z.mod_pos_bound mx S S0) as MB.
  remember (mx / S) as m1. remember (mx mod S) as rm.
  assert (DM' : mx = m1 * S + rm) by lia. clear DM.
  symmetry. apply Z.div_unique_pos with (r := m2 - kQ); [| subst kQ; lia].
  destruct (Z.eq_dec t 0) as [T0 | T0].
  - (* 5 divides n *)
    subst t. rewrite Z.mul_0_l, Z.add_0_r in E.
    assert (D5 : a = 5 * (a / 5)).
    { apply Z.div_exact; [lia |].
      replace a with ((kW - mx) * 5) by lia. apply Z.mod_mul. lia. }
    remember (a / 5) as dl.
    assert (Hd : 0 < dl < 2 ^ 51) by lia.
    assert (Hmx : mx = kW - dl) by lia.
    (* m1 * S + rm = kQ * S - dl, with 0 < dl < S *)
    assert (Hm1 : m1 = kQ - 1).
    { assert (A : (m1 - kQ + 1) * S = S - dl - rm) by (rewrite Z.mul_add_distr_r, Z.mul_sub_distr_r; lia).
      assert (B1 : - S < (m1 - kQ + 1) * S < S) by lia.
      assert (m1 - kQ + 1 < 1) by (apply (Z.mul_lt_mono_pos_r S); lia).
      assert (-1 < m1 - kQ + 1) by (apply (Z.mul_lt_mono_pos_r S); lia).
      lia. }
    assert (Hrm : rm = S - dl) by (subst m1; lia).
    rewrite R2 by lia. lia.
  - assert (TW : W <= t * W <= 4 * W).
    { split.
      - rewrite <- (Z.mul_1_l W) at 1. apply Z.mul_le_mono_nonneg_r; lia.
      - apply Z.mul_le_mono_nonneg_r; lia. }
    assert (L : kQ <= m1).
    { assert (A : kQ * S < (m1 + 1) * S) by (rewrite Z.mul_add_distr_r; lia).
      apply Z.mul_lt_mono_pos_r in A; lia. }
    assert (U : 5 * m1 < 5 * kQ + 4 * Q).
    { apply (Z.mul_lt_mono_pos_r S); [lia |].
      replace ((5 * kQ + 4 * Q) * S) with (5 * (kQ * S) + 4 * W) by (subst W; ring).
      replace (5 * m1 * S) with (5 * (m1 * S)) by ring. lia. }
    lia.
Qed.

Lemma iter_xO (d m : positive) : Zpos (Pos.iter xO m d) = Zpos m * 2 ^ Zpos d.
Proof.
  induction d as [| d IH] using Pos.peano_ind.
  - cbn. lia.
  - rewrite Pos.iter_succ, Pos2Z.inj_xO, IH, Pos2Z.inj_succ, Z.pow_succ_r by lia. ring.
Qed.

(** A 53-digit mantissa is left as it is. *)
Lemma round_exact (a : positive) (e : Z) :
  Zpos (digits2_pos a) = 53 -> -1074 <= e <= 971 ->
  binary_round_aux 53 1024 false (Zpos a) e loc_Exact = S754_finite false a e.
Proof.
  intros Hd He.
  assert (E : shr_fexp 53 1024 (Zpos a) e loc_Exact
              = ({| shr_m := Zpos a; shr_r := false; shr_s := false |}, e)).
  { unfold shr_fexp. change (Zdigits2 (Zpos a)) with (Zpos (digits2_pos a)).
    rewrite Hd, fexp_eq. replace (Z.max (53 + e - 53) (-1074) - e) with 0 by lia.
    reflexivity. }
  unfold binary_round_aux. rewrite E.
  cbn [shr_m loc_of_shr_record round_nearest_even]. rewrite E. cbn [shr_m].
  replace (e <=? 1024 - 53) with true by (symmetry; apply Z.leb_le; lia).
  reflexivity.
Qed.

(** The double of a positive integer below 2^53: its mantissa is the integer
    shifted left to 53 digits. *)
Lemma of_Z_pos (n : positive) :
  Zpos (digits2_pos n) <= 53 ->
  exists a,
    binary_normalize 53 1024 (Zpos n) 0 false
      = S754_finite false a (Zpos (digits2_pos n) - 53)
    /\ Zpos a = Zpos n * 2 ^ (53 - Zpos (digits2_pos n))
    /\ 2 ^ 52 <= Zpos a < 2 ^ 53.
Proof.
  intros Hd. pose proof (digits2_pos_spec n) as [Dl Du].
  set (dn := Zpos (digits2_pos n)) in *.
  assert (Hpow : 2 ^ (dn - 1) * 2 ^ (53 - dn) = 2 ^ 52 /\ 2 ^ dn * 2 ^ (53 - dn) = 2 ^ 53).
  { rewrite <- !Z.pow_add_r by lia.
    replace (dn - 1 + (53 - dn)) with 52 by lia.
    replace (dn + (53 - dn)) with 53 by lia. split; reflexivity. }
  assert (Pu : 0 < 2 ^ (53 - dn)) by (apply Z.pow_pos_nonneg; lia).
  assert (R : forall a : positive,
            Zpos a = Zpos n * 2 ^ (53 - dn) -> 2 ^ 52 <= Zpos a < 2 ^ 53).
  { intros a Ha. destruct Hpow as [H1 H2]. rewrite Ha, <- H1, <- H2. split.
    - apply Z.mul_le_mono_nonneg_r; lia.
    - apply Z.mul_lt_mono_pos_r; lia. }
  unfold binary_normalize, binary_round. rewrite Z.add_0_r. fold dn. rewrite fexp_eq.
  replace (Z.max (dn - 53) (-1074)) with (dn - 53) by lia.
  unfold shl_align. rewrite Z.sub_0_r.
  destruct (dn - 53) as [| q | q] eqn:Eq; try lia.
  - exists n.
    assert (Ha : Zpos n = Zpos n * 2 ^ (53 - dn))
      by (replace (53 - dn) with 0 by lia; cbn; lia).
    split; [| split; [exact Ha | exact (R n Ha)]].
    apply round_exact; [| lia].
    apply digits2_pos_unique. change (53 - 1) with 52. exact (R n Ha).
  - exists (Pos.iter xO n q).
    assert (Ha : Zpos (Pos.iter xO n q) = Zpos n * 2 ^ (53 - dn))
      by (rewrite iter_xO; f_equal; f_equal; lia).
    split; [| split; [exact Ha | exact (R _ Ha)]].
    apply round_exact; [| lia].
    apply digits2_pos_unique. change (53 - 1) with 52. exact (R _ Ha).
Qed.

(** [Math.floor] of [m * 2 ^ e], by way of a smaller exponent [e1]. *)
Lemma floor_scaled (m : positive) (e e1 : Z) :
  e1 <= e -> e1 < 0 ->
  (if 0 <=? e then Zpos m * 2 ^ e else Zpos m / 2 ^ (- e))
  = (Zpos m * 2 ^ (e - e1)) / 2 ^ (- e1).
Proof.
  intros H1 H2.
  assert (P1 : 0 < 2 ^ (- e1)) by (apply Z.pow_pos_nonneg; lia).
  destruct (Z.leb_spec 0 e) as [He | He].
  - replace (e - e1) with (e + - e1) by lia. rewrite Z.pow_add_r by lia.
    rewrite Z.mul_assoc, Z.div_mul by lia. reflexivity.
  - replace (- e1) with ((e - e1) + - e) by lia. rewrite Z.pow_add_r by lia.
    rewrite (Z.mul_comm (2 ^ (e - e1)) (2 ^ (- e))).
    rewrite Z.div_mul_cancel_r; try (apply Z.pow_nonzero; lia). reflexivity.
Qed.

(** For every total memory below [memory_bound], the double
    [Math.floor(totalMemoryGB * 0.6)] is the exact floor of six tenths. *)
Lemma floor_of_six_tenths (n : Z) :
  0 <= n < memory_bound ->
  JsNumber.Math_floor (JsNumber.mul (JsNumber.of_Z n) JsNumber.lit_0_6) = 6 * n / 10.
Proof.
  unfold memory_bound, JsNumber.mul, JsNumber.of_Z, JsNumber.lit_0_6,
    JsNumber.prec, JsNumber.emax.
  intros [Hn0 Hn].
  replace (6 * n / 10) with (3 * n / 5)
    by (replace (6 * n) with (2 * (3 * n)) by ring;
        change 10 with (2 * 5); rewrite Z.div_mul_cancel_l by lia; reflexivity).
  destruct n as [| p | p]; [reflexivity | | lia].
  pose proof (digits2_pos_spec p) as [Dl Du].
  set (dn := Zpos (digits2_pos p)) in *.
  assert (Hdn : 1 <= dn <= 50).
  { split; [subst dn; lia |].
    destruct (Z_lt_le_dec 50 dn) as [G | G]; [| exact G].
    assert (2 ^ 50 <= 2 ^ (dn - 1)) by (apply Z.pow_le_mono_r; lia). lia. }
  destruct (of_Z_pos p ltac:(fold dn; lia)) as (a & -> & Ha & Ra). fold dn in Ha |- *.
  cbn [SFmul xorb].
  set (u := 2 ^ (53 - dn)) in *.
  assert (Hu : 8 <= u).
  { subst u. change 8 with (2 ^ 3). apply Z.pow_le_mono_r; lia. }
  assert (Emx : Zpos (a * 5404319552844595) = Zpos a * mant_0_6)
    by (rewrite Pos2Z.inj_mul; reflexivity).
  assert (Rmx : 2 ^ 104 <= Zpos a * mant_0_6 < 2 ^ 106) by (unfold mant_0_6; lia).
  assert (Hsh : exists sh : positive,
            (Zpos sh = 52 \/ Zpos sh = 53)
            /\ Zpos (digits2_pos (a * 5404319552844595)) = 53 + Zpos sh).
  { destruct (Z_lt_le_dec (Zpos a * mant_0_6) (2 ^ 105)) as [L | G].
    - exists 52%positive. split; [left; reflexivity |].
      apply digits2_pos_unique. rewrite Emx.
      change (53 + 52 - 1) with 104. change (53 + 52) with 105. lia.
    - exists 53%positive. split; [right; reflexivity |].
      apply digits2_pos_unique. rewrite Emx.
      change (53 + 53 - 1) with 105. change (53 + 53) with 106. lia. }
  destruct Hsh as (sh & Hsh & Hd).
  destruct (round_product (a * 5404319552844595) (dn - 53 + -53) sh Hd
              ltac:(lia) ltac:(lia))
    as (m2 & m & e & -> & R1 & R2 & He & Hm).
  rewrite Emx in R1, R2.
  cbn [JsNumber.Math_floor].
  rewrite (floor_scaled m e (dn - 53 + -53 + Zpos sh)) by lia.
  rewrite Hm.
  apply (core_arith (Zpos p) (Zpos a) _ (2 ^ Zpos sh) (2 ^ (Zpos sh - 1))); try lia.
  - destruct Hsh as [-> | ->].
    + replace (- (dn - 53 + -53 + 52)) with (53 - dn + 1) by lia.
      rewrite Z.pow_add_r by lia. fold u. lia.
    + replace (- (dn - 53 + -53 + 53)) with (53 - dn) by lia. fold u. lia.
  - destruct Hsh as [-> | ->]; cbn; lia.
  - rewrite <- (Z.pow_succ_r 2 (Zpos sh - 1)) by lia. f_equal. lia.
  - rewrite Ha. fold u.
    destruct Hsh as [-> | ->].
    + replace (- (dn - 53 + -53 + 52)) with (53 - dn + 1) by lia.
      rewrite Z.pow_add_r by lia. fold u. change (2 ^ 53) with (2 ^ 52 * 2 ^ 1). ring.
    + replace (- (dn - 53 + -53 + 53)) with (53 - dn) by lia. fold u. ring.
Qed.

(** Far above the bound the rounding does cross an integer: for a total
    memory of 7600000000000003 GB the double product floors to one more
    than the exact six tenths. *)
Remark floor_of_six_tenths_needs_a_bound :
  JsNumber.Math_floor (JsNumber.mul (JsNumber.of_Z 7600000000000003) JsNumber.lit_0_6)
  = 6 * 7600000000000003 / 10 + 1.
Proof. vm_compute. reflexivity. Qed.

End Binary64.

Section Planner.
Import Hardware.

(** The profiler hands the planner a total memory below [memory_bound]:
    [os.totalmem()] is a byte count that fits 64 bits. *)
Lemma detected_memory_is_below_bound (h : Host) (p : HardwareProfile) :
  detectHardware h = Normal p ->
  0 <= totalmem h < 2 ^ 64 ->
  0 <= totalMemoryGB p < memory_bound /\
  recommended p = calculateOptimalSettings (totalMemoryGB p) (gpuCores p)
                    (performanceCores p) (generation p) (variant p).
Proof.
  unfold detectHardware. intros Hd Hb.
  destruct (getAppleSiliconInfo h) as [info | e]; [| discriminate Hd].
  destruct (getPerformanceAndEfficiencyCores h) as [cores | e]; [| discriminate Hd].
  cbn in Hd. injection Hd as <-. cbn [totalMemoryGB recommended gpuCores
    performanceCores generation variant].
  split; [| reflexivity].
  unfold JsNumber.round_GiB, memory_bound. split.
  - apply Z.div_pos; lia.
  - apply Z.div_lt_upper_bound; lia.
Qed.

(** C4. The planner's GPU-layer and context-window values are those of the
    memory-tier table, tier by tier (so 127 GB is in the 96 tier and 128 GB
    in the top one); the thread count is max(4, performance cores - 2); and
    the maximum model size is the floor of 0.6 times the total memory: for
    every total memory below [memory_bound] GB, hence in every profile the
    profiler builds. *)
Theorem planner_follows_the_memory_tiers
    (mem gpu perf : Z) (gen var : string) :
  let r := calculateOptimalSettings mem gpu perf gen var in
  (128 <= mem -> gpuLayers r = 99 /\ contextSize r = 131072) /\
  (96 <= mem < 128 -> gpuLayers r = 80 /\ contextSize r = 65536) /\
  (64 <= mem < 96 -> gpuLayers r = 60 /\ contextSize r = 32768) /\
  (32 <= mem < 64 -> gpuLayers r = 40 /\ contextSize r = 16384) /\
  (16 <= mem < 32 -> gpuLayers r = 20 /\ contextSize r = 8192) /\
  (mem < 16 -> gpuLayers r = 4 /\ contextSize r = 4096) /\
  cpuThreads r = Z.max 4 (perf - 2) /\
  (0 <= mem < memory_bound -> maxModelSizeGB r = 6 * mem / 10) /\
  (forall h p, detectHardware h = Normal p -> 0 <= totalmem h < 2 ^ 64 ->
     maxModelSizeGB (recommended p) = 6 * totalMemoryGB p / 10).
Proof.
  cbv zeta. unfold calculateOptimalSettings; cbn [gpuLayers contextSize cpuThreads maxModelSizeGB].
  assert (tier : forall v5 v4 v3 v2 v1 v0 : Z,
    (128 <= mem -> tier_value mem v5 v4 v3 v2 v1 v0 = v5) /\
    (96 <= mem < 128 -> tier_value mem v5 v4 v3 v2 v1 v0 = v4) /\
    (64 <= mem < 96 -> tier_value mem v5 v4 v3 v2 v1 v0 = v3) /\
    (32 <= mem < 64 -> tier_value mem v5 v4 v3 v2 v1 v0 = v2) /\
    (16 <= mem < 32 -> tier_value mem v5 v4 v3 v2 v1 v0 = v1) /\
    (mem < 16 -> tier_value mem v5 v4 v3 v2 v1 v0 = v0)).
  { intros. unfold tier_value.
    repeat match goal with
           | |- context [?a >=? ?b] =>
               let E := fresh in destruct (Z.geb_spec a b) as [E | E]
           end; repeat split; intros; lia. }
  pose proof (tier 99 80 60 40 20 4) as (G5 & G4 & G3 & G2 & G1 & G0).
  pose proof (tier 131072 65536 32768 16384 8192 4096) as (C5 & C4 & C3 & C2 & C1 & C0).
  unfold tier_value in *.
  split; [intros H; split; [exact (G5 H) | exact (C5 H)] |].
  split; [intros H; split; [exact (G4 H) | exact (C4 H)] |].
  split; [intros H; split; [exact (G3 H) | exact (C3 H)] |].
  split; [intros H; split; [exact (G2 H) | exact (C2 H)] |].
  split; [intros H; split; [exact (G1 H) | exact (C1 H)] |].
  split; [intros H; split; [exact (G0 H) | exact (C0 H)] |].
  split; [reflexivity |]. split; [apply floor_of_six_tenths |].
  intros h p Hd Hb.
  destruct (detected_memory_is_below_bound h p Hd Hb) as [Hr ->].
  cbn [maxModelSizeGB calculateOptimalSettings]. by apply floor_of_six_tenths.
Qed.

(** The theorem at 128 GB and at 127 GB on an M4 Max. *)
Lemma planner_follows_the_memory_tiers_witness :
  (gpuLayers (calculateOptimalSettings 128 40 12 "M4" "Max") = 99
   /\ contextSize (calculateOptimalSettings 128 40 12 "M4" "Max") = 131072)
  /\ (gpuLayers (calculateOptimalSettings 127 40 12 "M4" "Max") = 80
      /\ contextSize (calculateOptimalSettings 127 40 12 "M4" "Max") = 65536)
  /\ maxModelSizeGB (calculateOptimalSettings 128 40 12 "M4" "Max") = 76.
Proof.
  split; [| split].
  - apply (planner_follows_the_memory_tiers 128 40 12 "M4" "Max"). lia.
  - apply (planner_follows_the_memory_tiers 127 40 12 "M4" "Max"). lia.
  - change 76 with (6 * 128 / 10).
    apply (planner_follows_the_memory_tiers 128 40 12 "M4" "Max").
    unfold memory_bound. lia.
Defined.

(** C5, as stated, fails: with 16 GB a base M1 gets batch size 512 where
    the claim has 1024, and with 8 GB an M4 Max gets 2048 where the claim
    has 512. *)
Lemma batch_size_ignores_memory_tier :
  (16 <= 16
   /\ batchSize (calculateOptimalSettings 16 8 4 "M1" "base") = 512
   /\ batchSize (calculateOptimalSettings 16 8 4 "M1" "base") <> 1024)
  /\ (8 < 16
      /\ batchSize (calculateOptimalSettings 8 40 12 "M4" "Max") = 2048
      /\ batchSize (calculateOptimalSettings 8 40 12 "M4" "Max") <> 512).
Proof. repeat split; try reflexivity; try lia; vm_compute; discriminate. Qed.

(** C5, amended.  The batch size is decided by the chip alone: 2048 for a
    top variant of generation M4, 1024 for a top variant of another
    generation, 512 for every other chip, whatever the total memory. *)
Theorem batch_size_follows_the_chip
    (mem gpu perf : Z) (gen var : string) :
  let r := calculateOptimalSettings mem gpu perf gen var in
  (top_variant var -> gen = "M4" -> batchSize r = 2048) /\
  (top_variant var -> gen <> "M4" -> batchSize r = 1024) /\
  (~ top_variant var -> batchSize r = 512).
Proof.
  cbv zeta. unfold calculateOptimalSettings, top_variant; cbn [batchSize].
  destruct (String.eqb_spec var "Max") as [Hm | Hm];
    destruct (String.eqb_spec var "Ultra") as [Hu | Hu];
    destruct (String.eqb_spec gen "M4") as [Hg | Hg];
    cbn [orb andb]; repeat split; intros; try reflexivity; try congruence; tauto.
Qed.

(** The theorem on an M4 Ultra, an M1 Max and an M4 Pro. *)
Lemma batch_size_follows_the_chip_witness :
  batchSize (calculateOptimalSettings 8 40 12 "M4" "Ultra") = 2048
  /\ batchSize (calculateOptimalSettings 128 32 8 "M1" "Max") = 1024
  /\ batchSize (calculateOptimalSettings 128 10 4 "M4" "Pro") = 512.
Proof.
  split; [| split].
  - apply (batch_size_follows_the_chip 8 40 12 "M4" "Ultra");
      [right; reflexivity | reflexivity].
  - apply (batch_size_follows_the_chip 128 32 8 "M1" "Max");
      [left; reflexivity | discriminate].
  - apply (batch_size_follows_the_chip 128 10 4 "M4" "Pro").
    intros [H | H]; discriminate H.
Defined.

Lemma tier_values_monotone (a b : Z) (v5 v4 v3 v2 v1 v0 : Z) :
  a <= b -> v0 <= v1 -> v1 <= v2 -> v2 <= v3 -> v3 <= v4 -> v4 <= v5 ->
  tier_value a v5 v4 v3 v2 v1 v0 <= tier_value b v5 v4 v3 v2 v1 v0.
Proof.
  intros. unfold tier_value.
  repeat match goal with
         | |- context [?x >=? ?y] =>
             let E := fresh in destruct (Z.geb_spec x y) as [E | E]; try lia
         end.
Qed.

(** C8. Between two inputs that differ only in total memory, every
    recommended value for the larger memory is at least the value for the
    smaller one (the maximum model size on total memories up to
    [memory_bound] GB). *)
Theorem recommendation_is_monotone_in_memory
    (mem1 mem2 gpu perf : Z) (gen var : string) :
  mem1 <= mem2 ->
  let r1 := calculateOptimalSettings mem1 gpu perf gen var in
  let r2 := calculateOptimalSettings mem2 gpu perf gen var in
  gpuLayers r1 <= gpuLayers r2 /\
  contextSize r1 <= contextSize r2 /\
  batchSize r1 <= batchSize r2 /\
  cpuThreads r1 <= cpuThreads r2 /\
  (0 <= mem1 -> mem2 < memory_bound -> maxModelSizeGB r1 <= maxModelSizeGB r2).
Proof.
  intros Hle. cbv zeta. unfold calculateOptimalSettings;
    cbn [gpuLayers contextSize batchSize cpuThreads maxModelSizeGB].
  split; [apply (tier_values_monotone mem1 mem2 99 80 60 40 20 4); lia |].
  split; [apply (tier_values_monotone mem1 mem2 131072 65536 32768 16384 8192 4096); lia |].
  split; [lia |]. split; [lia |].
  intros H0 Hb.
  rewrite !floor_of_six_tenths by lia.
  apply Z.div_le_mono; lia.
Qed.

(** The theorem between 36 GB and 128 GB. *)
Lemma recommendation_is_monotone_in_memory_witness :
  maxModelSizeGB (calculateOptimalSettings 36 40 12 "M4" "Max")
  <= maxModelSizeGB (calculateOptimalSettings 128 40 12 "M4" "Max")
  /\ gpuLayers (calculateOptimalSettings 36 40 12 "M4" "Max")
     <= gpuLayers (calculateOptimalSettings 128 40 12 "M4" "Max").
Proof.
  assert (H : 36 <= 128) by lia.
  pose proof (recommendation_is_monotone_in_memory 36 128 40 12 "M4" "Max" H) as M.
  cbv zeta in M. destruct M as (Hg & _ & _ & _ & Hm).
  split; [apply Hm; unfold memory_bound; lia | exact Hg].
Defined.

End Planner.

(* ===================================================================== *)
(** * Properties of the hardware profiler                                  *)
(* ===================================================================== *)

Section Profiler.
Import Hardware.

Lemma getAppleSiliconInfo_total (h : Host) :
  exists info, getAppleSiliconInfo h = Normal info.
Proof.
  unfold getAppleSiliconInfo.
  destruct (negb (platform h =? "darwin")%string || negb (arch h =? "arm64")%string);
    [eexists; reflexivity |].
  destruct (execSync h "sysctl -n machdep.cpu.brand_string") as [out | e]; cbn.
  - destruct (brand_match (JsString.trim out)) as [[g v] |]; eexists; reflexivity.
  - eexists; reflexivity.
Qed.

Lemma getPerformanceAndEfficiencyCores_total (h : Host) :
  exists cores, getPerformanceAndEfficiencyCores h = Normal cores.
Proof.
  unfold getPerformanceAndEfficiencyCores.
  destruct (negb (platform h =? "darwin")%string); [eexists; reflexivity |].
  destruct (execSync h "sysctl -n hw.perflevel0.physicalcpu") as [p | e]; cbn;
    [| eexists; reflexivity].
  destruct (execSync h "sysctl -n hw.perflevel1.physicalcpu") as [q | e]; cbn;
    eexists; reflexivity.
Qed.

Lemma detectHardware_total (h : Host) : exists p, detectHardware h = Normal p.
Proof.
  unfold detectHardware.
  destruct (getAppleSiliconInfo_total h) as [info ->].
  destruct (getPerformanceAndEfficiencyCores_total h) as [cores ->].
  cbn. eexists; reflexivity.
Qed.

Lemma getProfile_total (h : Host) (cache : option HardwareProfile) :
  exists p, getProfile h cache = Normal (p, Some p).
Proof.
  destruct cache as [p |]; cbn; [eexists; reflexivity |].
  destruct (detectHardware_total h) as [p ->]. cbn. eexists; reflexivity.
Qed.

(** C9, as stated, fails.  Off the expected platform the logical cores are
    not split evenly: an eight-core Linux host gets 8 performance and 0
    efficiency cores.  And a failed probe does not make the hardware
    non-unified: an arm64 Mac whose every [sysctl] query fails is still
    reported as unified-memory Apple Silicon. *)
Lemma fallback_is_not_an_even_split :
  (exists p, getProfile Examples.linux_host None = Normal (p, Some p)
             /\ cpuCores p = 8 /\ performanceCores p = 8 /\ efficiencyCores p = 0)
  /\ (exists p, getProfile Examples.mac_without_sysctl None = Normal (p, Some p)
                /\ unifiedMemory p = true /\ isAppleSilicon p = true).
Proof.
  split; eexists; (split; [vm_compute; reflexivity |]); repeat split; reflexivity.
Qed.

(** C9, amended.  [getProfile] and [refresh] never throw, whatever the
    probes do.  On a first call the profile is as follows.  Off darwin, all
    logical cores count as performance cores and none as efficiency cores,
    the chip is unknown and the memory is not unified.  On darwin, when a
    core-count query throws, each bucket gets half the logical cores,
    rounded down.  The unified-memory flag is decided by platform and
    architecture alone: on darwin/arm64 it is set even when the brand
    query throws, and then the chip is unknown with 0 GPU cores. *)
Theorem getProfile_never_throws (h : Host) (cache : option HardwareProfile) :
  (exists p, getProfile h cache = Normal (p, Some p)) /\
  (exists p, refresh h cache = Normal (p, Some p)) /\
  (exists p, getProfile h None = Normal (p, Some p) /\
     (platform h <> "darwin" ->
        performanceCores p = cpus_length h /\ efficiencyCores p = 0 /\
        generation p = "unknown" /\ variant p = "unknown" /\ gpuCores p = 0 /\
        isAppleSilicon p = false /\ unifiedMemory p = false) /\
     (platform h = "darwin" ->
        throws (execSync h "sysctl -n hw.perflevel0.physicalcpu")
        \/ throws (execSync h "sysctl -n hw.perflevel1.physicalcpu") ->
        performanceCores p = cpus_length h / 2 /\
        efficiencyCores p = cpus_length h / 2) /\
     (unifiedMemory p = true <-> platform h = "darwin" /\ arch h = "arm64") /\
     (platform h = "darwin" -> arch h = "arm64" ->
        throws (execSync h "sysctl -n machdep.cpu.brand_string") ->
        unifiedMemory p = true /\ generation p = "unknown" /\
        variant p = "unknown" /\ gpuCores p = 0)).
Proof.
  split; [apply getProfile_total |].
  split.
  { unfold refresh. destruct (detectHardware_total h) as [p ->].
    cbn. eexists; reflexivity. }
  cbn [getProfile]. unfold detectHardware.
  destruct (getAppleSiliconInfo h) as [info | e] eqn:Einfo;
    [| destruct (getAppleSiliconInfo_total h) as [? ?]; congruence].
  destruct (getPerformanceAndEfficiencyCores h) as [cores | e] eqn:Ecores;
    [| destruct (getPerformanceAndEfficiencyCores_total h) as [? ?]; congruence].
  cbn. eexists. split; [reflexivity |].
  cbn [performanceCores efficiencyCores generation variant gpuCores
       isAppleSilicon unifiedMemory].
  unfold getAppleSiliconInfo in Einfo.
  unfold getPerformanceAndEfficiencyCores in Ecores.
  destruct (String.eqb_spec (platform h) "darwin") as [Hp | Hp];
    destruct (String.eqb_spec (arch h) "arm64") as [Ha | Ha];
    cbn [negb orb andb] in *.
  - (* darwin, arm64 *)
    split; [intros; congruence |].
    split.
    { intros _ [[e He] | [e He]].
      - rewrite He in Ecores. cbn in Ecores. injection Ecores as <-. auto.
      - destruct (execSync h "sysctl -n hw.perflevel0.physicalcpu");
          rewrite ?He in Ecores; cbn in Ecores; injection Ecores as <-; auto. }
    split; [tauto |].
    intros _ _ [e He]. rewrite He in Einfo. cbn in Einfo.
    injection Einfo as <-. auto.
  - (* darwin, another architecture *)
    injection Einfo as <-.
    split; [intros; congruence |].
    split.
    { intros _ [[e He] | [e He]].
      - rewrite He in Ecores. cbn in Ecores. injection Ecores as <-. auto.
      - destruct (execSync h "sysctl -n hw.perflevel0.physicalcpu");
          rewrite ?He in Ecores; cbn in Ecores; injection Ecores as <-; auto. }
    split; [split; [discriminate | intros [_ ?]; congruence] |].
    intros; congruence.
  - (* not darwin, arm64 *)
    injection Einfo as <-. injection Ecores as <-.
    split; [intros _; cbn; auto 10 |].
    split; [intros; congruence |].
    split; [split; [discriminate | intros [? _]; congruence] |].
    intros; congruence.
  - injection Einfo as <-. injection Ecores as <-.
    split; [intros _; cbn; auto 10 |].
    split; [intros; congruence |].
    split; [split; [discriminate | intros [? _]; congruence] |].
    intros; congruence.
Qed.

(** The theorem on the Mac whose [sysctl] queries all fail. *)
Lemma getProfile_never_throws_witness :
  exists p, getProfile Examples.mac_without_sysctl None = Normal (p, Some p)
            /\ performanceCores p = 8 /\ efficiencyCores p = 8
            /\ unifiedMemory p = true /\ generation p = "unknown".
Proof.
  destruct (getProfile_never_throws Examples.mac_without_sysctl None)
    as (_ & _ & p & Hp & _ & Hsplit & _ & Hbrand).
  exists p. split; [exact Hp |].
  destruct Hsplit as [Hperf Heff];
    [reflexivity | left; eexists; reflexivity |].
  destruct Hbrand as (Hu & Hg & _);
    [reflexivity | reflexivity | eexists; reflexivity |].
  repeat split; assumption.
Defined.

End Profiler.

(* ===================================================================== *)
(** * Properties of the process supervisor                                 *)
(* ===================================================================== *)

Section Supervisor.
Import JsString Json LlamaServer Readiness.
Variable host : Hardware.Host.

(** ** Promises *)

Lemma settle_length p s ps : length (settle p s ps) = length ps.
Proof.
  unfold settle. destruct (ps !! p) as [[[] |] |]; auto using length_insert.
Qed.

Lemma settle_pending p s ps :
  ps !! p = Some (Settles Pending) -> settle p s ps !! p = Some (Settles s).
Proof.
  intros H. unfold settle. rewrite H.
  apply list_lookup_insert_eq. eapply lookup_lt_Some; eauto.
Qed.

Lemma settle_settled p s ps :
  ps !! p <> Some (Settles Pending) -> settle p s ps = ps.
Proof.
  intros H. unfold settle. destruct (ps !! p) as [[[] |] |]; congruence.
Qed.

Lemma settle_other p q s ps : p <> q -> settle p s ps !! q = ps !! q.
Proof.
  intros H. unfold settle. destruct (ps !! p) as [[[] |] |]; auto.
  by apply list_lookup_insert_ne.
Qed.

Lemma settle_follows p q s inner ps :
  ps !! q = Some (Follows inner) -> settle p s ps !! q = Some (Follows inner).
Proof.
  intros H. destruct (decide (p = q)) as [-> | Hne].
  - rewrite settle_settled; [done | congruence].
  - by rewrite settle_other.
Qed.

(** ** The readiness handler *)

Lemma handle_line_spec h w line :
  handle_line h w line = if line_is_sentinel line then on_ready h w else w.
Proof.
  unfold handle_line, line_is_sentinel.
  destruct (String.length line =? 0)%nat; cbn [negb andb]; [done |].
  destruct (JSON_parse line) as [v | e]; cbn; [| done].
  destruct (get_property "message" v) as [m | e]; cbn; [| done].
  by destruct (message_is_sentinel m).
Qed.

Lemma on_ready_child h w c :
  children w !! h = Some c ->
  children (on_ready h w) !! h = Some (mark_unsubscribed c).
Proof.
  intros H. unfold on_ready. rewrite H. cbn.
  apply list_lookup_insert_eq. eapply lookup_lt_Some; eauto.
Qed.

Lemma on_ready_idempotent h w : on_ready h (on_ready h w) = on_ready h w.
Proof.
  destruct (children w !! h) as [c |] eqn:Hc.
  - pose proof (on_ready_child h w c Hc) as Hc'.
    unfold on_ready at 1. rewrite Hc'.
    unfold on_ready. rewrite Hc. cbn.
    unfold with_promises, with_launchOptions, with_children; cbn. f_equal.
    + by rewrite insert_insert_eq.
    + rewrite list_insert_insert_eq. done.
    + destruct (promises w !! settles c) as [[[| | err] | inner] |] eqn:E;
        try (rewrite (settle_settled _ _ (promises w)) by congruence;
             apply settle_settled; congruence).
      apply settle_settled. rewrite (settle_pending _ _ _ E). congruence.
  - unfold on_ready. by rewrite !Hc.
Qed.

Lemma handler_spec h data w :
  handler h data w = if chunk_announces_ready data then on_ready h w else w.
Proof.
  unfold handler, chunk_announces_ready.
  assert (G : forall lines,
    fold_left (handle_line h) lines (on_ready h w) = on_ready h w).
  { induction lines as [| l ls IH]; cbn; [done |].
    rewrite handle_line_spec, on_ready_idempotent.
    destruct (line_is_sentinel l); exact IH. }
  induction (split_lines data) as [| l ls IH]; cbn; [done |].
  rewrite handle_line_spec. destruct (line_is_sentinel l); cbn; [apply G | exact IH].
Qed.

Lemma run_stdout_unsubscribed h c chunks w :
  children w !! h = Some c -> readiness_handler c = false ->
  run host w (stdout_events h chunks) = w.
Proof.
  intros Hc Hr. induction chunks as [| d ds IH]; cbn; [done |].
  unfold on_stdout_data. rewrite Hc, Hr. exact IH.
Qed.

(** The whole effect of the stdout of a child whose handler is subscribed:
    nothing, or [on_ready] once, according to whether some chunk carries
    the readiness record. *)
Lemma run_stdout_subscribed h c chunks w :
  children w !! h = Some c -> readiness_handler c = true ->
  run host w (stdout_events h chunks)
  = if existsb chunk_announces_ready chunks then on_ready h w else w.
Proof.
  intros Hc Hr. induction chunks as [| d ds IH]; cbn; [done |].
  unfold on_stdout_data. rewrite Hc, Hr, handler_spec.
  destruct (chunk_announces_ready d); cbn; [| exact IH].
  eapply run_stdout_unsubscribed; [by apply on_ready_child | done].
Qed.

(** ** Launching *)

(** What [launchServer] does when no launch is in flight for the id: one
    child process and one pending promise are created and registered, and
    the caller gets a new promise following that one. *)
Lemma launchServer_fresh w o :
  loading w !! id o = None ->
  exists hw,
    Hardware.getProfile host (hardwareProfile w) = Normal (hw, Some hw) /\
    launchServer host w o =
      ({| launchOptions := launchOptions w;
          processes := <[id o := length (children w)]> (processes w);
          loading := <[id o := length (promises w)]> (loading w);
          children := children w ++
            [{| spawnargs := launch_args o (Hardware.recommended hw);
                for_id := id o; for_options := o;
                settles := length (promises w); readiness_handler := true;
                kill_signals := []; exited := false |}];
          promises := (promises w ++ [Settles Pending])
                      ++ [Follows (length (promises w))];
          hardwareProfile := Some hw |},
       S (length (promises w))).
Proof.
  intros Hl. destruct (getProfile_total host (hardwareProfile w)) as [hw Hhw].
  exists hw. split; [exact Hhw |].
  unfold launchServer. rewrite Hl, Hhw. unfold async_return, with_promises; cbn.
  rewrite length_app; cbn. f_equal. lia.
Qed.

Lemma outcome_follows w q p s :
  promises w !! q = Some (Follows p) -> promises w !! p = Some (Settles s) ->
  outcome w q = Some s.
Proof. intros Hq Hp. unfold outcome. by rewrite Hq, Hp. Qed.

Lemma on_ready_promises h w c :
  children w !! h = Some c ->
  promises (on_ready h w) = settle (settles c) Fulfilled (promises w).
Proof. intros H. unfold on_ready. by rewrite H. Qed.

(** C1, amended.  After a launch that started a process, and while only
    stdout data arrives, the caller's outcome is fulfilled exactly when
    some single chunk, cut at its line feeds, has a non-empty piece that
    parses as JSON whose [message] loosely equals the sentinel; otherwise
    it stays pending, and data never rejects it.  Pieces are not carried
    over from one chunk to the next.  Chunks are handled in arrival order,
    and once a chunk has announced readiness the handler is unsubscribed:
    whatever is printed afterwards leaves the world unchanged. *)
Theorem readiness_is_decided_chunk_by_chunk w o chunks :
  loading w !! id o = None ->
  let w1 := fst (launchServer host w o) in
  let q := snd (launchServer host w o) in
  let h := length (children w) in
  let after := fun cs => run host w1 (stdout_events h cs) in
  outcome (after chunks) q
    = Some (if existsb chunk_announces_ready chunks then Fulfilled else Pending)
  /\ (exists c, children (after chunks) !! h = Some c
                /\ readiness_handler c = negb (existsb chunk_announces_ready chunks))
  /\ (forall before c later,
        chunk_announces_ready c = true ->
        after (before ++ c :: later) = after (before ++ [c])).
Proof.
  intros Hl. destruct (launchServer_fresh w o Hl) as (hw & _ & HL).
  cbv zeta. rewrite HL. cbn [fst snd].
  set (child := {| spawnargs := launch_args o (Hardware.recommended hw);
                   for_id := id o; for_options := o;
                   settles := length (promises w); readiness_handler := true;
                   kill_signals := []; exited := false |}).
  match goal with |- context [run host ?W _] => set (w1 := W) end.
  assert (Hc : children w1 !! length (children w) = Some child)
    by (subst w1; cbn; apply list_lookup_middle; done).
  assert (Hp : promises w1 !! length (promises w) = Some (Settles Pending)).
  { subst w1; cbn. rewrite lookup_app_l by (rewrite length_app; cbn; lia).
    apply list_lookup_middle; done. }
  assert (Hq : promises w1 !! S (length (promises w))
               = Some (Follows (length (promises w)))).
  { subst w1; cbn. rewrite lookup_app_r by (rewrite length_app; cbn; lia).
    rewrite length_app; cbn.
    replace (S (length (promises w)) - (length (promises w) + 1))%nat with 0%nat by lia.
    done. }
  assert (Hrun : forall cs, run host w1 (stdout_events (length (children w)) cs)
                 = if existsb chunk_announces_ready cs
                   then on_ready (length (children w)) w1 else w1)
    by (intros cs; eapply run_stdout_subscribed; [exact Hc | done]).
  split; [| split].
  - rewrite Hrun. destruct (existsb chunk_announces_ready chunks).
    + eapply outcome_follows.
      * rewrite (on_ready_promises _ _ _ Hc). apply settle_follows. exact Hq.
      * rewrite (on_ready_promises _ _ _ Hc). apply settle_pending. exact Hp.
    + eapply outcome_follows; eauto.
  - rewrite Hrun. destruct (existsb chunk_announces_ready chunks).
    + eexists; split; [by apply on_ready_child | done].
    + eexists; split; [exact Hc | done].
  - intros before c later Hready. rewrite !Hrun.
    rewrite !existsb_app. cbn. rewrite Hready. cbn.
    by rewrite !orb_true_r.
Qed.

(** ** How each operation changes the objects and the maps *)

Lemma launchServer_children w o :
  exists tail, children (fst (launchServer host w o)) = children w ++ tail
               /\ Forall (fun c => id (for_options c) = for_id c) tail.
Proof.
  destruct (loading w !! id o) as [p |] eqn:Hl.
  - exists []. unfold launchServer. rewrite Hl. cbn. by rewrite app_nil_r.
  - destruct (launchServer_fresh w o Hl) as (hw & _ & ->). cbn.
    eexists; split; [reflexivity |]. by repeat constructor.
Qed.

Lemma launchServer_promises w o :
  exists tail, promises (fst (launchServer host w o)) = promises w ++ tail.
Proof.
  destruct (loading w !! id o) as [p |] eqn:Hl.
  - unfold launchServer. rewrite Hl. cbn. eauto.
  - destruct (launchServer_fresh w o Hl) as (hw & _ & ->). cbn.
    rewrite <- app_assoc. eauto.
Qed.

Lemma launchServer_launchOptions w o :
  launchOptions (fst (launchServer host w o)) = launchOptions w.
Proof.
  destruct (loading w !! id o) as [p |] eqn:Hl.
  - unfold launchServer. by rewrite Hl.
  - by destruct (launchServer_fresh w o Hl) as (hw & _ & ->).
Qed.

Lemma on_stdout_data_spec h data w :
  on_stdout_data h data w = w \/
  (exists c, children w !! h = Some c /\ on_stdout_data h data w = on_ready h w).
Proof.
  unfold on_stdout_data. destruct (children w !! h) as [c |] eqn:Hc; [| by left].
  destruct (readiness_handler c); [| by left].
  rewrite handler_spec. destruct (chunk_announces_ready data); eauto.
Qed.

Lemma kill_maps h sg w :
  launchOptions (snd (kill h sg w)) = launchOptions w /\
  processes (snd (kill h sg w)) = processes w /\
  loading (snd (kill h sg w)) = loading w /\
  promises (snd (kill h sg w)) = promises w /\
  length (children (snd (kill h sg w))) = length (children w).
Proof.
  unfold kill. destruct (children w !! h) as [c |]; [| done].
  destruct (exited c); cbn; [done |]. by rewrite length_insert.
Qed.

Lemma kill_children_consistent h sg w :
  Forall (fun c => id (for_options c) = for_id c) (children w) ->
  Forall (fun c => id (for_options c) = for_id c) (children (snd (kill h sg w))).
Proof.
  intros H. unfold kill. destruct (children w !! h) as [c |] eqn:Hc; [| done].
  destruct (exited c); cbn; [done |].
  apply Forall_insert; [done |]. cbn.
  eapply (proj1 (Forall_lookup _ _) H); eauto.
Qed.

Lemma kill_all_maps (entries : list (string * nat)) w :
  let w' := foldr (fun entry acc => snd (kill (snd entry) "SIGTERM" acc)) w entries in
  launchOptions w' = launchOptions w /\ promises w' = promises w /\
  length (children w') = length (children w) /\
  (Forall (fun c => id (for_options c) = for_id c) (children w) ->
   Forall (fun c => id (for_options c) = for_id c) (children w')).
Proof.
  induction entries as [| e es IH]; cbn; [done |].
  destruct IH as (H1 & H2 & H3 & H4).
  destruct (kill_maps (snd e) "SIGTERM"
              (foldr (fun entry acc => snd (kill (snd entry) "SIGTERM" acc)) w es))
    as (K1 & _ & _ & K4 & K5).
  repeat split; try congruence.
  intros H. apply kill_children_consistent. auto.
Qed.

(** ** Consistency of reachable worlds *)

Lemma consistent_on_ready h w : consistent w -> consistent (on_ready h w).
Proof.
  intros [Hm Hc]. unfold on_ready.
  destruct (children w !! h) as [c |] eqn:E; [| done].
  assert (Hcc : id (for_options c) = for_id c)
    by (eapply (proj1 (Forall_lookup _ _) Hc); eauto).
  split; cbn.
  - by apply map_Forall_insert_2.
  - by apply Forall_insert.
Qed.

Lemma consistent_launch w o : consistent w -> consistent (fst (launchServer host w o)).
Proof.
  intros [Hm Hc]. split.
  - by rewrite launchServer_launchOptions.
  - destruct (launchServer_children w o) as (tail & -> & Ht). by apply Forall_app.
Qed.

Lemma consistent_step w ev : consistent w -> consistent (step host w ev).
Proof.
  intros Hw. destruct ev as [h data | h code signal]; cbn.
  - destruct (on_stdout_data_spec h data w) as [-> | (c & _ & ->)];
      [done | by apply consistent_on_ready].
  - unfold on_close.
    set (w0 := with_children _ w).
    assert (H0 : consistent w0).
    { destruct Hw as [Hm Hc]. split; [done |]. subst w0; cbn.
      destruct (children w !! h) as [c |] eqn:E; [| done].
      apply Forall_insert; [done |]. cbn.
      eapply (proj1 (Forall_lookup _ _) Hc); eauto. }
    set (w1 := execFile_callback h _ w0).
    assert (H1 : consistent w1).
    { subst w1. unfold execFile_callback.
      destruct (execFile_error code signal); [| done].
      by destruct (children w0 !! h). }
    unfold close_listener. destruct (children w1 !! h) as [c |]; [| done].
    set (w2 := with_loading _ _).
    assert (H2 : consistent w2) by done.
    destruct (decide (signal = Some "SIGSEGV")); [| done].
    destruct (launchOptions w2 !! for_id c); [| done].
    by apply consistent_launch.
Qed.

Lemma consistent_cleanup w i : consistent w -> consistent (cleanupProcess w i).
Proof.
  intros [Hm Hc]. unfold cleanupProcess.
  destruct (processes w !! i) as [h |]; [| done].
  destruct (kill h "SIGTERM" w) as [killed w1] eqn:K.
  assert (K1 : w1 = snd (kill h "SIGTERM" w)) by (by rewrite K).
  destruct (kill_maps h "SIGTERM" w) as (A & _).
  pose proof (kill_children_consistent h "SIGTERM" w Hc) as B.
  rewrite <- K1 in A, B.
  destruct killed; split;
    unfold with_loading, with_processes; cbn [launchOptions children].
  - by rewrite A.
  - exact B.
  - by rewrite (proj1 (kill_maps h "SIGKILL" w1)), A.
  - by apply kill_children_consistent.
Qed.

Lemma consistent_close w : consistent w -> consistent (close w).
Proof.
  intros [Hm Hc]. unfold close.
  destruct (kill_all_maps (map_to_list (processes w)) w) as (A & _ & _ & B).
  split; cbn; [by rewrite A | auto].
Qed.

Lemma reachable_consistent w : reachable host w -> consistent w.
Proof.
  induction 1;
    auto using consistent_launch, consistent_step, consistent_cleanup, consistent_close.
  split; [apply map_Forall_empty | constructor].
Qed.

(** ** The close handler *)

(** The world in which the 'close' listener of child [h] runs: the child
    is marked as gone and [execFile]'s callback has run; then the two
    [delete]s. *)
Lemma on_close_unfold w h c code signal :
  children w !! h = Some c ->
  exists w2,
    children w2 = <[h := mark_exited c]> (children w) /\
    length (promises w2) = length (promises w) /\
    launchOptions w2 = launchOptions w /\
    processes w2 = delete (for_id c) (processes w) /\
    loading w2 = delete (for_id c) (loading w) /\
    hardwareProfile w2 = hardwareProfile w /\
    on_close host h code signal w =
      if decide (signal = Some "SIGSEGV") then
        match launchOptions w !! for_id c with
        | Some options => fst (launchServer host w2 options)
        | None => w2
        end
      else w2.
Proof.
  intros Hc. unfold on_close.
  set (w0 := with_children _ w).
  assert (Hc0 : children w0 = <[h := mark_exited c]> (children w))
    by (subst w0; cbn; by rewrite Hc).
  assert (Hl0 : children w0 !! h = Some (mark_exited c)).
  { rewrite Hc0. apply list_lookup_insert_eq. eapply lookup_lt_Some; eauto. }
  set (w1 := execFile_callback h _ w0).
  assert (H1 : children w1 = children w0 /\ length (promises w1) = length (promises w)
               /\ launchOptions w1 = launchOptions w /\ processes w1 = processes w
               /\ loading w1 = loading w /\ hardwareProfile w1 = hardwareProfile w).
  { subst w1. unfold execFile_callback.
    destruct (execFile_error code signal); [| done].
    rewrite Hl0. cbn. by rewrite settle_length. }
  destruct H1 as (E1 & E2 & E3 & E4 & E5 & E6).
  unfold close_listener. rewrite E1, Hl0.
  change (for_id (mark_exited c)) with (for_id c).
  exists (with_loading (delete (for_id c)) (with_processes (delete (for_id c)) w1)).
  cbn [children promises launchOptions processes loading hardwareProfile
       with_loading with_processes].
  rewrite E1, Hc0, E2, E3, E4, E5, E6. done.
Qed.

(** C2. When the process of a session closes: if the signal is SIGSEGV and
    options are retained for the session id, [launchServer] runs once more
    with exactly those options, starting exactly one new process that is
    registered for the id; for every other signal or exit code, and when no
    options are retained, no process is started and the id is left without
    a process entry and without an in-flight entry. *)
Theorem close_restarts_only_after_SIGSEGV w h c code signal :
  reachable host w ->
  children w !! h = Some c ->
  let w' := on_close host h code signal w in
  (forall o, signal = Some "SIGSEGV" -> launchOptions w !! for_id c = Some o ->
     exists hw,
       Hardware.getProfile host (hardwareProfile w) = Normal (hw, Some hw) /\
       children w' = <[h := mark_exited c]> (children w) ++
         [{| spawnargs := launch_args o (Hardware.recommended hw);
             for_id := for_id c; for_options := o;
             settles := length (promises w); readiness_handler := true;
             kill_signals := []; exited := false |}] /\
       processes w' !! for_id c = Some (length (children w)) /\
       loading w' !! for_id c = Some (length (promises w)) /\
       launchOptions w' !! for_id c = Some o) /\
  (~ (signal = Some "SIGSEGV" /\ is_Some (launchOptions w !! for_id c)) ->
     children w' = <[h := mark_exited c]> (children w) /\
     processes w' !! for_id c = None /\
     loading w' !! for_id c = None).
Proof.
  intros Hr Hc. destruct (reachable_consistent w Hr) as [Hm _].
  destruct (on_close_unfold w h c code signal Hc)
    as (w2 & C2 & P2 & L2 & R2 & G2 & F2 & ->).
  cbv zeta. split.
  - intros o -> Ho. rewrite decide_True by done. rewrite Ho.
    assert (Hid : id o = for_id c) by (apply (Hm _ _ Ho)).
    assert (Hfree : loading w2 !! id o = None)
      by (rewrite G2, Hid; apply lookup_delete_eq).
    destruct (launchServer_fresh w2 o Hfree) as (hw & Hhw & ->).
    exists hw. cbn. rewrite F2 in Hhw. rewrite C2, P2, L2, Hid, length_insert.
    split; [exact Hhw |]. split; [done |].
    split; [apply lookup_insert_eq |]. split; [apply lookup_insert_eq | exact Ho].
  - intros Hno.
    assert (E : (if decide (signal = Some "SIGSEGV") then
                   match launchOptions w !! for_id c with
                   | Some options => fst (launchServer host w2 options)
                   | None => w2
                   end
                 else w2) = w2).
    { destruct (decide (signal = Some "SIGSEGV")) as [Hs | Hs]; [| done].
      destruct (launchOptions w !! for_id c) eqn:Ho; [| done].
      exfalso. apply Hno. split; [done | by eexists]. }
    rewrite E, C2, R2, G2. split; [done |].
    split; apply lookup_delete_eq.
Qed.

(** ** Promises handed out by [async launchServer] *)

Lemma followers_on_close h code signal w q p :
  promises w !! q = Some (Follows p) ->
  promises (on_close host h code signal w) !! q = Some (Follows p).
Proof.
  intros Hq. unfold on_close.
  set (w0 := with_children _ w).
  assert (H0 : promises w0 !! q = Some (Follows p)) by done.
  set (w1 := execFile_callback h _ w0).
  assert (H1 : promises w1 !! q = Some (Follows p)).
  { subst w1. unfold execFile_callback.
    destruct (execFile_error code signal); [| done].
    destruct (children w0 !! h); [| done]. cbn. by apply settle_follows. }
  unfold close_listener. destruct (children w1 !! h) as [c |]; [| done].
  set (w2 := with_loading _ _).
  assert (H2 : promises w2 !! q = Some (Follows p)) by done.
  destruct (decide (signal = Some "SIGSEGV")); [| done].
  destruct (launchOptions w2 !! for_id c) as [o |]; [| done].
  destruct (launchServer_promises w2 o) as [tail ->].
  by apply lookup_app_l_Some.
Qed.

Lemma followers_on_run evs : forall w q p,
  promises w !! q = Some (Follows p) ->
  promises (run host w evs) !! q = Some (Follows p).
Proof.
  induction evs as [| ev evs IH]; intros w q p Hq; cbn; [done |].
  apply IH. destruct ev as [h data | h code signal]; cbn.
  - destruct (on_stdout_data_spec h data w) as [-> | (c & Hc & ->)]; [done |].
    rewrite (on_ready_promises _ _ _ Hc). by apply settle_follows.
  - by apply followers_on_close.
Qed.

(** C3, amended.  When a launch for the id is in flight, [launchServer]
    starts no process and changes none of the three maps.  It returns a
    new promise, not the stored one: the promise of the [async] call,
    which follows the stored in-flight promise.  So in every later world
    it shows exactly the settlement of the in-flight promise, the same as
    any other caller's promise that follows it. *)
Theorem launch_in_flight_is_coalesced w o p :
  loading w !! id o = Some p ->
  let w' := fst (launchServer host w o) in
  let q := snd (launchServer host w o) in
  children w' = children w /\
  processes w' = processes w /\
  loading w' = loading w /\
  launchOptions w' = launchOptions w /\
  q = length (promises w) /\
  promises w' = promises w ++ [Follows p] /\
  (forall evs,
     outcome (run host w' evs) q
     = match promises (run host w' evs) !! p with
       | Some (Settles s) => Some s
       | _ => None
       end) /\
  (forall q1, promises w !! q1 = Some (Follows p) ->
     forall evs, outcome (run host w' evs) q1 = outcome (run host w' evs) q).
Proof.
  intros Hl. unfold launchServer. rewrite Hl. cbn.
  set (w' := with_promises _ w).
  assert (Hq : promises w' !! length (promises w) = Some (Follows p))
    by (subst w'; cbn; by apply list_lookup_middle).
  repeat split; try done.
  - intros evs. unfold outcome.
    by rewrite (followers_on_run evs _ _ _ Hq).
  - intros q1 Hq1 evs. unfold outcome.
    assert (Hq1' : promises w' !! q1 = Some (Follows p))
      by (subst w'; cbn; by apply lookup_app_l_Some).
    by rewrite (followers_on_run evs _ _ _ Hq), (followers_on_run evs _ _ _ Hq1').
Qed.

(** ** A process that ends before it is ready *)

(** C6 holds for every exit that [execFile] reports as an error, and the
    code misses the remaining one.  After a first launch whose process
    closes before any output, the caller's outcome is rejected with the
    exit code and signal -- except for exit code 0 without a signal, where
    the callback gets no error: the outcome is left pending, and the
    process and in-flight entries are removed all the same. *)
Theorem exit_before_ready_rejects_unless_clean o code signal :
  let w1 := fst (launchServer host init o) in
  let q := snd (launchServer host init o) in
  outcome (on_close host 0 code signal w1) q
    = Some (match execFile_error code signal with
            | Some e => Rejected e
            | None => Pending
            end) /\
  outcome (on_close host 0 (Some 0) None w1) q = Some Pending /\
  processes (on_close host 0 (Some 0) None w1) !! id o = None /\
  loading (on_close host 0 (Some 0) None w1) !! id o = None.
Proof.
  assert (Hl : loading init !! id o = None) by apply lookup_empty.
  destruct (launchServer_fresh init o Hl) as (hw & _ & ->).
  cbn [fst snd init children promises length app].
  assert (G : forall c s,
    outcome (on_close host 0 c s
      {| launchOptions := launchOptions init;
         processes := <[id o := 0%nat]> (processes init);
         loading := <[id o := 0%nat]> (loading init);
         children := [{| spawnargs := launch_args o (Hardware.recommended hw);
                         for_id := id o; for_options := o; settles := 0;
                         readiness_handler := true; kill_signals := [];
                         exited := false |}];
         promises := [Settles Pending; Follows 0];
         hardwareProfile := Some hw |}) 1
    = Some (match execFile_error c s with
            | Some e => Rejected e
            | None => Pending
            end)).
  { intros c s. unfold on_close, close_listener, execFile_callback. cbn.
    destruct (execFile_error c s) as [e |]; cbn;
      (destruct (decide (s = Some "SIGSEGV")); cbn;
       [rewrite lookup_empty |]; reflexivity). }
  split; [apply G |]. split; [apply (G (Some 0) None) |].
  unfold on_close, close_listener, execFile_callback. cbn.
  split; apply lookup_delete_eq.
Qed.

(** ** Tearing down *)

(** C7, amended.  [cleanupProcess] of an existing session removes its
    process entry and its in-flight entry, and [close] empties those two
    maps; both leave the retained launch options as they were. *)
Theorem teardown_keeps_the_launch_options :
  (forall w i h, processes w !! i = Some h ->
     processes (cleanupProcess w i) !! i = None /\
     loading (cleanupProcess w i) !! i = None /\
     launchOptions (cleanupProcess w i) = launchOptions w) /\
  (forall w, processes (close w) = ∅ /\ loading (close w) = ∅ /\
             launchOptions (close w) = launchOptions w).
Proof.
  split.
  - intros w i h Hp. unfold cleanupProcess. rewrite Hp.
    destruct (kill h "SIGTERM" w) as [killed w1] eqn:K.
    assert (A : launchOptions w1 = launchOptions w)
      by (replace w1 with (snd (kill h "SIGTERM" w)) by (by rewrite K);
          apply kill_maps).
    cbn. split; [apply lookup_delete_eq |]. split; [apply lookup_delete_eq |].
    destruct killed; [done |].
    by rewrite (proj1 (kill_maps h "SIGKILL" w1)).
  - intros w. unfold close. cbn. repeat split.
    apply (kill_all_maps (map_to_list (processes w)) w).
Qed.

(** ** The query surface *)

(** C10. The two query operations send their requests to port 8080 of the
    loopback address, in every world and so whatever port a session was
    launched with; the port of the options only ends up on the command
    line of the child process, as a trailing [--port] argument when it is
    a non-empty string. *)
Theorem queries_ignore_the_configured_port w o content :
  let w1 := fst (launchServer host w o) in
  url (getModelParameters_request w1) = "http://127.0.0.1:8080/model.json" /\
  url (encode_request w1 content) = "http://127.0.0.1:8080/tokenize" /\
  (forall r, launch_args o r
             = launch_args (with_port None o) r
               ++ match port o with
                  | Some p => if truthy p then ["--port"; p] else []
                  | None => []
                  end) /\
  (loading w !! id o = None ->
   exists hw c,
     Hardware.getProfile host (hardwareProfile w) = Normal (hw, Some hw) /\
     children w1 !! length (children w) = Some c /\
     for_options c = o /\
     spawnargs c = launch_args o (Hardware.recommended hw)).
Proof.
  cbv zeta. split; [done |]. split; [done |]. split.
  - intros r. unfold launch_args, with_port; cbn.
    destruct (mmprojPath o) as [m |]; destruct (port o) as [pt |]; cbn;
      rewrite ?app_nil_r; try done;
      destruct (default false (multimodal o) && truthy m); cbn;
      by rewrite ?app_nil_r.
  - intros Hl. destruct (launchServer_fresh w o Hl) as (hw & Hhw & ->).
    exists hw. eexists. split; [exact Hhw |]. cbn.
    split; [by apply list_lookup_middle |]. done.
Qed.

End Supervisor.

(* ===================================================================== *)
(** * Worked examples on the Linux host                                    *)
(* ===================================================================== *)

Section Worked.
Import LlamaServer Readiness Examples.

(** The thread count for 1, 2, 3, 6 and 10 performance cores. *)
Example thread_counts :
  map (fun perf => Hardware.cpuThreads
                     (Hardware.calculateOptimalSettings 32 0 perf "unknown" "unknown"))
      [1; 2; 3; 6; 10]
  = [4; 4; 4; 4; 8].
Proof. reflexivity. Qed.

(** Three lines that are not records, then the readiness record: the launch
    is fulfilled, and not before the chunk that carries the record. *)
Example three_plain_lines_then_the_sentinel :
  outcome (run linux_host (fst launched)
             (stdout_events 0 ["llama.cpp build 1" +:+ newline;
                               "loading model" +:+ newline +:+ "warming up" +:+ newline]))
          (snd launched) = Some Pending
  /\ outcome (run linux_host (fst launched)
                (stdout_events 0 ["llama.cpp build 1" +:+ newline;
                                  "loading model" +:+ newline +:+ "warming up" +:+ newline;
                                  sentinel_line +:+ newline]))
             (snd launched) = Some Fulfilled.
Proof. split; vm_compute; reflexivity. Qed.

(** The comparison with the sentinel is [==]: a record whose [message] is a
    one-item array holding the sentinel string is taken for the readiness
    record too; and a piece needs no line feed after it. *)
Example loose_comparison_accepts_an_array :
  line_is_sentinel ("{" +:+ quote +:+ "message" +:+ quote +:+ ":["
                        +:+ quote +:+ "HTTP server listening" +:+ quote +:+ "]}") = true
  /\ chunk_announces_ready sentinel_line = true.
Proof. split; vm_compute; reflexivity. Qed.

Lemma ready_is_reachable : reachable linux_host ready.
Proof.
  exact (reachable_event linux_host _ (StdoutData 0 (sentinel_line +:+ newline))
           (reachable_launch linux_host _ session_options (reachable_init linux_host))).
Qed.

(** C1, as stated, fails.  The engine prints the readiness record and a
    line feed, delivered in two chunks cut inside the record: a complete,
    newline-terminated sentinel line has arrived, yet the outcome stays
    pending; delivered as one chunk, the same bytes fulfil it. *)
Lemma split_sentinel_is_not_recognised :
  spec_sentinel_arrived [sentinel_head; sentinel_tail] = true
  /\ outcome (run linux_host (fst launched)
                (stdout_events 0 [sentinel_head; sentinel_tail]))
             (snd launched) = Some Pending
  /\ outcome (run linux_host (fst launched)
                (stdout_events 0 [sentinel_head +:+ sentinel_tail]))
             (snd launched) = Some Fulfilled.
Proof. repeat split; vm_compute; reflexivity. Qed.

(** The theorem on a first launch whose second chunk ends with the record. *)
Lemma readiness_is_decided_chunk_by_chunk_witness :
  outcome (run linux_host (fst launched)
             (stdout_events 0 ["loading model" +:+ newline;
                               "not json" +:+ newline +:+ sentinel_line;
                               "later output"]))
          (snd launched) = Some Fulfilled.
Proof.
  assert (H : loading init !! id session_options = None) by (vm_compute; reflexivity).
  exact (proj1 (readiness_is_decided_chunk_by_chunk linux_host init session_options
                  ["loading model" +:+ newline;
                   "not json" +:+ newline +:+ sentinel_line;
                   "later output"] H)).
Defined.

(** The theorem on the ready session: SIGSEGV restarts it as child 1,
    SIGTERM removes it. *)
Lemma close_restarts_only_after_SIGSEGV_witness :
  processes (on_close linux_host 0 None (Some "SIGSEGV") ready) !! "chat" = Some 1%nat
  /\ processes (on_close linux_host 0 None (Some "SIGTERM") ready) !! "chat" = None.
Proof.
  assert (Hc : children ready !! 0%nat
               = Some {| spawnargs := ["-m"; "/models/llama.gguf"; "-c"; "16384";
                                       "-ngl"; "40"; "-t"; "6"; "-b"; "512";
                                       "--port"; "9090"];
                         for_id := "chat"; for_options := session_options;
                         settles := 0; readiness_handler := false;
                         kill_signals := []; exited := false |})
    by (vm_compute; reflexivity).
  split.
  - destruct (proj1 (close_restarts_only_after_SIGSEGV linux_host ready 0 _ None
                       (Some "SIGSEGV") ready_is_reachable Hc)
                session_options eq_refl)
      as (hw & _ & _ & Hp & _); [vm_compute; reflexivity | exact Hp].
  - apply (proj2 (close_restarts_only_after_SIGSEGV linux_host ready 0 _ None
                    (Some "SIGTERM") ready_is_reachable Hc)).
    intros [Hs _]. discriminate Hs.
Defined.

(** C3, as stated, fails on one point: the second call does not return the
    stored in-flight promise (object 0 of the heap) but a new promise
    (object 2) that follows it; the first caller holds yet another one
    (object 1). *)
Lemma second_launch_returns_a_new_promise :
  loading (fst launched) !! "chat" = Some 0%nat
  /\ snd launched = 1%nat
  /\ snd (launchServer linux_host (fst launched) session_options) = 2%nat
  /\ Some (snd (launchServer linux_host (fst launched) session_options))
     <> loading (fst launched) !! "chat"
  /\ promises (fst (launchServer linux_host (fst launched) session_options))
     = [Settles Pending; Follows 0; Follows 0].
Proof. repeat split; try (vm_compute; reflexivity). vm_compute. discriminate. Qed.

(** The theorem on a second call while the first launch is in flight. *)
Lemma launch_in_flight_is_coalesced_witness :
  children (fst (launchServer linux_host (fst launched) session_options))
  = children (fst launched)
  /\ outcome (run linux_host
                (fst (launchServer linux_host (fst launched) session_options))
                [StdoutData 0 (sentinel_line +:+ newline)]) 1
     = outcome (run linux_host
                  (fst (launchServer linux_host (fst launched) session_options))
                  [StdoutData 0 (sentinel_line +:+ newline)]) 2.
Proof.
  assert (H : loading (fst launched) !! id session_options = Some 0%nat)
    by (vm_compute; reflexivity).
  destruct (launch_in_flight_is_coalesced linux_host (fst launched) session_options 0 H)
    as (Hc & _ & _ & _ & _ & _ & _ & Hshare).
  split; [exact Hc |].
  apply (Hshare 1%nat); vm_compute; reflexivity.
Defined.

(** C7, as stated, fails on the third map: after [cleanupProcess] of the
    ready session, and after [close], the launch options retained for the
    session are still there. *)
Lemma launch_options_survive_teardown :
  processes ready !! "chat" = Some 0%nat
  /\ launchOptions (cleanupProcess ready "chat") !! "chat" = Some session_options
  /\ launchOptions (close ready) !! "chat" = Some session_options.
Proof. repeat split; vm_compute; reflexivity. Qed.

(** The theorem on [cleanupProcess] of the ready session. *)
Lemma teardown_keeps_the_launch_options_witness :
  processes (cleanupProcess ready "chat") !! "chat" = None
  /\ loading (cleanupProcess ready "chat") !! "chat" = None
  /\ launchOptions (cleanupProcess ready "chat") = launchOptions ready.
Proof.
  assert (H : processes ready !! "chat" = Some 0%nat) by (vm_compute; reflexivity).
  exact (proj1 teardown_keeps_the_launch_options ready "chat" 0%nat H).
Defined.

(** The theorem on the session launched with port 9090. *)
Lemma queries_ignore_the_configured_port_witness :
  url (getModelParameters_request (fst launched)) = "http://127.0.0.1:8080/model.json"
  /\ exists c, children (fst launched) !! 0%nat = Some c
               /\ port (for_options c) = Some "9090"
               /\ spawnargs c = ["-m"; "/models/llama.gguf"; "-c"; "16384";
                                 "-ngl"; "40"; "-t"; "6"; "-b"; "512";
                                 "--port"; "9090"].
Proof.
  assert (H : loading init !! id session_options = None) by (vm_compute; reflexivity).
  destruct (queries_ignore_the_configured_port linux_host init session_options "hello")
    as (Hu & _ & _ & Hchild).
  split; [exact Hu |].
  destruct (Hchild H) as (hw & c & Hhw & Hc & Ho & Ha).
  exists c. split; [exact Hc |]. split; [by rewrite Ho |].
  rewrite Ha. vm_compute in Hhw. injection Hhw as <-. vm_compute. reflexivity.
Defined.

End Worked.

(* ===================================================================== *)
(** * The supervisor's bookkeeping                                         *)
(* ===================================================================== *)

Section Bookkeeping.
Import LlamaServer.

Lemma evolves_one w w' : mutation w w' -> evolves w w'.
Proof. intros H. eapply evolves_step; [apply evolves_refl | exact H]. Qed.

Lemma evolves_trans w1 w2 w3 : evolves w1 w2 -> evolves w2 w3 -> evolves w1 w3.
Proof.
  intros H12 H23. induction H23 as [| w2 w3 w4 _ IH Hm]; [exact H12 |].
  eapply evolves_step; [apply IH; exact H12 | exact Hm].
Qed.

(** ** Each operation is a chain of elementary changes *)

Lemma getProfile_cached host hw0 hw :
  Hardware.getProfile host (Some hw0) = Normal (hw, Some hw) -> hw = hw0.
Proof. cbn. by intros [= ->]. Qed.

Lemma launchServer_evolves host w o : evolves w (fst (launchServer host w o)).
Proof.
  destruct (loading w !! id o) as [p |] eqn:Hl.
  - unfold launchServer. rewrite Hl. apply evolves_one. by eapply mut_follow.
  - destruct (launchServer_fresh host w o Hl) as (hw & Hhw & ->). cbn [fst].
    eapply evolves_step; [apply evolves_one; apply (mut_spawn w o hw Hl) |].
    + intros hw0 E. rewrite E in Hhw. by apply getProfile_cached in Hhw.
    + match goal with
      | |- mutation ?w1 _ => apply (mut_follow w1 (id o) (length (promises w)))
      end.
      cbn. apply lookup_insert_eq.
Qed.

Lemma on_ready_evolves h w : evolves w (on_ready h w).
Proof.
  unfold on_ready. destruct (children w !! h) as [c |] eqn:Hc; [| apply evolves_refl].
  eapply evolves_step; [eapply evolves_step; [apply evolves_one |] |].
  - apply (mut_mark w h c (mark_unsubscribed c) Hc). by repeat split.
  - apply (mut_retain _ h (mark_unsubscribed c)); [| done].
    cbn. apply list_lookup_insert_eq. eapply lookup_lt_Some; eauto.
  - apply mut_settle.
Qed.

Lemma on_stdout_data_evolves h data w : evolves w (on_stdout_data h data w).
Proof.
  destruct (on_stdout_data_spec h data w) as [-> | (c & _ & ->)];
    [apply evolves_refl | apply on_ready_evolves].
Qed.

Lemma kill_evolves h sg w : evolves w (snd (kill h sg w)).
Proof.
  unfold kill. destruct (children w !! h) as [c |] eqn:Hc; [| apply evolves_refl].
  destruct (exited c); [apply evolves_refl |]. cbn [snd].
  apply evolves_one. apply (mut_mark w h c _ Hc). by repeat split.
Qed.

Lemma on_close_evolves host h code signal w : evolves w (on_close host h code signal w).
Proof.
  unfold on_close.
  set (w0 := with_children _ w).
  assert (H0 : evolves w w0).
  { subst w0. destruct (children w !! h) as [c |] eqn:Hc.
    - replace (with_children _ w)
        with (with_children (fun cs => <[h := mark_exited c]> cs) w)
        by (unfold with_children; by rewrite Hc).
      apply evolves_one. apply (mut_mark w h c _ Hc). by repeat split.
    - replace (with_children _ w) with w; [apply evolves_refl |].
      unfold with_children. rewrite Hc. by destruct w. }
  set (w1 := execFile_callback h _ w0).
  assert (H1 : evolves w0 w1).
  { subst w1. unfold execFile_callback.
    destruct (execFile_error code signal); [| apply evolves_refl].
    destruct (children w0 !! h); [| apply evolves_refl].
    apply evolves_one, mut_settle. }
  eapply evolves_trans; [exact H0 |]. eapply evolves_trans; [exact H1 |].
  unfold close_listener. destruct (children w1 !! h) as [c |]; [| apply evolves_refl].
  set (w2 := with_loading _ _).
  assert (H2 : evolves w1 w2) by (apply evolves_one, mut_forget).
  eapply evolves_trans; [exact H2 |].
  destruct (decide (signal = Some "SIGSEGV")); [| apply evolves_refl].
  destruct (launchOptions w2 !! for_id c); [| apply evolves_refl].
  apply launchServer_evolves.
Qed.

Lemma cleanupProcess_evolves w i : evolves w (cleanupProcess w i).
Proof.
  unfold cleanupProcess. destruct (processes w !! i) as [h |]; [| apply evolves_refl].
  pose proof (kill_evolves h "SIGTERM" w) as K.
  destruct (kill h "SIGTERM" w) as [killed w1]. cbn [snd] in K.
  eapply evolves_trans; [exact K |].
  eapply evolves_step; [| apply mut_forget].
  destruct killed; [apply evolves_refl | apply kill_evolves].
Qed.

Lemma close_evolves w : evolves w (close w).
Proof.
  unfold close. eapply evolves_step; [| apply mut_clear].
  induction (map_to_list (processes w)) as [| e es IH]; cbn; [apply evolves_refl |].
  eapply evolves_trans; [exact IH | apply kill_evolves].
Qed.

Lemma perform_evolves w a : evolves w (perform w a).
Proof.
  destruct a as [host o | host [h data | h code signal] | i |]; cbn.
  - apply launchServer_evolves.
  - apply on_stdout_data_evolves.
  - apply on_close_evolves.
  - apply cleanupProcess_evolves.
  - apply close_evolves.
Qed.

Lemma perform_all_evolves l : forall w, evolves w (perform_all w l).
Proof.
  induction l as [| a l IH]; intros w; cbn; [apply evolves_refl |].
  eapply evolves_trans; [apply perform_evolves | apply IH].
Qed.

Lemma reachable_evolves host w : reachable host w -> evolves init w.
Proof.
  induction 1 as [| w o _ IH | w ev _ IH | w i _ IH | w _ IH].
  - apply evolves_refl.
  - eapply evolves_trans; [exact IH | apply launchServer_evolves].
  - eapply evolves_trans; [exact IH | apply (perform_evolves w (Deliver host ev))].
  - eapply evolves_trans; [exact IH | apply cleanupProcess_evolves].
  - eapply evolves_trans; [exact IH | apply close_evolves].
Qed.

(** ** The bookkeeping invariant *)

Lemma settle_keeps_settles p s ps q s0 :
  ps !! q = Some (Settles s0) -> exists s1, settle p s ps !! q = Some (Settles s1).
Proof.
  intros H. unfold settle. destruct (ps !! p) as [[[] |] |] eqn:E; eauto.
  destruct (decide (p = q)) as [-> | Hne].
  - rewrite list_lookup_insert_eq by (eapply lookup_lt_Some; eauto). eauto.
  - rewrite list_lookup_insert_ne by done. eauto.
Qed.

Lemma settle_follows_inv p s ps q inner :
  settle p s ps !! q = Some (Follows inner) -> ps !! q = Some (Follows inner).
Proof.
  unfold settle. destruct (ps !! p) as [[[] |] |] eqn:E; auto.
  intros H. apply list_lookup_insert_Some in H as [(-> & ? & _) | (_ & ?)]; [done | done].
Qed.

Lemma well_formed_init : well_formed init.
Proof. split; cbn; intros; try done; try (by rewrite lookup_empty in *). Qed.

Lemma well_formed_mutation w w' : well_formed w -> mutation w w' -> well_formed w'.
Proof.
  intros W M. destruct W as [Wp Wl Wf Wc Wd Wi Wr Wh].
  destruct M as [w i p Hl | w o hw Hl Hhw | w p s | w h c c' Hc Hs | w h c Hc Hr | w i | w].
  - (* a follower is appended *)
    destruct (Wl _ _ Hl) as [s0 Hs0].
    split; cbn; auto.
    + intros i0 p0 H. destruct (Wl _ _ H) as [s1 ?]. exists s1. by apply lookup_app_l_Some.
    + intros q p0 H. apply lookup_snoc_Some in H as [[_ H] | [_ [= <-]]].
      * destruct (Wf _ _ H) as [s1 ?]. exists s1. by apply lookup_app_l_Some.
      * exists s0. by apply lookup_app_l_Some.
    + intros h c H. destruct (Wc _ _ H) as [s1 ?]. exists s1. by apply lookup_app_l_Some.
  - (* a process is started *)
    split; cbn.
    + intros i h H. apply lookup_insert_Some in H as [[<- <-] | [Hne H]].
      * eexists. split; [by apply list_lookup_middle |]. cbn. split; [done |].
        apply lookup_insert_eq.
      * destruct (Wp _ _ H) as (c & ? & ? & ?). exists c.
        split; [by apply lookup_app_l_Some |]. split; [done |].
        by rewrite lookup_insert_ne.
    + intros i p H. apply lookup_insert_Some in H as [[<- <-] | [_ H]].
      * eexists. by apply list_lookup_middle.
      * destruct (Wl _ _ H) as [s1 ?]. exists s1. by apply lookup_app_l_Some.
    + intros q p H. apply lookup_snoc_Some in H as [[_ H] | [_ ?]]; [| done].
      destruct (Wf _ _ H) as [s1 ?]. exists s1. by apply lookup_app_l_Some.
    + intros h c H. apply lookup_snoc_Some in H as [[_ H] | [_ <-]].
      * destruct (Wc _ _ H) as [s1 ?]. exists s1. by apply lookup_app_l_Some.
      * cbn. eexists. by apply list_lookup_middle.
    + intros i. rewrite !lookup_insert_None. specialize (Wd i). tauto.
    + intros h1 h2 c1 c2 H1 H2 E.
      apply lookup_snoc_Some in H1 as [[L1 H1] | [-> <-]];
        apply lookup_snoc_Some in H2 as [[L2 H2] | [-> <-]]; cbn in E.
      * eauto.
      * destruct (Wc _ _ H1) as [s1 C1]. apply lookup_lt_Some in C1. lia.
      * destruct (Wc _ _ H2) as [s2 C2]. apply lookup_lt_Some in C2. lia.
      * done.
    + intros i o0 H. destruct (Wr _ _ H) as (h & c & ? & ?). exists h, c.
      split; [by apply lookup_app_l_Some | done].
    + intros h c H. exists hw. split; [done |].
      apply lookup_snoc_Some in H as [[_ H] | [_ <-]]; [| done].
      destruct (Wh _ _ H) as (hw0 & Hc0 & ->). by rewrite (Hhw _ Hc0).
  - (* a promise is settled *)
    split; cbn; auto.
    + intros i p0 H. destruct (Wl _ _ H) as [s1 ?]. by eapply settle_keeps_settles.
    + intros q p0 H. apply settle_follows_inv in H. destruct (Wf _ _ H) as [s1 ?].
      by eapply settle_keeps_settles.
    + intros h c H. destruct (Wc _ _ H) as [s1 ?]. by eapply settle_keeps_settles.
  - (* a child record is updated in place *)
    destruct Hs as (Sa & Si & So & Ss & Sr).
    assert (Old : forall h2 c2, <[h := c']> (children w) !! h2 = Some c2 ->
              exists c0, children w !! h2 = Some c0 /\ same_process c0 c2).
    { intros h2 c2 H. apply list_lookup_insert_Some in H as [(<- & <- & _) | (_ & H)].
      - exists c. by repeat split.
      - exists c2. by repeat split. }
    split; cbn; auto.
    + intros i h0 H. destruct (Wp _ _ H) as (c0 & Hc0 & Hi & Hp).
      destruct (decide (h0 = h)) as [-> | Hne].
      * exists c'. split; [apply list_lookup_insert_eq; by eapply lookup_lt_Some |].
        assert (c0 = c) by congruence. subst c0. by rewrite Si, Ss.
      * exists c0. split; [by rewrite list_lookup_insert_ne | done].
    + intros h2 c2 H. destruct (Old _ _ H) as (c0 & H0 & (_ & _ & _ & E & _)).
      rewrite E. eauto.
    + intros h1 h2 c1 c2 H1 H2 E.
      destruct (Old _ _ H1) as (d1 & D1 & (_ & _ & _ & E1 & _)).
      destruct (Old _ _ H2) as (d2 & D2 & (_ & _ & _ & E2 & _)).
      eapply Wi; eauto. congruence.
    + intros i o H. destruct (Wr _ _ H) as (h0 & c0 & Hc0 & Hi & Ho & Hr).
      destruct (decide (h0 = h)) as [-> | Hne].
      * exists h, c'. split; [apply list_lookup_insert_eq; by eapply lookup_lt_Some |].
        assert (c0 = c) by congruence. subst c0. repeat split; try congruence. auto.
      * exists h0, c0. split; [by rewrite list_lookup_insert_ne | done].
    + intros h2 c2 H. destruct (Old _ _ H) as (c0 & H0 & (Ea & _ & Eo & _ & _)).
      destruct (Wh _ _ H0) as (hw & Hp & Hq). exists hw. split; [done |].
      rewrite Ea, Eo. exact Hq.
  - (* the options of a ready child are retained *)
    split; cbn; auto.
    intros i o H. apply lookup_insert_Some in H as [[<- <-] | [_ H]]; [| by eauto].
    exists h, c. by repeat split.
  - (* an id is forgotten *)
    split; cbn; auto.
    + intros i0 h H. apply lookup_delete_Some in H as [Hne H].
      destruct (Wp _ _ H) as (c & ? & ? & ?). exists c. repeat split; try done.
      by rewrite lookup_delete_ne.
    + intros i0 p H. apply lookup_delete_Some in H as [_ H]. eauto.
    + intros i0. rewrite !lookup_delete_None. specialize (Wd i0). tauto.
  - (* all ids are forgotten *)
    split; cbn; auto; intros; by rewrite lookup_empty in *.
Qed.

Lemma well_formed_evolves w w' : well_formed w -> evolves w w' -> well_formed w'.
Proof.
  intros W E. induction E as [| w1 w2 w3 _ IH M]; [done |].
  eapply well_formed_mutation; [apply IH; exact W | exact M].
Qed.

Lemma reachable_well_formed host w : reachable host w -> well_formed w.
Proof.
  intros R. eapply well_formed_evolves; [apply well_formed_init |].
  by eapply reachable_evolves.
Qed.

Lemma perform_all_well_formed l w : well_formed w -> well_formed (perform_all w l).
Proof. intros W. eapply well_formed_evolves; [exact W | apply perform_all_evolves]. Qed.

End Bookkeeping.

(* ===================================================================== *)
(** * What the supervisor keeps, and what it never does                    *)
(* ===================================================================== *)

Section Sessions.
Import LlamaServer.





(** X2.  A session with a registered process is never launched a second
    time.  In every reachable state, [launchServer] for an id that has a
    process in [processes] (still loading, or long since ready) finds the
    in-flight record of that very process, starts nothing, changes none of
    the three maps, ignores the options it was given, and hands out a
    promise that observes the launch outcome of the registered process. *)
Theorem registered_session_is_not_relaunched host w o h :
  reachable host w -> processes w !! id o = Some h ->
  exists c,
    children w !! h = Some c /\ for_id c = id o /\
    loading w !! id o = Some (settles c) /\
    children (fst (launchServer host w o)) = children w /\
    processes (fst (launchServer host w o)) = processes w /\
    loading (fst (launchServer host w o)) = loading w /\
    launchOptions (fst (launchServer host w o)) = launchOptions w /\
    outcome (fst (launchServer host w o)) (snd (launchServer host w o))
    = outcome w (settles c) /\
    outcome w (settles c) <> None.
Proof.
  intros R Hp. pose proof (reachable_well_formed host w R) as W.
  destruct (wf_process w W _ _ Hp) as (c & Hc & Hi & Hl).
  destruct (wf_child w W _ _ Hc) as [s Hs].
  assert (E : launchServer host w o = async_return w (settles c))
    by (unfold launchServer; by rewrite Hl).
  exists c. rewrite E. cbn [fst snd async_return].
  split; [done |]. split; [done |]. split; [done |].
  split; [done |]. split; [done |]. split; [done |]. split; [done |].
  unfold outcome. cbn. rewrite lookup_app_r by lia. rewrite Nat.sub_diag. cbn.
  rewrite (lookup_app_l_Some _ _ _ _ Hs). by rewrite Hs.
Qed.


Lemma mutation_profile_stable w w' hw :
  mutation w w' -> hardwareProfile w = Some hw -> hardwareProfile w' = Some hw.
Proof.
  intros M H.
  destruct M as [w i p0 Hl | w o hw1 Hl Hhw | w p0 s | w h c c' Hc Hs | w h c Hc Hr | w i | w];
    cbn; try done.
  by rewrite (Hhw _ H).
Qed.

Lemma evolves_profile_stable w w' hw :
  evolves w w' -> hardwareProfile w = Some hw -> hardwareProfile w' = Some hw.
Proof.
  intros E. induction E as [| w1 w2 w3 _ IH M]; [done |].
  intros H. eapply mutation_profile_stable; eauto.
Qed.

(** X4.  The supervisor configures every process from one hardware
    snapshot.  Whatever the probes of the machine answer at later
    launches and restarts, the cached profile, once there, is never
    replaced by any operation of the manager; and in every state of a
    session that started from the empty manager each child process was
    given the arguments [launch_args] computes from its own options and
    that one cached profile. *)
Theorem launches_share_one_hardware_snapshot l :
  (forall w hw, hardwareProfile w = Some hw ->
                hardwareProfile (perform_all w l) = Some hw) /\
  (forall h c, children (perform_all init l) !! h = Some c ->
     exists hw, hardwareProfile (perform_all init l) = Some hw /\
                spawnargs c = launch_args (for_options c) (Hardware.recommended hw)).
Proof.
  split.
  - intros w hw H. eapply evolves_profile_stable; eauto using perform_all_evolves.
  - intros h c H.
    by apply (wf_profile _ (perform_all_well_formed l init well_formed_init) h c).
Qed.

End Sessions.

Section Isolation.
Import LlamaServer.

Lemma with_children_id w : with_children (fun cs => cs) w = w.
Proof. by destruct w. Qed.

Lemma on_close_unknown host h code signal w :
  children w !! h = None -> on_close host h code signal w = w.
Proof.
  intros Hc. unfold on_close.
  assert (E : with_children (fun cs => match cs !! h with
                                       | Some c => <[h := mark_exited c]> cs
                                       | None => cs
                                       end) w = w)
    by (unfold with_children; rewrite Hc; by destruct w).
  rewrite E. unfold execFile_callback. rewrite Hc.
  assert (E2 : match execFile_error code signal with
               | Some _ => w
               | None => w
               end = w) by (by destruct (execFile_error code signal)).
  rewrite E2. unfold close_listener. by rewrite Hc.
Qed.

(** The cells of the other children and promises after a 'close'. *)
Lemma on_close_frame host h' code signal w c' :
  children w !! h' = Some c' ->
  (forall h, h <> h' -> (h < length (children w))%nat ->
     children (on_close host h' code signal w) !! h = children w !! h) /\
  (forall p, p <> settles c' -> (p < length (promises w))%nat ->
     promises (on_close host h' code signal w) !! p = promises w !! p).
Proof.
  intros Hc. unfold on_close.
  set (w0 := with_children _ w).
  assert (C0 : children w0 = <[h' := mark_exited c']> (children w))
    by (subst w0; unfold with_children; cbn; by rewrite Hc).
  assert (P0 : promises w0 = promises w) by done.
  assert (H0 : children w0 !! h' = Some (mark_exited c')).
  { rewrite C0. apply list_lookup_insert_eq. by eapply lookup_lt_Some. }
  set (w1 := execFile_callback h' _ w0).
  assert (C1 : children w1 = children w0).
  { subst w1. unfold execFile_callback. rewrite H0.
    by destruct (execFile_error code signal). }
  assert (P1 : forall p, p <> settles c' -> promises w1 !! p = promises w !! p).
  { intros p Hp. subst w1. unfold execFile_callback. rewrite H0.
    destruct (execFile_error code signal); [| done]. cbn. by rewrite settle_other. }
  assert (L1 : length (promises w1) = length (promises w)).
  { subst w1. unfold execFile_callback. rewrite H0.
    destruct (execFile_error code signal); [| done]. cbn. by rewrite settle_length. }
  unfold close_listener. rewrite C1, H0. cbn [for_id mark_exited].
  set (w2 := with_loading _ _).
  assert (C2 : children w2 = children w0) by (subst w2; cbn; exact C1).
  assert (P2 : promises w2 = promises w1) by done.
  assert (Frame : forall w3, (exists t, children w3 = children w2 ++ t) ->
            (exists t, promises w3 = promises w2 ++ t) ->
            (forall h, h <> h' -> (h < length (children w))%nat ->
               children w3 !! h = children w !! h) /\
            (forall p, p <> settles c' -> (p < length (promises w))%nat ->
               promises w3 !! p = promises w !! p)).
  { intros w3 [t Ct] [u Pu]. split.
    - intros h Hne Hlt. rewrite Ct, C2, C0.
      rewrite lookup_app_l by (by rewrite length_insert).
      by rewrite list_lookup_insert_ne.
    - intros p Hne Hlt. rewrite Pu, P2.
      rewrite lookup_app_l by lia. by apply P1. }
  assert (Same : (exists t, children w2 = children w2 ++ t) /\
                 (exists t, promises w2 = promises w2 ++ t))
    by (split; exists []; by rewrite app_nil_r).
  destruct Same as [Sc Sp].
  destruct (decide (signal = Some "SIGSEGV")); [| apply Frame; assumption].
  destruct (launchOptions w2 !! for_id c') as [o |]; [| apply Frame; assumption].
  apply Frame.
  - destruct (launchServer_children host w2 o) as (t & Ht & _). by exists t.
  - apply launchServer_promises.
Qed.

(** X5.  Sessions do not interfere through process events.  In every
    reachable state, an event of one child process (stdout data, or its
    exit) leaves the record of every other child process as it was (its
    readiness subscription, the signals it received, its exit status)
    and does not touch the launch promise of that other process. *)
Theorem events_of_one_process_leave_the_others host w h c ev :
  reachable host w -> children w !! h = Some c -> event_process ev <> h ->
  children (step host w ev) !! h = Some c /\
  promises (step host w ev) !! settles c = promises w !! settles c.
Proof.
  intros R Hc Hne. pose proof (reachable_well_formed host w R) as W.
  destruct ev as [h' data | h' code signal]; cbn in Hne; cbn [step].
  - destruct (on_stdout_data_spec h' data w) as [-> | (c' & Hc' & ->)]; [done |].
    split.
    + unfold on_ready. rewrite Hc'. cbn. by rewrite list_lookup_insert_ne.
    + rewrite (on_ready_promises _ _ _ Hc'). apply settle_other.
      intros E. apply Hne. by eapply (wf_distinct w W h' h c' c).
  - destruct (children w !! h') as [c' |] eqn:Hc'.
    + destruct (on_close_frame host h' code signal w c' Hc') as [Fc Fp].
      destruct (wf_child w W _ _ Hc) as [s Hs].
      split.
      * rewrite Fc; [done | congruence |]. by eapply lookup_lt_Some.
      * apply Fp; [| by eapply lookup_lt_Some].
        intros E. apply Hne. by eapply (wf_distinct w W h' h c' c).
    + by rewrite on_close_unknown.
Qed.

Lemma cleanupProcess_registered w i h c :
  processes w !! i = Some h -> children w !! h = Some c ->
  cleanupProcess w i
  = with_loading (delete i) (with_processes (delete i)
      (with_children (fun cs => <[h := terminated c]> cs) w)).
Proof.
  intros Hp Hc.
  unfold cleanupProcess. rewrite Hp. unfold kill, terminated. rewrite Hc.
  destruct (exited c) eqn:He; [| done].
  rewrite Hc, He. unfold with_loading, with_processes, with_children; cbn.
  by rewrite list_insert_id.
Qed.

(** X6.  [cleanupProcess] signals the registered process once, with
    SIGTERM.  For a registered id the operation delivers one SIGTERM to
    the registered child when it is still running and nothing when it has
    exited; the SIGKILL of the fallback is never delivered, because
    [kill] only fails for a process that is gone.  It removes the id from
    [processes] and [loading], leaves every promise, the retained options
    and the hardware cache alone (a launch that is still pending stays
    pending), and a second call for the same id changes nothing. *)
Theorem cleanupProcess_signals_once w i h c :
  processes w !! i = Some h -> children w !! h = Some c ->
  children (cleanupProcess w i) = <[h := terminated c]> (children w) /\
  processes (cleanupProcess w i) = delete i (processes w) /\
  loading (cleanupProcess w i) = delete i (loading w) /\
  promises (cleanupProcess w i) = promises w /\
  launchOptions (cleanupProcess w i) = launchOptions w /\
  hardwareProfile (cleanupProcess w i) = hardwareProfile w /\
  cleanupProcess (cleanupProcess w i) i = cleanupProcess w i.
Proof.
  intros Hp Hc. rewrite (cleanupProcess_registered w i h c Hp Hc).
  cbn. repeat (split; [done |]).
  unfold cleanupProcess. cbn. by rewrite lookup_delete_eq.
Qed.

(** The children after the loop of [close], for entries with distinct
    handles. *)
Lemma kill_all_children (es : list (string * nat)) w h c :
  NoDup es.*2 -> children w !! h = Some c ->
  children (foldr (fun entry acc => snd (kill (snd entry) "SIGTERM" acc)) w es) !! h
  = Some (if decide (h ∈ es.*2) then terminated c else c).
Proof.
  intros ND Hc. induction es as [| [i h'] es IH]; cbn.
  - rewrite decide_False; [done | apply not_elem_of_nil].
  - set (w' := foldr _ w es) in *. cbn in ND.
    apply NoDup_cons in ND as [Hnin ND]. specialize (IH ND).
    destruct (decide (h' = h)) as [-> | Hne].
    + rewrite decide_True by apply list_elem_of_here.
      rewrite decide_False in IH by done.
      unfold kill. rewrite IH. unfold terminated.
      destruct (exited c); cbn; [done |].
      apply list_lookup_insert_eq. by eapply lookup_lt_Some.
    + assert (K : children (snd (kill h' "SIGTERM" w')) !! h = children w' !! h).
      { unfold kill. destruct (children w' !! h') as [c' |]; [| done].
        destruct (exited c'); [done |]. cbn. by rewrite list_lookup_insert_ne. }
      rewrite K, IH.
      destruct (decide (h ∈ es.*2)) as [Hin | Hin].
      * rewrite decide_True; [done | by apply list_elem_of_further].
      * rewrite decide_False; [done |].
        intros [E | E]%elem_of_cons; [congruence | done].
Qed.

Lemma registered_handles_distinct w :
  well_formed w -> NoDup (map_to_list (processes w)).*2.
Proof.
  intros W. apply NoDup_fmap_2_strong; [| apply NoDup_map_to_list].
  intros [i1 h1] [i2 h2] H1 H2 E. cbn in E. subst h2.
  apply elem_of_map_to_list in H1, H2.
  destruct (wf_process w W _ _ H1) as (c1 & Hc1 & Hi1 & _).
  destruct (wf_process w W _ _ H2) as (c2 & Hc2 & Hi2 & _).
  congruence.
Qed.

Lemma close_children w h c :
  well_formed w -> children w !! h = Some c ->
  children (close w) !! h
  = Some (if decide (processes w !! for_id c = Some h) then terminated c else c).
Proof.
  intros W Hc. unfold close. cbn.
  rewrite (kill_all_children _ w h c (registered_handles_distinct w W) Hc).
  f_equal. destruct (decide (h ∈ (map_to_list (processes w)).*2)) as [Hin | Hin].
  - rewrite decide_True; [done |].
    apply list_elem_of_fmap in Hin as ([i h0] & -> & Hin). cbn.
    apply elem_of_map_to_list in Hin.
    destruct (wf_process w W _ _ Hin) as (c0 & Hc0 & Hi0 & _). cbn in *.
    rewrite Hc in Hc0. injection Hc0 as <-. by rewrite Hi0.
  - rewrite decide_False; [done |]. intros Hreg. apply Hin.
    apply list_elem_of_fmap. exists (for_id c, h). split; [done |].
    by apply elem_of_map_to_list.
Qed.

(** X7.  [close] sends SIGTERM to every registered process, once.  In
    every reachable state, [close()] delivers exactly one SIGTERM to each
    child that is registered in [processes] and still running, sends
    nothing to the processes that are not registered (earlier, replaced
    or cleaned-up ones) or have exited, and empties [processes] and
    [loading].  It settles no promise and keeps the retained options. *)
Theorem close_signals_every_registered_process host w :
  reachable host w ->
  processes (close w) = ∅ /\ loading (close w) = ∅ /\
  promises (close w) = promises w /\ launchOptions (close w) = launchOptions w /\
  forall h c, children w !! h = Some c ->
    children (close w) !! h
    = Some (if decide (processes w !! for_id c = Some h) then terminated c else c).
Proof.
  intros R. pose proof (reachable_well_formed host w R) as W.
  destruct (kill_all_maps (map_to_list (processes w)) w) as (Ho & Hp & _).
  split; [done |]. split; [done |]. split; [exact Hp |]. split; [exact Ho |].
  intros h c Hc. by apply close_children.
Qed.

End Isolation.

Section Restarts.
Import LlamaServer.

Lemma mutation_children_extend w w' k c :
  mutation w w' -> children w !! k = Some c ->
  exists c', children w' !! k = Some c' /\ same_process c c'.
Proof.
  intros M H.
  assert (Refl : same_process c c) by (by repeat split).
  destruct M as [w i p0 Hl | w o hw1 Hl Hhw | w p0 s | w h c0 c' Hc Hs | w h c0 Hc Hr | w i | w];
    cbn; eauto.
  - exists c. split; [by apply lookup_app_l_Some | done].
  - destruct (decide (h = k)) as [-> | Hne].
    + exists c'. split; [apply list_lookup_insert_eq; by eapply lookup_lt_Some |].
      congruence.
    + exists c. split; [by rewrite list_lookup_insert_ne | done].
Qed.

Lemma evolves_children_extend w w' k c :
  evolves w w' -> children w !! k = Some c ->
  exists c', children w' !! k = Some c' /\ same_process c c'.
Proof.
  intros E. revert c. induction E as [| w1 w2 w3 _ IH M]; intros c H.
  - exists c. split; [done | by repeat split].
  - destruct (IH _ H) as (c1 & H1 & S1).
    destruct (mutation_children_extend _ _ _ _ M H1) as (c2 & H2 & S2).
    exists c2. split; [done |].
    destruct S1 as (A1 & B1 & C1 & D1 & E1), S2 as (A2 & B2 & C2 & D2 & E2).
    repeat split; try congruence. auto.
Qed.

(** One segmentation fault of the registered process of a session whose
    options are retained. *)
Lemma crash_step host w i o h :
  reachable host w -> launchOptions w !! i = Some o -> processes w !! i = Some h ->
  reachable host (crash host i w) /\
  launchOptions (crash host i w) = launchOptions w /\
  processes (crash host i w) !! i = Some (length (children w)) /\
  length (children (crash host i w)) = S (length (children w)) /\
  exists c, children (crash host i w) !! length (children w) = Some c /\
            for_id c = i /\ for_options c = o.
Proof.
  intros R Ho Hp. pose proof (reachable_well_formed host w R) as W.
  destruct (wf_process w W _ _ Hp) as (c & Hc & Hi & _).
  destruct (reachable_consistent host w R) as [Hm _].
  assert (Hid : id o = i) by (by apply (Hm i o)).
  assert (E : crash host i w = step host w (Close h None (Some "SIGSEGV")))
    by (unfold crash; by rewrite Hp).
  split; [rewrite E; by apply reachable_event |].
  unfold crash. rewrite Hp.
  destruct (on_close_unfold host w h c None (Some "SIGSEGV") Hc)
    as (w2 & C2 & P2 & O2 & R2 & L2 & _ & ->).
  rewrite decide_True by done. rewrite Hi, Ho.
  assert (Hl : loading w2 !! id o = None) by (rewrite L2, Hi, Hid; apply lookup_delete_eq).
  destruct (launchServer_fresh host w2 o Hl) as (hw & _ & ->). cbn.
  assert (Len : length (children w2) = length (children w))
    by (rewrite C2; apply length_insert).
  rewrite Len, Hid. split; [done |]. split; [apply lookup_insert_eq |].
  split; [rewrite length_app, Len; cbn; lia |].
  eexists. split; [rewrite <- Len; by apply list_lookup_middle | done].
Qed.

(** X8.  A session that was ready once is restarted after every
    segmentation fault, without limit.  From every reachable state in
    which options are retained for an id with a registered process, [n]
    successive SIGSEGV exits of the process registered at the time (the
    restarted process need not become ready in between) start [n] new
    processes, all for the same id and from the same retained options; the
    options stay retained and a process stays registered.  The manager
    has no restart counter and no back-off. *)
Theorem segfault_restarts_have_no_limit host w i o h n :
  reachable host w -> launchOptions w !! i = Some o -> processes w !! i = Some h ->
  length (children (Nat.iter n (crash host i) w)) = (length (children w) + n)%nat /\
  launchOptions (Nat.iter n (crash host i) w) !! i = Some o /\
  (exists h', processes (Nat.iter n (crash host i) w) !! i = Some h') /\
  forall k, (k < n)%nat ->
    exists c, children (Nat.iter n (crash host i) w) !! (length (children w) + k)%nat = Some c /\
              for_id c = i /\ for_options c = o.
Proof.
  intros R Ho Hp.
  assert (G : reachable host (Nat.iter n (crash host i) w) /\
              length (children (Nat.iter n (crash host i) w)) = (length (children w) + n)%nat /\
              launchOptions (Nat.iter n (crash host i) w) !! i = Some o /\
              (exists h', processes (Nat.iter n (crash host i) w) !! i = Some h') /\
              forall k, (k < n)%nat ->
                exists c, children (Nat.iter n (crash host i) w)
                            !! (length (children w) + k)%nat = Some c /\
                          for_id c = i /\ for_options c = o);
    [| tauto].
  induction n as [| n (Rn & Ln & On & (hn & Pn) & Cn)].
  - cbn. split; [done |]. split; [lia |]. split; [done |]. split; [by exists h |].
    intros k Hk. lia.
  - rewrite !Nat.iter_succ. set (wn := Nat.iter n (crash host i) w) in *.
    destruct (crash_step host wn i o hn Rn On Pn) as (R' & O' & P' & L' & (c & Hc & Hi & Hoc)).
    split; [done |]. split; [lia |]. split; [by rewrite O' |]. split; [by eexists |].
    intros k Hk. destruct (decide (k = n)) as [-> | Hne].
    + exists c. rewrite <- Ln. done.
    + destruct (Cn k ltac:(lia)) as (ck & Hck & Hik & Hok).
      assert (E : crash host i wn = step host wn (Close hn None (Some "SIGSEGV")))
        by (unfold crash; by rewrite Pn).
      destruct (evolves_children_extend wn (crash host i wn)
                  (length (children w) + k)%nat ck) as (c' & Hc' & S');
        [rewrite E;
         apply (perform_evolves wn (Deliver host (Close hn None (Some "SIGSEGV"))))
        | exact Hck |].
      exists c'. destruct S' as (_ & Si & So & _). split; [done |]. split; congruence.
Qed.

(** X9.  The 'close' listener removes the entries of its id, whichever
    process they belong to.  When a registered process is cleaned up and
    the session is launched again before the old process has emitted
    'close', the late 'close' of the old process (any exit other than a
    SIGSEGV) deletes the [processes] and [loading] entries of the new
    process.  The new process is then running but unknown to the manager:
    neither [close()] nor [cleanupProcess(id)] sends it a signal. *)
Theorem late_close_unregisters_the_successor host w o h c code signal :
  reachable host w -> processes w !! id o = Some h -> children w !! h = Some c ->
  signal <> Some "SIGSEGV" ->
  let w2 := fst (launchServer host (cleanupProcess w (id o)) o) in
  let w3 := on_close host h code signal w2 in
  let successor := length (children w) in
  processes w2 !! id o = Some successor /\
  processes w3 !! id o = None /\ loading w3 !! id o = None /\
  exists c2, children w3 !! successor = Some c2 /\
             for_id c2 = id o /\ exited c2 = false /\ kill_signals c2 = [] /\
             children (close w3) !! successor = Some c2 /\
             children (cleanupProcess w3 (id o)) !! successor = Some c2.
Proof.
  intros R Hp Hc Hsig. cbv zeta.
  pose proof (reachable_well_formed host w R) as W.
  destruct (wf_process w W _ _ Hp) as (c0 & Hc0 & Hi & _).
  assert (c0 = c) by congruence. subst c0.
  assert (R1 : reachable host (cleanupProcess w (id o))) by (by apply reachable_cleanup).
  assert (R2 : reachable host (fst (launchServer host (cleanupProcess w (id o)) o)))
    by (by apply reachable_launch).
  assert (R3 : reachable host (on_close host h code signal
                                 (fst (launchServer host (cleanupProcess w (id o)) o))))
    by (apply (reachable_event host _ (Close h code signal)); exact R2).
  revert R2 R3.
  rewrite (cleanupProcess_registered w (id o) h c Hp Hc).
  set (w1 := with_loading _ _).
  assert (Hl : loading w1 !! id o = None) by (subst w1; cbn; apply lookup_delete_eq).
  assert (Len : length (children w1) = length (children w))
    by (subst w1; cbn; apply length_insert).
  destruct (launchServer_fresh host w1 o Hl) as (hw & _ & ->). cbn [fst].
  rewrite Len.
  set (c2 := {| spawnargs := launch_args o (Hardware.recommended hw); for_id := id o;
                for_options := o; settles := length (promises w1);
                readiness_handler := true; kill_signals := []; exited := false |}).
  set (w2 := Build_World _ _ _ _ _ _).
  intros R2 R3.
  assert (Hlt : (h < length (children w))%nat) by (by eapply lookup_lt_Some).
  assert (H2 : children w2 !! h = Some (terminated c)).
  { subst w2 w1. cbn. rewrite lookup_app_l by (by rewrite length_insert).
    by apply list_lookup_insert_eq. }
  assert (S2 : children w2 !! length (children w) = Some c2).
  { subst w2. cbn. rewrite <- Len. by apply list_lookup_middle. }
  assert (Ft : for_id (terminated c) = id o)
    by (unfold terminated; destruct (exited c); done).
  destruct (on_close_unfold host w2 h (terminated c) code signal H2)
    as (w3 & C3 & _ & _ & P3 & L3 & _ & E3).
  rewrite decide_False in E3 by done.
  rewrite E3 in R3 |- *. rewrite Ft in P3, L3.
  assert (S3 : children w3 !! length (children w) = Some c2).
  { rewrite C3. rewrite list_lookup_insert_ne by lia. exact S2. }
  assert (N3 : processes w3 !! id o = None) by (rewrite P3; apply lookup_delete_eq).
  split; [subst w2; cbn; apply lookup_insert_eq |].
  split; [exact N3 |].
  split; [rewrite L3; apply lookup_delete_eq |].
  exists c2. split; [exact S3 |]. split; [done |]. split; [done |]. split; [done |].
  split.
  - rewrite (close_children w3 _ c2 (reachable_well_formed host w3 R3) S3).
    rewrite decide_False; [done |]. cbn. by rewrite N3.
  - unfold cleanupProcess. by rewrite N3.
Qed.

End Restarts.

Section Stream.
Import JsString LlamaServer Readiness.

Lemma string_app_cons c (a b : string) : String c a +:+ b = String c (a +:+ b).
Proof. reflexivity. Qed.

Lemma string_app_assoc (a b c : string) : (a +:+ b) +:+ c = a +:+ (b +:+ c).
Proof.
  induction a as [| x a IH]; [done |]. rewrite !string_app_cons. by rewrite IH.
Qed.

Lemma string_app_empty_r (a : string) : a +:+ "" = a.
Proof. induction a as [| x a IH]; [done |]. rewrite string_app_cons. by rewrite IH. Qed.

Lemma split_lines_nonempty s : split_lines s <> [].
Proof.
  destruct s as [| c s]; cbn; [done |].
  destruct (Ascii.eqb c "010"); [done |]. by destruct (split_lines s).
Qed.

(** Splitting distributes over a line feed. *)
Lemma split_lines_app_newline a b :
  split_lines (a +:+ String "010" b) = split_lines a ++ split_lines b.
Proof.
  induction a as [| c a IH]; [done |].
  change (String c a +:+ String "010" b) with (String c (a +:+ String "010" b)).
  cbn [split_lines].
  destruct (Ascii.eqb c "010"); [by rewrite IH |].
  rewrite IH. pose proof (split_lines_nonempty a) as Hne.
  by destruct (split_lines a).
Qed.

Lemma chunk_announces_ready_aligned body :
  chunk_announces_ready (body +:+ Examples.newline)
  = existsb line_is_sentinel (split_lines body).
Proof.
  unfold chunk_announces_ready, Examples.newline.
  rewrite split_lines_app_newline, existsb_app. cbn. by rewrite !orb_false_r.
Qed.

Lemma spec_complete_lines_aligned body chunks :
  spec_complete_lines ((body +:+ Examples.newline) :: chunks)
  = split_lines body ++ spec_complete_lines chunks.
Proof.
  unfold spec_complete_lines, Examples.newline. cbn [fold_right].
  rewrite string_app_assoc.
  change (String "010" "" +:+ fold_right String.append "" chunks)
    with (String "010" (fold_right String.append "" chunks)).
  rewrite split_lines_app_newline.
  apply removelast_app, split_lines_nonempty.
Qed.

Lemma aligned_chunks_agree chunks :
  Forall line_aligned chunks ->
  existsb chunk_announces_ready chunks = spec_sentinel_arrived chunks.
Proof.
  induction 1 as [| chunk chunks [body ->] _ IH]; [done |].
  unfold spec_sentinel_arrived in *. cbn [existsb].
  by rewrite chunk_announces_ready_aligned, spec_complete_lines_aligned, existsb_app, IH.
Qed.

(** What the caller of a launch that started a process observes after
    stdout chunks of that process. *)
Lemma launch_outcome_after_stdout host w o chunks :
  loading w !! id o = None ->
  outcome (run host (fst (launchServer host w o))
             (stdout_events (length (children w)) chunks))
          (snd (launchServer host w o))
  = Some (if existsb chunk_announces_ready chunks then Fulfilled else Pending).
Proof.
  intros Hl. destruct (launchServer_fresh host w o Hl) as (hw & _ & ->).
  cbn [fst snd].
  match goal with |- context [run host ?W _] => set (w1 := W) end.
  assert (Hc : exists child, children w1 !! length (children w) = Some child /\
                             settles child = length (promises w) /\
                             readiness_handler child = true)
    by (eexists; split; [subst w1; cbn; by apply list_lookup_middle | done]).
  destruct Hc as (child & Hc & Hs & Hr).
  assert (Hp : promises w1 !! length (promises w) = Some (Settles Pending)).
  { subst w1; cbn. rewrite lookup_app_l by (rewrite length_app; cbn; lia).
    by apply list_lookup_middle. }
  assert (Hq : promises w1 !! S (length (promises w))
               = Some (Follows (length (promises w)))).
  { subst w1; cbn. rewrite lookup_app_r by (rewrite length_app; cbn; lia).
    rewrite length_app; cbn.
    by replace (S (length (promises w)) - (length (promises w) + 1))%nat with 0%nat by lia. }
  rewrite (run_stdout_subscribed host _ child chunks w1 Hc Hr).
  destruct (existsb chunk_announces_ready chunks).
  - eapply outcome_follows; rewrite (on_ready_promises _ _ _ Hc), Hs.
    + apply settle_follows. exact Hq.
    + apply settle_pending. exact Hp.
  - eapply outcome_follows; eauto.
Qed.

(** X10.  When every stdout chunk ends at a line boundary, readiness is
    decided as on the whole stream.  For a launch that starts a process
    and stdout chunks that each end with a line feed, some chunk contains
    the readiness record exactly when a complete line of the concatenated
    stream is the readiness record, and the launch outcome is fulfilled in
    that case and pending otherwise.  The per-chunk splitting of [handler]
    loses nothing as long as no line is cut by a chunk boundary. *)
Theorem line_aligned_chunks_are_decided_as_the_stream host w o chunks :
  loading w !! id o = None -> Forall line_aligned chunks ->
  existsb chunk_announces_ready chunks = spec_sentinel_arrived chunks /\
  outcome (run host (fst (launchServer host w o))
             (stdout_events (length (children w)) chunks))
          (snd (launchServer host w o))
  = Some (if spec_sentinel_arrived chunks then Fulfilled else Pending).
Proof.
  intros Hl Ha. split; [by apply aligned_chunks_agree |].
  rewrite <- (aligned_chunks_agree chunks Ha). by apply launch_outcome_after_stdout.
Qed.

End Stream.

(* ===================================================================== *)
(** * What the profiler reads from the probes                              *)
(* ===================================================================== *)

Section Numerals.
Import JsString.

Lemma is_digit_not_space c : is_digit c = true -> is_space c = false.
Proof. destruct c as [[] [] [] [] [] [] [] []]; by vm_compute. Qed.

(** ** Decimal numerals *)

Lemma string_of_uint_digits d : all_chars is_digit (NilEmpty.string_of_uint d) = true.
Proof. induction d; cbn [NilEmpty.string_of_uint all_chars]; by rewrite ?IHd. Qed.

Lemma digits_value_acc d : forall a,
  digits_value (Zpos a) (NilEmpty.string_of_uint d) = Zpos (Pos.of_uint_acc d a).
Proof.
  induction d; intros a; cbn [NilEmpty.string_of_uint digits_value Pos.of_uint_acc];
    [done | ..];
    match goal with
    | |- digits_value ?x _ = Zpos (Pos.of_uint_acc _ ?y) =>
        replace x with (Zpos y) by (vm_compute Z.of_nat; lia)
    end; apply IHd.
Qed.

Lemma digits_value_of_uint d :
  digits_value 0 (NilEmpty.string_of_uint d) = Z.of_N (Pos.of_uint d).
Proof.
  induction d; cbn [NilEmpty.string_of_uint digits_value Pos.of_uint];
    [done | exact IHd | ..];
    match goal with
    | |- digits_value ?x _ = Z.of_N (N.pos (Pos.of_uint_acc _ ?y)) =>
        change x with (Zpos y)
    end; apply digits_value_acc.
Qed.

Lemma digits_value_to_uint p :
  digits_value 0 (NilEmpty.string_of_uint (Pos.to_uint p)) = Zpos p.
Proof. by rewrite digits_value_of_uint, DecimalPos.Unsigned.of_to. Qed.

Lemma string_of_uint_nonempty p : NilEmpty.string_of_uint (Pos.to_uint p) <> "".
Proof.
  pose proof (DecimalPos.Unsigned.to_uint_nonnil p) as H.
  by destruct (Pos.to_uint p).
Qed.

(** ** [span_digits], [parseInt] and [trim] on well-formed input *)

(** [t] does not begin with a digit. *)
Lemma span_digits_app s t :
  all_chars is_digit s = true ->
  match t with String c _ => is_digit c = false | EmptyString => True end ->
  span_digits (s +:+ t) = (s, t).
Proof.
  intros Hs Ht. induction s as [| c s IH].
  - change ("" +:+ t) with t. destruct t as [| c t]; [done |].
    cbn [span_digits]. by rewrite Ht.
  - cbn [all_chars] in Hs. apply andb_true_iff in Hs as [Hc Hs].
    rewrite string_app_cons. cbn [span_digits]. by rewrite Hc, (IH Hs).
Qed.

Lemma parseInt_digits s t :
  all_chars is_digit s = true -> s <> "" ->
  match t with String c _ => is_digit c = false | EmptyString => True end ->
  parseInt (s +:+ t) = Some (digits_value 0 s).
Proof.
  intros Hs Hne Ht. unfold parseInt.
  destruct s as [| c s]; [done |]. clear Hne.
  pose proof (span_digits_app (String c s) t Hs Ht) as Hspan.
  cbn [all_chars] in Hs. apply andb_true_iff in Hs as [Hc Hs].
  rewrite string_app_cons in *. cbn [trimStart].
  rewrite (is_digit_not_space c Hc).
  assert (Sign : match String c (s +:+ t) with
                 | String "-" r => (true, r)
                 | String "+" r => (false, r)
                 | _ => (false, String c (s +:+ t))
                 end = (false, String c (s +:+ t))).
  { destruct c as [[] [] [] [] [] [] [] []]; try done; by vm_compute in Hc. }
  rewrite Sign, Hspan. done.
Qed.

Lemma parseInt_negative s t :
  all_chars is_digit s = true -> s <> "" ->
  match t with String c _ => is_digit c = false | EmptyString => True end ->
  parseInt (String "-" (s +:+ t)) = Some (- digits_value 0 s).
Proof.
  intros Hs Hne Ht. unfold parseInt. cbn [trimStart].
  change (is_space "-") with false. cbv iota.
  rewrite (span_digits_app s t Hs Ht). by destruct s.
Qed.

(** [parseInt] reads back the decimal numeral of an integer. *)
Lemma parseInt_Number_toString n : parseInt (Number_toString n) = Some n.
Proof.
  destruct n as [| p | p]; [done | |]; unfold Number_toString.
  - rewrite <- (string_app_empty_r (NilEmpty.string_of_uint (Pos.to_uint p))).
    rewrite parseInt_digits;
      [by rewrite digits_value_to_uint | apply string_of_uint_digits
      | apply string_of_uint_nonempty | done].
  - rewrite <- (string_app_empty_r (NilEmpty.string_of_uint (Pos.to_uint p))).
    rewrite parseInt_negative;
      [by rewrite digits_value_to_uint | apply string_of_uint_digits
      | apply string_of_uint_nonempty | done].
Qed.

Lemma Number_toString_inj m n : Number_toString m = Number_toString n -> m = n.
Proof.
  intros E. apply (f_equal parseInt) in E. rewrite !parseInt_Number_toString in E.
  by injection E.
Qed.

Lemma rev_string_rev s : forall a b,
  rev_string a (rev_string b s) = rev_string (s +:+ a) b.
Proof.
  induction s as [| c s IH]; intros a b; [done |].
  cbn [rev_string]. rewrite IH. by rewrite string_app_cons.
Qed.

Lemma rev_string_app a : forall acc b,
  rev_string acc (a +:+ b) = rev_string (rev_string acc a) b.
Proof.
  induction a as [| c a IH]; intros acc b; [done |].
  rewrite string_app_cons. cbn [rev_string]. apply IH.
Qed.

Lemma trimEnd_space s c : is_space c = true -> trimEnd (s +:+ String c "") = trimEnd s.
Proof.
  intros Hc. unfold trimEnd. rewrite rev_string_app. cbn [rev_string trimStart].
  by rewrite Hc.
Qed.

Lemma trimEnd_nonspace s d :
  is_space d = false -> trimEnd (s +:+ String d "") = s +:+ String d "".
Proof.
  intros Hd. unfold trimEnd.
  assert (R : rev_string "" (s +:+ String d "") = String d (rev_string "" s))
    by (by rewrite rev_string_app).
  rewrite R. cbn [trimStart]. rewrite Hd, <- R, rev_string_rev.
  cbn [rev_string]. apply string_app_empty_r.
Qed.

(** A line of output that neither begins nor ends with white space is
    what [trim] returns. *)
Lemma trim_line c rest body d :
  String c rest = body +:+ String d "" ->
  is_space c = false -> is_space d = false ->
  trim (String c rest +:+ Examples.newline) = String c rest.
Proof.
  intros E Hc Hd. unfold trim. rewrite string_app_cons. cbn [trimStart]. rewrite Hc.
  rewrite <- string_app_cons. unfold Examples.newline.
  rewrite trimEnd_space by done. rewrite E. by apply trimEnd_nonspace.
Qed.

Lemma last_char s p :
  s <> "" -> all_chars p s = true ->
  exists body d, s = body +:+ String d "" /\ p d = true.
Proof.
  induction s as [| c s IH]; [done |]. intros _ H. cbn [all_chars] in H.
  apply andb_true_iff in H as [Hc Hs].
  destruct s as [| c' s'].
  - by exists "", c.
  - destruct (IH ltac:(done) Hs) as (body & d & E & Hd).
    exists (String c body), d. by rewrite string_app_cons, <- E.
Qed.

Lemma trim_numeral n :
  trim (Number_toString n +:+ Examples.newline) = Number_toString n.
Proof.
  destruct n as [| p | p]; [by vm_compute | |]; unfold Number_toString.
  - pose proof (string_of_uint_digits (Pos.to_uint p)) as Hd.
    pose proof (string_of_uint_nonempty p) as Hne.
    destruct (last_char _ _ Hne Hd) as (body & d & E & Hdd).
    destruct (NilEmpty.string_of_uint (Pos.to_uint p)) as [| c rest]; [done |].
    cbn [all_chars] in Hd. apply andb_true_iff in Hd as [Hc _].
    apply (trim_line c rest body d E); by apply is_digit_not_space.
  - pose proof (string_of_uint_digits (Pos.to_uint p)) as Hd.
    pose proof (string_of_uint_nonempty p) as Hne.
    destruct (last_char _ _ Hne Hd) as (body & d & E & Hdd).
    apply (trim_line "-" _ (String "-" body) d);
      [by rewrite E | done | by apply is_digit_not_space].
Qed.

End Numerals.

Section Probes.
Import JsString Hardware.

(** X11.  The core counts are what [sysctl] printed.  On darwin, when the
    two [sysctl] queries print the decimal numerals of the integers [p]
    and [e] (of a size a double holds exactly), each followed by a line
    feed, [getPerformanceAndEfficiencyCores] returns exactly [p]
    performance and [e] efficiency cores: [trim] removes the line feed
    and [parseInt] reads the numeral back (a printed 0 stays 0 through
    [|| 0]). *)
Theorem core_counts_are_read_back h p e :
  platform h = "darwin" ->
  - 2 ^ 53 < p < 2 ^ 53 -> - 2 ^ 53 < e < 2 ^ 53 ->
  execSync h "sysctl -n hw.perflevel0.physicalcpu"
    = Normal (Number_toString p +:+ Examples.newline) ->
  execSync h "sysctl -n hw.perflevel1.physicalcpu"
    = Normal (Number_toString e +:+ Examples.newline) ->
  getPerformanceAndEfficiencyCores h = Normal (p, e).
Proof.
  intros Hp _ _ H0 H1. unfold getPerformanceAndEfficiencyCores.
  rewrite Hp, H0, H1. cbn.
  by rewrite !trim_numeral, !parseInt_Number_toString.
Qed.

End Probes.

Section Brand.
Import JsString Hardware.

Lemma strip_prefix_app p s : strip_prefix p (p +:+ s) = Some s.
Proof.
  induction p as [| c p IH]; [by destruct s |].
  rewrite string_app_cons. cbn [strip_prefix]. by rewrite Ascii.eqb_refl.
Qed.

Lemma brand_match_here s r : brand_here s = Some r -> brand_match s = Some r.
Proof. intros H. destruct s; cbn [brand_match]; by rewrite H. Qed.

(** The pattern on a well-formed brand string. *)
Lemma brand_match_brand_string n v :
  v ∈ [None; Some "Pro"; Some "Max"; Some "Ultra"] ->
  brand_match (brand_string n v) = Some ("M" +:+ Number_toString (Zpos n), v).
Proof.
  intros Hv. apply brand_match_here. unfold brand_here, brand_string.
  rewrite strip_prefix_app. unfold Number_toString.
  pose proof (string_of_uint_digits (Pos.to_uint n)) as Hd.
  pose proof (string_of_uint_nonempty n) as Hne.
  set (numeral := NilEmpty.string_of_uint (Pos.to_uint n)) in *.
  rewrite span_digits_app; [| exact Hd |].
  - destruct numeral as [| c rest]; [done |].
    change ("M" +:+ String c rest) with (String "M" (String c rest)).
    repeat (apply elem_of_cons in Hv as [-> | Hv]; [by vm_compute |]).
    by apply elem_of_nil in Hv.
  - repeat (apply elem_of_cons in Hv as [-> | Hv]; [by vm_compute |]).
    by apply elem_of_nil in Hv.
Qed.

Lemma trim_brand_string n v :
  v ∈ [None; Some "Pro"; Some "Max"; Some "Ultra"] ->
  trim (brand_string n v +:+ Examples.newline) = brand_string n v.
Proof.
  intros Hv.
  pose proof (string_of_uint_digits (Pos.to_uint n)) as Hd.
  pose proof (string_of_uint_nonempty n) as Hne.
  destruct (last_char _ _ Hne Hd) as (body & d & E & Hdd).
  assert (Shape : exists body' d', brand_string n v = body' +:+ String d' ""
                                   /\ is_space d' = false).
  { unfold brand_string, Number_toString. rewrite E.
    repeat (apply elem_of_cons in Hv as [-> | Hv]).
    - exists ("Apple M" +:+ body), d.
      split; [by rewrite string_app_empty_r | by apply is_digit_not_space].
    - exists ("Apple M" +:+ (body +:+ String d "") +:+ " Pr"), "o"%char.
      split; [by rewrite !string_app_assoc | done].
    - exists ("Apple M" +:+ (body +:+ String d "") +:+ " Ma"), "x"%char.
      split; [by rewrite !string_app_assoc | done].
    - exists ("Apple M" +:+ (body +:+ String d "") +:+ " Ultr"), "a"%char.
      split; [by rewrite !string_app_assoc | done].
    - by apply elem_of_nil in Hv. }
  destruct Shape as (body' & d' & E' & Hd').
  change (brand_string n v)
    with (String "A" ("pple M" +:+ Number_toString (Zpos n)
                      +:+ match v with Some v0 => " " +:+ v0 | None => "" end)) in *.
  by apply (trim_line _ _ body' d').
Qed.

Lemma newer_generation_is_not_in_the_tables n v :
  (4 < n)%positive ->
  GPU_CORES ("M" +:+ Number_toString (Zpos n)) v = None /\
  NEURAL_CORES ("M" +:+ Number_toString (Zpos n)) = None.
Proof.
  intros Hn.
  assert (Ne : forall k, (k <= 4)%positive ->
             (("M" +:+ Number_toString (Zpos n)) =? ("M" +:+ Number_toString (Zpos k)))%string
             = false).
  { intros k Hk. apply String.eqb_neq. intros E.
    change ("M" +:+ Number_toString (Zpos n)) with (String "M" (Number_toString (Zpos n))) in E.
    change ("M" +:+ Number_toString (Zpos k)) with (String "M" (Number_toString (Zpos k))) in E.
    injection E as E.
    apply (Number_toString_inj (Zpos n) (Zpos k)) in E. lia. }
  pose proof (Ne 1%positive ltac:(lia)) as N1.
  pose proof (Ne 2%positive ltac:(lia)) as N2.
  pose proof (Ne 3%positive ltac:(lia)) as N3.
  pose proof (Ne 4%positive ltac:(lia)) as N4.
  change ("M" +:+ Number_toString 1) with "M1" in N1.
  change ("M" +:+ Number_toString 2) with "M2" in N2.
  change ("M" +:+ Number_toString 3) with "M3" in N3.
  change ("M" +:+ Number_toString 4) with "M4" in N4.
  unfold GPU_CORES, NEURAL_CORES. by rewrite N1, N2, N3, N4.
Qed.

(** X12.  The chip is what the brand string says.  On darwin/arm64, when
    the brand query prints "Apple M", a generation number and optionally
    a blank and one of Pro, Max, Ultra, followed by a line feed, the
    detected generation is "M" with that number, the variant is the one
    printed, or "base" when none is, and the core counts are those of the
    two tables.  A generation newer than the tables (M5 and later) is
    passed through as it is, although the type allows M1 to M4 only, and
    is reported with 0 GPU cores and 0 Neural Engine cores. *)
Theorem chip_brand_is_read_back h n v :
  platform h = "darwin" -> arch h = "arm64" ->
  v ∈ [None; Some "Pro"; Some "Max"; Some "Ultra"] ->
  execSync h "sysctl -n machdep.cpu.brand_string"
    = Normal (brand_string n v +:+ Examples.newline) ->
  exists info,
    getAppleSiliconInfo h = Normal info /\
    si_generation info = "M" +:+ Number_toString (Zpos n) /\
    si_variant info = default "base" v /\
    si_gpuCores info = default 0 (GPU_CORES (si_generation info) (si_variant info)) /\
    si_neuralEngineCores info = default 0 (NEURAL_CORES (si_generation info)) /\
    ((n <= 4)%positive -> 8 <= si_gpuCores info <= 80 /\ si_neuralEngineCores info = 16) /\
    ((4 < n)%positive -> si_gpuCores info = 0 /\ si_neuralEngineCores info = 0).
Proof.
  intros Hp Ha Hv He. unfold getAppleSiliconInfo.
  rewrite Hp, Ha, He, !String.eqb_refl. cbn [negb orb bindC try_catch].
  rewrite (trim_brand_string n v Hv), (brand_match_brand_string n v Hv).
  eexists. split; [reflexivity |].
  cbn [si_generation si_variant si_gpuCores si_neuralEngineCores].
  split; [done |]. split; [done |]. split; [done |]. split; [done |].
  split.
  - intros Hn.
    assert (Hcases : n = 1%positive \/ n = 2%positive \/ n = 3%positive \/ n = 4%positive)
      by lia.
    destruct Hcases as [-> | [-> | [-> | ->]]];
      repeat (apply elem_of_cons in Hv as [-> | Hv]; [by vm_compute |]);
      by apply elem_of_nil in Hv.
  - intros Hn.
    destruct (newer_generation_is_not_in_the_tables n (default "base" v) Hn) as [-> ->].
    done.
Qed.

End Brand.

Section Ranges.
Import JsString Hardware.

Lemma variant_here_cases s :
  variant_here s ∈ [None; Some "Pro"; Some "Max"; Some "Ultra"].
Proof.
  unfold variant_here.
  destruct (String.prefix "Pro" s); [in_list |].
  destruct (String.prefix "Max" s); [in_list |].
  destruct (String.prefix "Ultra" s); in_list.
Qed.

Lemma brand_here_shape s g v :
  brand_here s = Some (g, v) ->
  (exists d, g = String "M" d) /\ v ∈ [None; Some "Pro"; Some "Max"; Some "Ultra"].
Proof.
  unfold brand_here. destruct (strip_prefix "Apple M" s) as [r |]; [| done].
  destruct (span_digits r) as [d rest]. destruct d as [| c d]; [done |].
  intros [= <- <-]. split; [by eexists |].
  destruct rest as [| x rest]; [in_list |].
  destruct (is_space x); [apply variant_here_cases | in_list].
Qed.

Lemma brand_match_shape s g v :
  brand_match s = Some (g, v) ->
  (exists d, g = String "M" d) /\ v ∈ [None; Some "Pro"; Some "Max"; Some "Ultra"].
Proof.
  induction s as [| c s IH]; cbn [brand_match].
  - destruct (brand_here "") as [[g0 v0] |] eqn:E; [| done].
    intros [= <- <-]. by apply (brand_here_shape "").
  - destruct (brand_here (String c s)) as [[g0 v0] |] eqn:E; [| exact IH].
    intros [= <- <-]. by apply (brand_here_shape (String c s)).
Qed.

(** The chip part of every profile. *)
Lemma getAppleSiliconInfo_range h info :
  getAppleSiliconInfo h = Normal info ->
  si_variant info ∈ ["base"; "Pro"; "Max"; "Ultra"; "unknown"] /\
  (si_generation info = "unknown" <-> si_variant info = "unknown") /\
  ((platform h =? "darwin")%string && (arch h =? "arm64")%string = false ->
     si_generation info = "unknown") /\
  0 <= si_gpuCores info <= 80 /\
  si_neuralEngineCores info ∈ [0; 16] /\
  (0 < si_gpuCores info -> si_neuralEngineCores info = 16).
Proof.
  assert (U : si_variant unknown_silicon ∈ ["base"; "Pro"; "Max"; "Ultra"; "unknown"] /\
              (si_generation unknown_silicon = "unknown"
               <-> si_variant unknown_silicon = "unknown") /\
              si_generation unknown_silicon = "unknown" /\
              0 <= si_gpuCores unknown_silicon <= 80 /\
              si_neuralEngineCores unknown_silicon ∈ [0; 16] /\
              (0 < si_gpuCores unknown_silicon -> si_neuralEngineCores unknown_silicon = 16)).
  { cbn. split; [in_list |]. split; [done |]. split; [done |].
    split; [lia |]. split; [in_list | lia]. }
  unfold getAppleSiliconInfo.
  destruct ((platform h =? "darwin")%string); cbn [negb orb andb];
    [destruct ((arch h =? "arm64")%string); cbn [negb orb andb] |];
    try (intros [= <-]; tauto).
  destruct (execSync h "sysctl -n machdep.cpu.brand_string") as [out | e];
    cbn [bindC try_catch]; [| intros [= <-]; tauto].
  destruct (brand_match (trim out)) as [[g v] |] eqn:E; cbn [try_catch];
    [| intros [= <-]; tauto].
  intros [= <-]. cbn [si_variant si_generation si_gpuCores si_neuralEngineCores].
  destruct (brand_match_shape _ _ _ E) as [[d ->] Hv].
  assert (Hvar : default "base" v ∈ ["base"; "Pro"; "Max"; "Ultra"])
    by (repeat (apply elem_of_cons in Hv as [-> | Hv]; [in_list |]);
        by apply elem_of_nil in Hv).
  split; [apply elem_of_app with (l1 := ["base"; "Pro"; "Max"; "Ultra"]); by left |].
  split.
  { split; [done |]. intros Hu. rewrite Hu in Hvar.
    repeat (apply elem_of_cons in Hvar as [Hvar | Hvar]; [done |]).
    by apply elem_of_nil in Hvar. }
  split; [done |].
  unfold GPU_CORES, NEURAL_CORES.
  destruct ((String "M" d =? "M1")%string); [clear E |
    destruct ((String "M" d =? "M2")%string); [clear E |
      destruct ((String "M" d =? "M3")%string); [clear E |
        destruct ((String "M" d =? "M4")%string); [clear E |
          cbn; split; [lia |]; split; [in_list | lia]]]]];
    cbn [orb];
    (repeat (apply elem_of_cons in Hvar as [-> | Hvar];
             [cbn; split; [lia |]; split; [in_list | done] |]);
     by apply elem_of_nil in Hvar).
Qed.

Lemma calculateOptimalSettings_range mem gpu perf g v :
  gpuLayers (calculateOptimalSettings mem gpu perf g v) ∈ [4; 20; 40; 60; 80; 99] /\
  contextSize (calculateOptimalSettings mem gpu perf g v)
    ∈ [4096; 8192; 16384; 32768; 65536; 131072] /\
  batchSize (calculateOptimalSettings mem gpu perf g v) ∈ [512; 1024; 2048] /\
  4 <= cpuThreads (calculateOptimalSettings mem gpu perf g v).
Proof.
  unfold calculateOptimalSettings; cbn [gpuLayers contextSize batchSize cpuThreads].
  split; [| split; [| split; [| lia]]].
  - repeat (match goal with |- context [if ?b then _ else _] => destruct b end);
      in_list.
  - repeat (match goal with |- context [if ?b then _ else _] => destruct b end);
      in_list.
  - repeat (match goal with |- context [if ?b then _ else _] => destruct b end);
      in_list.
Qed.

(** X13.  Every detected profile is in range, whatever the probes print.
    For every host, [detectHardware] returns a profile whose CPU model is
    not empty, whose variant is one of base, Pro, Max, Ultra and unknown
    (unknown exactly when the generation is unknown, which is always the
    case off Apple Silicon), whose GPU core count lies between 0 and 80
    and whose Neural Engine core count is 0 or 16; and the recommended
    defaults handed to the engine are always one of the planner's tier
    values, with at least 4 threads. *)
Theorem detected_profile_is_in_range h :
  exists p,
    detectHardware h = Normal p /\
    cpuModel p <> "" /\
    cpuCores p = Z.of_nat (length (cpus h)) /\
    variant p ∈ ["base"; "Pro"; "Max"; "Ultra"; "unknown"] /\
    (generation p = "unknown" <-> variant p = "unknown") /\
    (isAppleSilicon p = false -> generation p = "unknown") /\
    0 <= gpuCores p <= 80 /\
    neuralEngineCores p ∈ [0; 16] /\
    (0 < gpuCores p -> neuralEngineCores p = 16) /\
    gpuLayers (recommended p) ∈ [4; 20; 40; 60; 80; 99] /\
    contextSize (recommended p) ∈ [4096; 8192; 16384; 32768; 65536; 131072] /\
    batchSize (recommended p) ∈ [512; 1024; 2048] /\
    4 <= cpuThreads (recommended p).
Proof.
  unfold detectHardware.
  destruct (getAppleSiliconInfo_total h) as [info Hinfo].
  destruct (getPerformanceAndEfficiencyCores_total h) as [cores Hcores].
  rewrite Hinfo, Hcores. cbn [bindC].
  eexists. split; [reflexivity |].
  cbn [cpuModel cpuCores variant generation isAppleSilicon gpuCores neuralEngineCores
       recommended].
  destruct (getAppleSiliconInfo_range h info Hinfo) as (R1 & R2 & R3 & R4 & R5 & R6).
  destruct (calculateOptimalSettings_range (JsNumber.round_GiB (totalmem h))
              (si_gpuCores info) (fst cores) (si_generation info) (si_variant info))
    as (S1 & S2 & S3 & S4).
  split.
  { destruct (cpus h) as [| c cs]; [done |].
    by destruct (model c) as [| x m]. }
  repeat (split; [done |]). done.
Qed.

End Ranges.

Section LaunchDefaults.
Import Hardware LlamaServer Defaults.

(** X14.  The defaults of one launch come from one profile, the one that
    is logged.  [launchServer] asks the hardware manager up to five times
    (once per missing override, once for the log).  Whatever the machine
    answers at each of these moments, the statements complete normally,
    the cache is filled afterwards, every effective value is the override
    when one is given (0 included) and otherwise the recommended value of
    the logged profile, and that profile is the cached one when the cache
    was filled before. *)
Theorem launch_defaults_come_from_the_logged_profile h1 h2 h3 h4 h5 options cache :
  exists e,
    effective_settings h1 h2 h3 h4 h5 options cache = Normal (e, Some (hwProfile e)) /\
    effectiveContextSize e
      = default (Hardware.contextSize (recommended (hwProfile e))) (contextSize options) /\
    effectiveGpuLayers e
      = default (Hardware.gpuLayers (recommended (hwProfile e))) (gpuLayers options) /\
    effectiveThreads e
      = default (Hardware.cpuThreads (recommended (hwProfile e))) (threads options) /\
    effectiveBatchSize e
      = default (Hardware.batchSize (recommended (hwProfile e))) (batchSize options) /\
    (forall p, cache = Some p -> hwProfile e = p) /\
    (h1 = h5 -> h2 = h5 -> h3 = h5 -> h4 = h5 ->
     getProfile h5 cache = Normal (hwProfile e, Some (hwProfile e))).
Proof.
  unfold effective_settings, nullish, getOptimalContextSize, getOptimalGpuLayers,
    getOptimalThreads, getOptimalBatchSize.
  destruct cache as [p |].
  - destruct (contextSize options), (gpuLayers options), (threads options),
      (batchSize options); cbn [getProfile bindC fst snd default];
      match goal with |- exists e, Normal (?x, _) = _ /\ _ => exists x end;
      (split; [reflexivity |]);
      cbn [effectiveContextSize effectiveGpuLayers effectiveThreads effectiveBatchSize
           hwProfile];
      do 4 (split; [done |]); (split; [by intros ? [= ->] | done]).
  - destruct (detectHardware_total h1) as [p1 E1], (detectHardware_total h2) as [p2 E2],
      (detectHardware_total h3) as [p3 E3], (detectHardware_total h4) as [p4 E4],
      (detectHardware_total h5) as [p5 E5].
    destruct (contextSize options), (gpuLayers options), (threads options),
      (batchSize options); cbn [getProfile bindC fst snd default];
      rewrite ?E1; cbn [getProfile bindC fst snd default];
      rewrite ?E2; cbn [getProfile bindC fst snd default];
      rewrite ?E3; cbn [getProfile bindC fst snd default];
      rewrite ?E4; cbn [getProfile bindC fst snd default];
      rewrite ?E5; cbn [getProfile bindC fst snd default];
      match goal with |- exists e, Normal (?x, _) = _ /\ _ => exists x end;
      (split; [reflexivity |]);
      cbn [effectiveContextSize effectiveGpuLayers effectiveThreads effectiveBatchSize
           hwProfile];
      do 4 (split; [done |]); (split; [done |]); intros; subst; congruence.
Qed.

End LaunchDefaults.

(* ===================================================================== *)
(** * The model size check                                                 *)
(* ===================================================================== *)

Section Sizes.
Import Hardware HardwareManager.

(** Rounding a 53-bit mantissa that was shifted left: the shift is undone
    and nothing is lost. *)
Lemma round_scaled (a sh : positive) (e : Z) :
  Zpos (digits2_pos a) = 53 -> -1074 <= e + Zpos sh <= 971 ->
  binary_round_aux 53 1024 false (Zpos a * 2 ^ Zpos sh) e loc_Exact
  = S754_finite false a (e + Zpos sh).
Proof.
  intros Hd He.
  pose proof (digits2_pos_spec a) as [Dl Du]. rewrite Hd in Dl, Du.
  change (53 - 1) with 52 in Dl.
  assert (P : 0 < 2 ^ Zpos sh) by (apply Z.pow_pos_nonneg; lia).
  assert (Low : (Zpos a * 2 ^ Zpos sh) mod 2 ^ (Zpos sh - 1) = 0).
  { replace (2 ^ Zpos sh) with (2 * 2 ^ (Zpos sh - 1))
      by (rewrite <- Z.pow_succ_r by lia; f_equal; lia).
    rewrite Z.mul_assoc. apply Z.mod_mul.
    apply Z.neq_sym, Z.lt_neq, Z.pow_pos_nonneg; lia. }
  assert (Bit : Z.testbit (Zpos a * 2 ^ Zpos sh) (Zpos sh - 1) = false)
    by (apply Z.mul_pow2_bits_low; lia).
  assert (Quot : Zpos a * 2 ^ Zpos sh / 2 ^ Zpos sh = Zpos a)
    by (apply Z.div_mul; lia).
  assert (Bounds : 2 ^ (53 + Zpos sh - 1) <= Zpos a * 2 ^ Zpos sh < 2 ^ (53 + Zpos sh)).
  { replace (53 + Zpos sh - 1) with (52 + Zpos sh) by lia.
    rewrite !Z.pow_add_r by lia. split.
    - apply Z.mul_le_mono_nonneg_r; lia.
    - apply Z.mul_lt_mono_pos_r; lia. }
  destruct (Zpos a * 2 ^ Zpos sh) as [| q | q] eqn:Eq; try lia.
  assert (E : shr_fexp 53 1024 (Zpos q) e loc_Exact
              = ({| shr_m := Zpos a; shr_r := false; shr_s := false |}, e + Zpos sh)).
  { unfold shr_fexp. change (Zdigits2 (Zpos q)) with (Zpos (digits2_pos q)).
    rewrite (digits2_pos_unique q (53 + Zpos sh) Bounds), fexp_eq.
    replace (Z.max (53 + Zpos sh + e - 53) (-1074) - e) with (Zpos sh) by lia.
    cbn [shr shr_record_of_loc]. rewrite iter_shr_1 by lia. unfold shr_k.
    by rewrite Quot, Bit, Low. }
  assert (E2 : shr_fexp 53 1024 (Zpos a) (e + Zpos sh) loc_Exact
               = ({| shr_m := Zpos a; shr_r := false; shr_s := false |}, e + Zpos sh)).
  { unfold shr_fexp. change (Zdigits2 (Zpos a)) with (Zpos (digits2_pos a)).
    rewrite Hd, fexp_eq.
    by replace (Z.max (53 + (e + Zpos sh) - 53) (-1074) - (e + Zpos sh)) with 0 by lia. }
  unfold binary_round_aux. rewrite E.
  cbn [shr_m loc_of_shr_record round_nearest_even]. rewrite E2. cbn [shr_m].
  by replace (e + Zpos sh <=? 1024 - 53) with true by (symmetry; apply Z.leb_le; lia).
Qed.

Lemma div_eucl_pair a b : Z.div_eucl a b = (a / b, a mod b).
Proof. unfold Z.div, Z.modulo. by destruct (Z.div_eucl a b). Qed.

(** Dividing a double by [1024 ** 3] lowers its exponent by 30. *)
Lemma div_GiB (a : positive) (e : Z) :
  Zpos (digits2_pos a) = 53 -> -1074 <= e - 31 -> e - 30 <= 971 ->
  div (S754_finite false a e) (JsNumber.of_Z (1024 ^ 3)) = S754_finite false a (e - 30).
Proof.
  intros Hd Hlo Hhi.
  change (JsNumber.of_Z (1024 ^ 3)) with (S754_finite false (2 ^ 52) (-22)).
  unfold div, JsNumber.prec, JsNumber.emax, SFdiv, SFdiv_core_binary.
  change (Zdigits2 (Zpos a)) with (Zpos (digits2_pos a)). rewrite Hd.
  change (Zdigits2 (Zpos (2 ^ 52))) with 53. rewrite fexp_eq.
  change IntDef.Z.min with Z.min.
  replace (Z.min (Z.max (53 + e - (53 + -22) - 53) (-1074)) (e - -22)) with (e - 31) by lia.
  replace (e - -22 - (e - 31)) with 53 by lia.
  change IntDef.Z.shiftl with Z.shiftl. change IntDef.Z.div_eucl with Z.div_eucl.
  rewrite Z.shiftl_mul_pow2 by lia.
  rewrite div_eucl_pair.
  replace (Zpos a * 2 ^ 53) with (Zpos a * 2 ^ 1 * Zpos (2 ^ 52))
    by (change (Zpos (2 ^ 52)) with (2 ^ 52); change (2 ^ 53) with (2 ^ 1 * 2 ^ 52); ring).
  rewrite Z.div_mul, Z.mod_mul by done.
  change (new_location (Zpos (2 ^ 52)) 0) with loc_Exact. cbn [xorb].
  rewrite (round_scaled a 1 (e - 31) Hd) by lia. f_equal. lia.
Qed.

(** The order of two positive doubles with 53-bit mantissas, the first
    carrying an integer scaled by [2 ^ - k]. *)
Lemma leb_scaled (k : Z) (n m a b : positive) :
  0 <= k ->
  Zpos a = Zpos n * 2 ^ (53 - Zpos (digits2_pos n)) ->
  Zpos b = Zpos m * 2 ^ (53 - Zpos (digits2_pos m)) ->
  Zpos (digits2_pos n) <= 53 -> Zpos (digits2_pos m) <= 53 ->
  leb (S754_finite false a (Zpos (digits2_pos n) - 53 - k))
      (S754_finite false b (Zpos (digits2_pos m) - 53))
  = (Zpos n <=? Zpos m * 2 ^ k).
Proof.
  intros Hk Ha Hb Hn Hm.
  pose proof (digits2_pos_spec n) as [Nl Nu].
  pose proof (digits2_pos_spec m) as [Ml Mu].
  set (dn := Zpos (digits2_pos n)) in *. set (dm := Zpos (digits2_pos m)) in *.
  assert (Dn : 1 <= dn) by (subst dn; lia).
  assert (Dm : 1 <= dm) by (subst dm; lia).
  assert (Pk : 0 < 2 ^ k) by (apply Z.pow_pos_nonneg; lia).
  unfold leb, SFleb, SFcompare.
  destruct (Z.compare_spec (dn - 53 - k) (dm - 53)) as [E | L | G].
  - (* equal exponents: the mantissas decide *)
    assert (K : 0 < 2 ^ (53 - dn)) by (apply Z.pow_pos_nonneg; lia).
    assert (Hb' : Zpos b = Zpos m * 2 ^ k * 2 ^ (53 - dn)).
    { rewrite Hb, <- Z.mul_assoc, <- Z.pow_add_r by lia. do 2 f_equal. lia. }
    change (PosDef.Pos.compare_cont Eq a b) with (Pos.compare a b).
    destruct (Pos.compare_spec a b) as [Eab | Lab | Gab].
    + symmetry. apply Z.leb_le. apply (f_equal Zpos) in Eab.
      rewrite Ha, Hb' in Eab. apply Z.mul_cancel_r in Eab; lia.
    + symmetry. apply Z.leb_le. apply Pos2Z.pos_lt_pos in Lab.
      rewrite Ha, Hb' in Lab. apply Z.mul_lt_mono_pos_r in Lab; lia.
    + symmetry. apply Z.leb_gt. apply Pos2Z.pos_lt_pos in Gab.
      rewrite Ha, Hb' in Gab. apply Z.mul_lt_mono_pos_r in Gab; lia.
  - (* the first has fewer digits *)
    symmetry. apply Z.leb_le.
    assert (P1 : 2 ^ dn <= 2 ^ (dm - 1 + k)) by (apply Z.pow_le_mono_r; lia).
    assert (P2 : 2 ^ (dm - 1 + k) <= Zpos m * 2 ^ k).
    { rewrite Z.pow_add_r by lia. apply Z.mul_le_mono_nonneg_r; lia. }
    lia.
  - (* the first has more digits *)
    symmetry. apply Z.leb_gt.
    assert (P1 : 2 ^ (dm + k) <= 2 ^ (dn - 1)) by (apply Z.pow_le_mono_r; lia).
    assert (P2 : Zpos m * 2 ^ k < 2 ^ (dm + k)).
    { rewrite Z.pow_add_r by lia. apply Z.mul_lt_mono_pos_r; lia. }
    lia.
Qed.

Lemma digits_below_53 (n : positive) : Zpos n < 2 ^ 53 -> Zpos (digits2_pos n) <= 53.
Proof.
  intros Hn. pose proof (digits2_pos_spec n) as [Nl _].
  destruct (Z_le_gt_dec (Zpos (digits2_pos n)) 53) as [? | G]; [done |].
  assert (2 ^ 53 <= 2 ^ (Zpos (digits2_pos n) - 1)) by (apply Z.pow_le_mono_r; lia).
  lia.
Qed.

(** The comparison of [canRunModel] on an integer byte count. *)
Lemma size_check_exact (bytes limit : Z) :
  0 <= bytes < 2 ^ 53 -> 0 <= limit < 2 ^ 53 ->
  leb (div (JsNumber.of_Z bytes) (JsNumber.of_Z (1024 ^ 3))) (JsNumber.of_Z limit)
  = (bytes <=? limit * 2 ^ 30).
Proof.
  intros Hb Hl. unfold JsNumber.of_Z at 1 3, JsNumber.prec, JsNumber.emax.
  destruct bytes as [| n |]; [| | lia]; destruct limit as [| m |]; try lia.
  - reflexivity.
  - destruct (of_Z_pos m (digits_below_53 m ltac:(lia))) as (b & -> & _). reflexivity.
  - destruct (of_Z_pos n (digits_below_53 n ltac:(lia))) as (a & -> & Ha & Ra).
    rewrite div_GiB; [reflexivity | | |].
    + apply digits2_pos_unique. exact Ra.
    + pose proof (digits2_pos_spec n). lia.
    + pose proof (digits_below_53 n ltac:(lia)). lia.
  - pose proof (digits_below_53 n ltac:(lia)) as Dn.
    pose proof (digits_below_53 m ltac:(lia)) as Dm.
    destruct (of_Z_pos n Dn) as (a & -> & Ha & Ra).
    destruct (of_Z_pos m Dm) as (b & -> & Hb' & Rb).
    rewrite div_GiB.
    + by apply (leb_scaled 30).
    + apply digits2_pos_unique. exact Ra.
    + pose proof (digits2_pos_spec n). lia.
    + lia.
Qed.

(** X15.  [canRunModel] accepts exactly the sizes up to the limit, in
    GiB.  For a model size that is a whole number of bytes below 2^53 and
    a profile whose limit [maxModelSizeGB] is a non-negative integer below
    2^53, the binary64 division by [1024 ** 3] and the comparison lose
    nothing: the answer is true exactly when the size is at most the
    limit times 2^30 bytes.  The call fills the profile cache like
    [getProfile].  On a first call on a machine with less than 2^64 bytes
    of memory the limit is six tenths of the memory in GB, rounded down,
    so no accepted model is larger than 60 % of the memory. *)
Theorem canRunModel_accepts_up_to_the_limit h cache p c bytes :
  getProfile h cache = Normal (p, c) ->
  0 <= bytes < 2 ^ 53 ->
  0 <= maxModelSizeGB (recommended p) < 2 ^ 53 ->
  canRunModel h cache (JsNumber.of_Z bytes)
    = Normal (bytes <=? maxModelSizeGB (recommended p) * 2 ^ 30, c) /\
  (cache = None -> 0 <= totalmem h < 2 ^ 64 ->
     maxModelSizeGB (recommended p) = 6 * totalMemoryGB p / 10 /\
     totalMemoryGB p = JsNumber.round_GiB (totalmem h)).
Proof.
  intros Hp Hb Hl. split.
  - unfold canRunModel. rewrite Hp. cbn [bindC fst snd].
    by rewrite size_check_exact.
  - intros -> Hm. cbn [getProfile] in Hp.
    destruct (detectHardware h) as [p0 | e] eqn:Hd; [| done].
    cbn in Hp. injection Hp as <- <-.
    destruct (detected_memory_is_below_bound h p0 Hd Hm) as [Hmem ->].
    cbn [maxModelSizeGB calculateOptimalSettings].
    split; [by apply floor_of_six_tenths |].
    unfold detectHardware in Hd.
    destruct (getAppleSiliconInfo h); [| done].
    destruct (getPerformanceAndEfficiencyCores h); [| done].
    cbn in Hd. by injection Hd as <-.
Qed.

End Sizes.

Section Quantization.
Import Hardware HardwareManager.

(** The product of a whole number by a literal [c * 2 ^ - j], as long as
    [c] times the number stays below 2^53: nothing is rounded away. *)
Lemma mul_exact (n c cm : positive) (j : Z) :
  Zpos n * Zpos c < 2 ^ 53 -> 0 <= j <= 60 ->
  Zpos (digits2_pos cm) = 53 ->
  Zpos cm = Zpos c * 2 ^ (53 - Zpos (digits2_pos c)) ->
  exists a,
    JsNumber.mul (JsNumber.of_Z (Zpos n))
      (S754_finite false cm (Zpos (digits2_pos c) - 53 - j))
    = S754_finite false a (Zpos (digits2_pos (n * c)) - 53 - j) /\
    Zpos a = Zpos (n * c) * 2 ^ (53 - Zpos (digits2_pos (n * c))).
Proof.
  intros Hnc Hj Hcm Ecm.
  assert (Hn : Zpos n < 2 ^ 53) by nia.
  pose proof (digits_below_53 n Hn) as Dn.
  pose proof (digits_below_53 (n * c) ltac:(by rewrite Pos2Z.inj_mul)) as Dnc.
  pose proof (digits2_pos_spec n) as [Nl Nu].
  pose proof (digits2_pos_spec c) as [Cl Cu].
  pose proof (digits2_pos_spec (n * c)) as [Pl Pu].
  destruct (of_Z_pos n Dn) as (an & En & Ean & Ran).
  destruct (of_Z_pos (n * c) Dnc) as (a & _ & Ea & Ra).
  set (dn := Zpos (digits2_pos n)) in *. set (dc := Zpos (digits2_pos c)) in *.
  set (dp := Zpos (digits2_pos (n * c))) in *.
  assert (Dc : dc <= 53).
  { apply digits_below_53. rewrite Pos2Z.inj_mul in *.
    assert (1 <= Zpos n) by lia. nia. }
  assert (Lo : dn + dc - 1 <= dp).
  { destruct (Z_le_gt_dec (dn + dc - 1) dp) as [? | G]; [done |].
    assert (2 ^ dp <= 2 ^ (dn - 1 + (dc - 1))) by (apply Z.pow_le_mono_r; lia).
    rewrite Z.pow_add_r in * by lia. rewrite Pos2Z.inj_mul in Pu.
    assert (2 ^ (dn - 1) * 2 ^ (dc - 1) <= Zpos n * Zpos c)
      by (apply Z.mul_le_mono_nonneg; lia).
    lia. }
  assert (Hi : dp <= dn + dc).
  { destruct (Z_le_gt_dec dp (dn + dc)) as [? | G]; [done |].
    assert (2 ^ (dn + dc) <= 2 ^ (dp - 1)) by (apply Z.pow_le_mono_r; lia).
    rewrite Z.pow_add_r in * by lia. rewrite Pos2Z.inj_mul in Pl.
    assert (Zpos n * Zpos c < 2 ^ dn * 2 ^ dc) by (apply Z.mul_lt_mono_nonneg; lia).
    lia. }
  exists a. split; [| exact Ea].
  unfold JsNumber.mul, JsNumber.of_Z, JsNumber.prec, JsNumber.emax.
  rewrite En. unfold SFmul. cbn [xorb].
  assert (Prod : Zpos (an * cm) = Zpos a * 2 ^ (106 - dn - dc - (53 - dp))).
  { rewrite Pos2Z.inj_mul, Ean, Ecm, Ea, Pos2Z.inj_mul.
    replace (106 - dn - dc - (53 - dp)) with (53 - dn + (53 - dc) - (53 - dp)) by lia.
    assert (Split : 2 ^ (53 - dn) * 2 ^ (53 - dc)
                    = 2 ^ (53 - dp) * 2 ^ (53 - dn + (53 - dc) - (53 - dp))).
    { rewrite <- !Z.pow_add_r by lia. f_equal. lia. }
    replace (Zpos n * 2 ^ (53 - dn) * (Zpos c * 2 ^ (53 - dc)))
      with (Zpos n * Zpos c * (2 ^ (53 - dn) * 2 ^ (53 - dc))) by ring.
    rewrite Split. ring. }
  rewrite Prod.
  destruct (106 - dn - dc - (53 - dp)) as [| sh | sh] eqn:Esh; [| | lia].
  - rewrite Z.mul_1_r.
    rewrite round_exact; [f_equal; lia | by apply digits2_pos_unique | lia].
  - rewrite round_scaled; [f_equal; lia | by apply digits2_pos_unique | lia].
Qed.

(** The three size estimates against the limit, for a whole number of
    billions of parameters. *)
Lemma estimates_exact (n limit : Z) :
  0 < n < 2 ^ 50 -> 0 <= limit < 2 ^ 53 ->
  leb (JsNumber.mul (JsNumber.of_Z n) lit_1) (JsNumber.of_Z limit) = (n <=? limit) /\
  leb (JsNumber.mul (JsNumber.of_Z n) lit_0_625) (JsNumber.of_Z limit)
    = (5 * n <=? 8 * limit) /\
  leb (JsNumber.mul (JsNumber.of_Z n) lit_0_5) (JsNumber.of_Z limit) = (n <=? 2 * limit).
Proof.
  intros Hn Hl. destruct n as [| n |]; try lia.
  destruct (mul_exact n 1 (2 ^ 52) 0) as (a1 & E1 & A1); [lia | lia | done | done |].
  destruct (mul_exact n 5 (5 * 2 ^ 50) 3) as (a5 & E5 & A5); [lia | lia | done | done |].
  destruct (mul_exact n 1 (2 ^ 52) 1) as (a2 & E2 & A2); [lia | lia | done | done |].
  change (S754_finite false (2 ^ 52) (Zpos (digits2_pos 1) - 53 - 0)) with lit_1 in E1.
  change (S754_finite false (5 * 2 ^ 50) (Zpos (digits2_pos 5) - 53 - 3))
    with lit_0_625 in E5.
  change (S754_finite false (2 ^ 52) (Zpos (digits2_pos 1) - 53 - 1)) with lit_0_5 in E2.
  rewrite E1, E5, E2. rewrite Pos.mul_1_r in *.
  assert (D1 : Zpos (digits2_pos n) <= 53) by (apply digits_below_53; lia).
  assert (D5 : Zpos (digits2_pos (n * 5)) <= 53)
    by (apply digits_below_53; rewrite Pos2Z.inj_mul; lia).
  destruct limit as [| m |]; try lia.
  - repeat split; cbn; symmetry; apply Z.leb_gt; lia.
  - pose proof (digits_below_53 m ltac:(lia)) as Dm.
    unfold JsNumber.of_Z, JsNumber.prec, JsNumber.emax.
    destruct (of_Z_pos m Dm) as (b & -> & Hb & Rb).
    split; [| split].
    + rewrite (leb_scaled 0 n m a1 b) by (done || lia). by rewrite Z.mul_1_r.
    + rewrite (leb_scaled 3 (n * 5) m a5 b) by (done || lia).
      rewrite Pos2Z.inj_mul. f_equal; lia.
    + rewrite (leb_scaled 1 n m a2 b) by (done || lia). f_equal; lia.
Qed.

(** X16.  [getRecommendedQuantization] picks the largest quantization
    whose estimate fits the limit.  For a whole number [n] of billions of
    parameters (below 2^50) and a profile whose limit [maxModelSizeGB] is
    a non-negative integer below 2^53, the binary64 products by 1, 0.625
    and 0.5 are exact, and the answer is Q8_0 when [n] is at most the
    limit, else Q5_K_M when [5 n] is at most 8 times the limit, else
    Q4_K_M when [n] is at most twice the limit, and Q4_K_S otherwise: the
    smallest quantization is also what a model that fits in no way
    gets. *)
Theorem quantization_follows_the_size_limit h cache p c n :
  getProfile h cache = Normal (p, c) ->
  0 < n < 2 ^ 50 ->
  0 <= maxModelSizeGB (recommended p) < 2 ^ 53 ->
  getRecommendedQuantization h cache (JsNumber.of_Z n)
  = Normal (if n <=? maxModelSizeGB (recommended p) then "Q8_0"
            else if 5 * n <=? 8 * maxModelSizeGB (recommended p) then "Q5_K_M"
            else if n <=? 2 * maxModelSizeGB (recommended p) then "Q4_K_M"
            else "Q4_K_S", c).
Proof.
  intros Hp Hn Hl. unfold getRecommendedQuantization. rewrite Hp. cbn [bindC fst snd].
  destruct (estimates_exact n _ Hn Hl) as (-> & -> & ->). done.
Qed.

End Quantization.

Section Snapshot.
Import Hardware Ipc.

(** X17.  The hardware information shown to the user is a snapshot.  The
    handler of 'system:getHardwareInfo' answers from the cached profile:
    after a first [getProfile] on the machine in state [h0], a request
    served when the machine is in state [h1] reports the memory figures
    of [h0], the free memory included; only [refresh] (which nothing in
    the application calls) replaces the snapshot, by that of the machine
    at the time of the call. *)
Theorem hardware_info_is_a_snapshot h0 h1 h2 :
  exists p0 p1 i0 i1,
    getProfile h0 None = Normal (p0, Some p0) /\
    getHardwareInfo h1 (Some p0) = Normal (i0, Some p0) /\
    info_totalMemoryGB i0 = JsNumber.round_GiB (totalmem h0) /\
    info_availableMemoryGB i0 = JsNumber.round_GiB (freemem h0) /\
    info_cpuCores i0 = Z.of_nat (length (cpus h0)) /\
    refresh h1 (Some p0) = Normal (p1, Some p1) /\
    getHardwareInfo h2 (Some p1) = Normal (i1, Some p1) /\
    info_totalMemoryGB i1 = JsNumber.round_GiB (totalmem h1) /\
    info_availableMemoryGB i1 = JsNumber.round_GiB (freemem h1) /\
    info_cpuCores i1 = Z.of_nat (length (cpus h1)).
Proof.
  unfold getHardwareInfo, refresh. cbn [getProfile]. unfold detectHardware.
  destruct (getAppleSiliconInfo_total h0) as [s0 ->].
  destruct (getPerformanceAndEfficiencyCores_total h0) as [c0 ->].
  destruct (getAppleSiliconInfo_total h1) as [s1 ->].
  destruct (getPerformanceAndEfficiencyCores_total h1) as [c1 ->].
  cbn [bindC fst snd]. do 4 eexists.
  repeat (split; [reflexivity |]). reflexivity.
Qed.

End Snapshot.

(* ===================================================================== *)
(** * The properties above on worked examples                              *)
(* ===================================================================== *)

Section WorkedSessions.
Import LlamaServer Readiness Examples Scenarios.

Lemma two_sessions_is_reachable : reachable linux_host two_sessions.
Proof.
  exact (reachable_launch linux_host _ embedding_options
           (reachable_launch linux_host _ session_options (reachable_init linux_host))).
Qed.


(** X2 on the ready session: launching "chat" again starts nothing. *)
Lemma registered_session_is_not_relaunched_witness :
  children (fst (launchServer linux_host ready session_options)) = children ready.
Proof.
  assert (Hp : processes ready !! id session_options = Some 0%nat)
    by (vm_compute; reflexivity).
  destruct (registered_session_is_not_relaunched linux_host ready session_options 0
              ready_is_reachable Hp) as (c & _ & _ & _ & Hc & _).
  exact Hc.
Defined.


(** X5 with two sessions: the readiness record of the embedding process
    leaves the chat process subscribed and its launch pending. *)
Lemma events_of_one_process_leave_the_others_witness :
  exists c,
    children two_sessions !! 0%nat = Some c /\
    children (step linux_host two_sessions (StdoutData 1 (sentinel_line +:+ newline)))
      !! 0%nat = Some c /\
    promises (step linux_host two_sessions (StdoutData 1 (sentinel_line +:+ newline)))
      !! settles c = promises two_sessions !! settles c.
Proof.
  eexists. split; [vm_compute; reflexivity |].
  apply (events_of_one_process_leave_the_others linux_host two_sessions 0 _
           (StdoutData 1 (sentinel_line +:+ newline)) two_sessions_is_reachable);
    [vm_compute; reflexivity | vm_compute; discriminate].
Defined.

(** X6 on the ready session: a second [cleanupProcess] changes nothing. *)
Lemma cleanupProcess_signals_once_witness :
  cleanupProcess (cleanupProcess ready "chat") "chat" = cleanupProcess ready "chat".
Proof.
  assert (Hp : processes ready !! "chat" = Some 0%nat) by (vm_compute; reflexivity).
  assert (Hc : exists c, children ready !! 0%nat = Some c)
    by (eexists; vm_compute; reflexivity).
  destruct Hc as [c Hc].
  destruct (cleanupProcess_signals_once ready "chat" 0 c Hp Hc)
    as (_ & _ & _ & _ & _ & _ & H).
  exact H.
Defined.

(** X7 with two sessions. *)
Lemma close_signals_every_registered_process_witness :
  processes (close two_sessions) = ∅ /\ loading (close two_sessions) = ∅.
Proof.
  destruct (close_signals_every_registered_process linux_host two_sessions
              two_sessions_is_reachable) as (Hp & Hl & _).
  exact (conj Hp Hl).
Defined.

(** X8 on the ready session: three segmentation faults, three restarts. *)
Lemma segfault_restarts_have_no_limit_witness :
  length (children (Nat.iter 3 (crash linux_host "chat") ready)) = 4%nat.
Proof.
  assert (Ho : launchOptions ready !! "chat" = Some session_options)
    by (vm_compute; reflexivity).
  assert (Hp : processes ready !! "chat" = Some 0%nat) by (vm_compute; reflexivity).
  exact (proj1 (segfault_restarts_have_no_limit linux_host ready "chat" session_options
                  0 3 ready_is_reachable Ho Hp)).
Defined.

(** X9 on the ready session: cleaned up, launched again, and then the old
    process reports its exit after SIGTERM. *)
Lemma late_close_unregisters_the_successor_witness :
  processes (fst (launchServer linux_host (cleanupProcess ready "chat") session_options))
    !! "chat" = Some 1%nat /\
  processes (on_close linux_host 0 None (Some "SIGTERM")
               (fst (launchServer linux_host (cleanupProcess ready "chat")
                       session_options))) !! "chat" = None.
Proof.
  assert (Hp : processes ready !! id session_options = Some 0%nat)
    by (vm_compute; reflexivity).
  assert (Hc : exists c, children ready !! 0%nat = Some c)
    by (eexists; vm_compute; reflexivity).
  destruct Hc as [c Hc].
  assert (Hs : Some "SIGTERM" <> Some "SIGSEGV") by discriminate.
  pose proof (late_close_unregisters_the_successor linux_host ready session_options 0 c
                None (Some "SIGTERM") ready_is_reachable Hp Hc Hs) as H.
  cbv zeta in H. destruct H as (H1 & H2 & _).
  exact (conj H1 H2).
Defined.

(** X10 on a first launch whose output arrives line by line. *)
Lemma line_aligned_chunks_are_decided_as_the_stream_witness :
  existsb chunk_announces_ready ["loading model" +:+ newline; sentinel_line +:+ newline]
  = spec_sentinel_arrived ["loading model" +:+ newline; sentinel_line +:+ newline].
Proof.
  assert (Hl : loading init !! id session_options = None) by (vm_compute; reflexivity).
  assert (Ha : Forall line_aligned ["loading model" +:+ newline; sentinel_line +:+ newline]).
  { apply Forall_cons. split; [by exists "loading model" |].
    apply Forall_cons. split; [by exists sentinel_line | apply Forall_nil_2]. }
  exact (proj1 (line_aligned_chunks_are_decided_as_the_stream linux_host init
                  session_options _ Hl Ha)).
Defined.

End WorkedSessions.

Section WorkedProbes.
Import JsString Hardware HardwareManager Examples Scenarios.

(** X11 on the M4 Max. *)
Lemma core_counts_are_read_back_witness :
  getPerformanceAndEfficiencyCores mac_studio = Normal (12, 4).
Proof.
  apply (core_counts_are_read_back mac_studio 12 4); (reflexivity || lia).
Defined.

(** X12 on the M4 Max. *)
Lemma chip_brand_is_read_back_witness :
  exists info, getAppleSiliconInfo mac_studio = Normal info /\
               si_generation info = "M4" /\ si_variant info = "Max".
Proof.
  assert (Hv : Some "Max" ∈ [None; Some "Pro"; Some "Max"; Some "Ultra"])
    by (apply list_elem_of_further, list_elem_of_further, list_elem_of_here).
  destruct (chip_brand_is_read_back mac_studio 4 (Some "Max") eq_refl eq_refl Hv eq_refl)
    as (info & Hi & Hg & Hvar & _).
  exists info. split; [exact Hi |]. split; [exact Hg | exact Hvar].
Defined.

(** X15 on the Linux host with 32 GB: the limit is 19 GB, so a model of
    16 GiB is accepted. *)
Lemma canRunModel_accepts_up_to_the_limit_witness :
  exists c, canRunModel linux_host None (JsNumber.of_Z (16 * 2 ^ 30)) = Normal (true, c).
Proof.
  assert (Hp : exists p c, getProfile linux_host None = Normal (p, c) /\
                           maxModelSizeGB (recommended p) = 19)
    by (do 2 eexists; split; vm_compute; reflexivity).
  destruct Hp as (p & c & Hp & Hmax). exists c.
  assert (Hb : 0 <= 16 * 2 ^ 30 < 2 ^ 53) by lia.
  assert (Hl : 0 <= maxModelSizeGB (recommended p) < 2 ^ 53) by (rewrite Hmax; lia).
  destruct (canRunModel_accepts_up_to_the_limit linux_host None p c (16 * 2 ^ 30) Hp Hb Hl)
    as [H _].
  rewrite H, Hmax. reflexivity.
Defined.

(** X16 on the Linux host with 32 GB, where the limit is 19 GB: 30 billion
    parameters are estimated at 30, 18.75 and 15 GB, so Q5_K_M. *)
Lemma quantization_follows_the_size_limit_witness :
  exists c,
    getRecommendedQuantization linux_host None (JsNumber.of_Z 30) = Normal ("Q5_K_M", c).
Proof.
  assert (Hp : exists p c, getProfile linux_host None = Normal (p, c) /\
                           maxModelSizeGB (recommended p) = 19)
    by (do 2 eexists; split; vm_compute; reflexivity).
  destruct Hp as (p & c & Hp & Hmax). exists c.
  assert (Hn : 0 < 30 < 2 ^ 50) by lia.
  assert (Hl : 0 <= maxModelSizeGB (recommended p) < 2 ^ 53) by (rewrite Hmax; lia).
  rewrite (quantization_follows_the_size_limit linux_host None p c 30 Hp Hn Hl), Hmax.
  reflexivity.
Defined.

End WorkedProbes.
